(** * Asia filings: fact model and aggregation engine

    A shallow embedding of the fact parser ([src/xbrl-parser.js]), the fact
    table builder ([src/fact-table-builder.js]) and the time-series analyzer
    ([src/time-series-analyzer.js]).

    Conventions of the embedding.
    - A JavaScript string is the list of its UTF-16 code units.
    - A JavaScript number is a rational, or one of the two infinities, or
      NaN, and the two zeros are one. A number read from text ([parseFloat])
      and an amount scaled by a power of ten ([parseIXBRL]) are rounded to the
      nearest double, [JS.nearestDouble]. The sums, differences, quotients
      and roundings to decimals of the table builder and of the analyses are
      exact: they are the engine's wherever the amounts and the results are
      integers of magnitude up to 2^53, and may differ from it in the last
      binary digit elsewhere.
    - A function that can raise returns a [completion].
    - What the host supplies but the repository does not define
      ([String.prototype.toLowerCase], [String.prototype.localeCompare]) is a
      field of the class [Host].
    - Fields that only carry display text (the [...Formatted] strings) are left
      out of the records. *)

From Stdlib Require Import List Bool NArith ZArith QArith Qround Qabs String Ascii Lia
  Lqa Permutation Sorted.
Import ListNotations.

(** ** The JavaScript primitives the sources call *)

Module JS.

Abbreviation codeunit := N.
Definition jsstring := list codeunit.

(** Source literals are written as UTF-8 text and decoded to code units. *)
Fixpoint utf16_of_utf8 (bs : list N) : jsstring :=
  match bs with
  | [] => []
  | b0 :: r0 =>
    if (b0 <? 128)%N then b0 :: utf16_of_utf8 r0
    else if (b0 <? 224)%N then
      match r0 with
      | b1 :: r1 => ((b0 - 192) * 64 + (b1 - 128))%N :: utf16_of_utf8 r1
      | _ => []
      end
    else if (b0 <? 240)%N then
      match r0 with
      | b1 :: b2 :: r2 =>
        ((b0 - 224) * 4096 + (b1 - 128) * 64 + (b2 - 128))%N :: utf16_of_utf8 r2
      | _ => []
      end
    else
      match r0 with
      | b1 :: b2 :: b3 :: r3 =>
        let cp := ((b0 - 240) * 262144 + (b1 - 128) * 4096 + (b2 - 128) * 64 + (b3 - 128))%N in
        let c := (cp - 65536)%N in
        (55296 + c / 1024)%N :: (56320 + c mod 1024)%N :: utf16_of_utf8 r3
      | _ => []
      end
  end.

Definition js (s : string) : jsstring :=
  utf16_of_utf8 (map N_of_ascii (list_ascii_of_string s)).

Definition str_eqb (a b : jsstring) : bool :=
  if list_eq_dec N.eq_dec a b then true else false.

(** [s.startsWith(p)] *)
Fixpoint startsWith (s p : jsstring) : bool :=
  match p, s with
  | [], _ => true
  | _ :: _, [] => false
  | c :: p', d :: s' => (c =? d)%N && startsWith s' p'
  end.

(** [s.includes(p)] *)
Fixpoint includes (s p : jsstring) : bool :=
  startsWith s p ||
  match s with
  | [] => false
  | _ :: s' => includes s' p
  end.

Definition endsWith (s p : jsstring) : bool := startsWith (rev s) (rev p).

(** WhiteSpace and LineTerminator code units: what [trim] strips and what the
    regular expression class [\s] matches. *)
Definition isWhiteSpace (c : codeunit) : bool :=
  ((9 <=? c) && (c <=? 13) || (c =? 32) || (c =? 160) || (c =? 5760)
   || (8192 <=? c) && (c <=? 8202) || (c =? 8232) || (c =? 8233)
   || (c =? 8239) || (c =? 8287) || (c =? 12288) || (c =? 65279))%N.

Fixpoint dropWhile {A} (p : A -> bool) (l : list A) : list A :=
  match l with
  | [] => []
  | x :: r => if p x then dropWhile p r else l
  end.

Fixpoint takeWhile {A} (p : A -> bool) (l : list A) : list A :=
  match l with
  | [] => []
  | x :: r => if p x then x :: takeWhile p r else []
  end.

Definition trimStart (s : jsstring) : jsstring := dropWhile isWhiteSpace s.
Definition trimEnd (s : jsstring) : jsstring := rev (dropWhile isWhiteSpace (rev s)).
Definition trim (s : jsstring) : jsstring := trimEnd (trimStart s).

(** [s.replace(/[...]/g, '')]: drop every code unit of the class. *)
Definition removeAll (p : codeunit -> bool) (s : jsstring) : jsstring :=
  filter (fun c => negb (p c)) s.

(** [s.split(sep)] for a separator of one code unit: never empty. *)
Fixpoint split (sep : codeunit) (s : jsstring) : list jsstring :=
  match s with
  | [] => [[]]
  | c :: r =>
    if (c =? sep)%N then [] :: split sep r
    else match split sep r with
         | [] => [[c]]
         | h :: t => (c :: h) :: t
         end
  end.

(** [a.pop()] on a non-empty array. *)
Definition pop (a : list jsstring) : jsstring := last a [].

(** Numbers. *)
Inductive number :=
| Finite (q : Q)
| PosInfinity
| NegInfinity
| NaN.

Definition neg (n : number) : number :=
  match n with
  | Finite q => Finite (- q)
  | PosInfinity => NegInfinity
  | NegInfinity => PosInfinity
  | NaN => NaN
  end.

Definition isNaN (n : number) : bool :=
  match n with NaN => true | _ => false end.

(** 2^e as a rational. *)
Definition pow2 (e : Z) : Q :=
  if (0 <=? e)%Z then inject_Z (2 ^ e) else Qmake 1 (Z.to_pos (2 ^ (- e))).

(** The integer nearest to a rational, a tie going to the even one. *)
Definition roundHalfEven (x : Q) : Z :=
  let f := Qfloor x in
  match Qcompare (x - inject_Z f) (1 # 2) with
  | Lt => f
  | Gt => (f + 1)%Z
  | Eq => if Z.even f then f else (f + 1)%Z
  end.

(** The [k] with 2^k <= n/d < 2^(k+1). *)
Definition binaryExponent (n d : positive) : Z :=
  let k := (Z.log2 (Zpos n) - Z.log2 (Zpos d))%Z in
  if Qle_bool (pow2 k) (Zpos n # d) then k else (k - 1)%Z.

(** The double nearest to the positive rational n/d: a significand of 53
    bits, or fewer below 2^-1022 where the doubles are the multiples of
    2^-1074, a tie going to the even significand; [None] when that is 2^1024
    or more, which no double is. *)
Definition nearestPositive (n d : positive) : option Q :=
  let e := Z.max (binaryExponent n d - 52) (-1074) in
  let r := Qred (inject_Z (roundHalfEven ((Zpos n # d) / pow2 e)) * pow2 e) in
  if Qle_bool (pow2 1024) r then None else Some r.

(** The Number value for a rational (ECMA-262, 6.1.6.1): the nearest double
    in lowest terms, an infinity past the largest double. *)
Definition nearestDouble (q : Q) : number :=
  match Qred q with
  | Qmake Z0 _ => Finite 0
  | Qmake (Zpos n) d =>
    match nearestPositive n d with Some r => Finite r | None => PosInfinity end
  | Qmake (Zneg n) d =>
    match nearestPositive n d with Some r => Finite (- r) | None => NegInfinity end
  end.

Definition isDigit (c : codeunit) : bool := ((48 <=? c) && (c <=? 57))%N.

(** Value of a run of decimal digits, most significant first. *)
Definition digitsValue (ds : jsstring) : Z :=
  fold_left (fun acc c => (acc * 10 + (Z.of_N c - 48))%Z) ds 0%Z.

(** m * 10^e as a rational. *)
Definition scale10 (m e : Z) : Q :=
  if (0 <=? e)%Z then inject_Z (m * 10 ^ e) else Qmake m (Z.to_pos (10 ^ (- e))).

(** The ExponentPart of a StrDecimalLiteral: [e] or [E], an optional sign and
    at least one digit; anything else is not part of the literal. *)
Definition exponentPart (s : jsstring) : Z :=
  match s with
  | c :: r =>
    if ((c =? 101) || (c =? 69))%N then
      let '(sgn, r') :=
        match r with
        | d :: r'' =>
          if (d =? 43)%N then (1%Z, r'')
          else if (d =? 45)%N then ((-1)%Z, r'')
          else (1%Z, r)
        | [] => (1%Z, r)
        end in
      let ds := takeWhile isDigit r' in
      match ds with
      | [] => 0%Z
      | _ => (sgn * digitsValue ds)%Z
      end
    else 0%Z
  | [] => 0%Z
  end.

(** The longest prefix that is a StrUnsignedDecimalLiteral, NaN when there
    is none: "Infinity", or digits with an optional fraction and exponent,
    whose mathematical value is rounded to the nearest double. *)
Definition unsignedLiteral (s : jsstring) : number :=
  if startsWith s (js "Infinity") then PosInfinity
  else
    let ip := takeWhile isDigit s in
    let r1 := dropWhile isDigit s in
    let '(fp, r2) :=
      match r1 with
      | c :: r =>
        if (c =? 46)%N then (takeWhile isDigit r, dropWhile isDigit r)
        else ([], r1)
      | [] => ([], r1)
      end in
    match ip, fp with
    | [], [] => NaN
    | _, _ =>
      nearestDouble (scale10 (digitsValue (ip ++ fp))
                             (exponentPart r2 - Z.of_nat (List.length fp)))
    end.

(** [parseFloat(s)]: skip leading white space, read an optional sign and the
    longest literal after it. *)
Definition parseFloat (s : jsstring) : number :=
  match trimStart s with
  | c :: r =>
    if (c =? 43)%N then unsignedLiteral r
    else if (c =? 45)%N then neg (unsignedLiteral r)
    else unsignedLiteral (c :: r)
  | [] => NaN
  end.

(** Language values, as far as the sources tell them apart. *)
Inductive jsvalue :=
| VUndefined
| VNull
| VBoolean (b : bool)
| VNumber (n : number)
| VString (s : jsstring)
| VObject.

Definition isZero (n : number) : bool :=
  match n with Finite q => Qeq_bool q 0 | _ => false end.

(** ToBoolean. *)
Definition truthy (v : jsvalue) : bool :=
  match v with
  | VUndefined | VNull => false
  | VBoolean b => b
  | VNumber n => negb (isZero n || isNaN n)
  | VString s => match s with [] => false | _ => true end
  | VObject => true
  end.

Definition isString (v : jsvalue) : bool :=
  match v with VString _ => true | _ => false end.

(** Completions: a call returns or throws. *)
Inductive completion (A : Type) :=
| Return (a : A)
| Throw (message : jsstring).
Arguments Return {A} a.
Arguments Throw {A} message.

Definition bind {A B} (c : completion A) (k : A -> completion B) : completion B :=
  match c with
  | Return a => k a
  | Throw m => Throw m
  end.

(** Calling a string method on a value: a TypeError unless it is a string. *)
Definition asString (v : jsvalue) : completion jsstring :=
  match v with
  | VString s => Return s
  | _ => Throw (js "TypeError")
  end.

(** What the host's locale tables decide. *)
Class Host := {
  toLowerCase : jsstring -> jsstring;
  localeCompare : jsstring -> jsstring -> Z;
  numberToString : number -> jsstring;
  toLowerCase_empty : toLowerCase [] = []
}.

(** [a < b] on finite numbers. *)
Definition Qlt_bool (a b : Q) : bool := negb (Qle_bool b a).

(** The number that [q.toFixed(f)] denotes: the nearest multiple of 10^-f,
    ties away from zero; from 10^21 on [toFixed] prints the number itself. *)
Definition toFixed (f : nat) (q : Q) : Q :=
  let a := Qabs q in
  if Qle_bool (inject_Z (10 ^ 21)) a then q
  else
    let p := (10 ^ Z.of_nat f)%Z in
    let n := Qfloor (a * inject_Z p + (1 # 2)) in
    let r := Qmake n (Z.to_pos p) in
    if Qlt_bool q 0 then - r else r.

(** ToPropertyKey of a value used as an object key. *)
Definition toPropertyKey `{Host} (v : jsvalue) : jsstring :=
  match v with
  | VUndefined => js "undefined"
  | VNull => js "null"
  | VBoolean b => if b then js "true" else js "false"
  | VNumber n => numberToString n
  | VString s => s
  | VObject => js "[object Object]"
  end.

(** Stable sort by a comparator ([Array.prototype.sort] is stable):
    [cmp a b > 0] puts [b] before [a]. *)
Section Sort.
Context {A : Type} (cmp : A -> A -> Q).

Fixpoint insertSorted (x : A) (l : list A) : list A :=
  match l with
  | [] => [x]
  | y :: r =>
    if Qle_bool (cmp x y) 0 then x :: l
    else y :: insertSorted x r
  end.

Definition sort (l : list A) : list A := fold_right insertSorted [] l.
End Sort.

(** [[...new Set(l)]]: the distinct elements in order of first occurrence. *)
Fixpoint distinctBy {A} (eqb : A -> A -> bool) (l : list A) : list A :=
  match l with
  | [] => []
  | x :: r => x :: filter (fun y => negb (eqb x y)) (distinctBy eqb r)
  end.

(** Code-unit order, the default order of [Array.prototype.sort] on strings. *)
Fixpoint str_compare (a b : jsstring) : comparison :=
  match a, b with
  | [], [] => Eq
  | [], _ :: _ => Lt
  | _ :: _, [] => Gt
  | c :: a', d :: b' =>
    match (c ?= d)%N with
    | Eq => str_compare a' b'
    | o => o
    end
  end.

Definition defaultCompare (a b : jsstring) : Q :=
  match str_compare a b with
  | Lt => (-1)%Q
  | Eq => 0%Q
  | Gt => 1%Q
  end.

(** [a.slice(0, k)] for an integer [k]: a negative [k] counts from the end. *)
Definition sliceTo {A} (k : Z) (l : list A) : list A :=
  if (k <? 0)%Z then firstn (Z.to_nat (Z.max (Z.of_nat (List.length l) + k) 0)) l
  else firstn (Z.to_nat k) l.

End JS.

Import JS.
Notation "x <- c ;; k" := (bind c (fun x => k))
  (at level 61, c at next level, right associativity).

(** ** src/xbrl-parser.js *)

Module XbrlParser.

(** [parseFactValue(text)] *)
Definition isNegativeGlyph (c : codeunit) : bool :=
  ((c =? 9651) || (c =? 9650) || (c =? 65293))%N.

Definition parseFactValue (text : jsvalue) : completion (option number) :=
  if negb (truthy text) || negb (isString text) then Return None
  else
    t <- asString text ;;
    let cleaned :=
      removeAll (fun c => (c =? 12288)%N)
        (removeAll isWhiteSpace
          (removeAll (fun c => (c =? 44)%N) (trim t))) in
    let isNegative :=
      includes cleaned (js "△") || includes cleaned (js "▲")
      || includes cleaned (js "－") || startsWith cleaned (js "-") in
    let cleaned' := removeAll (fun c => isNegativeGlyph c || (c =? 45)%N) cleaned in
    let num := parseFloat cleaned' in
    if isNaN num then Return None
    else Return (Some (if isNegative then neg num else num)).

(** The categories [classifyFact] returns, and their text. *)
Inductive Category :=
| Revenue | CurrentAssets | NonCurrentAssets | TotalAssets | Assets
| CurrentLiabilities | NonCurrentLiabilities | TotalLiabilities | Liabilities
| Equity | OperatingIncome | GrossProfit | NetIncomeProfit
| OperatingExpenses | CostOfSales | Expenses
| CashFlowOperating | CashFlowInvesting | CashFlowFinancing | CashAndEquivalents
| Inventory | Receivables | Payables | DepreciationAmortization | Other.

Definition categoryName (c : Category) : jsstring :=
  match c with
  | Revenue => js "Revenue"
  | CurrentAssets => js "Current Assets"
  | NonCurrentAssets => js "Non-current Assets"
  | TotalAssets => js "Total Assets"
  | Assets => js "Assets"
  | CurrentLiabilities => js "Current Liabilities"
  | NonCurrentLiabilities => js "Non-current Liabilities"
  | TotalLiabilities => js "Total Liabilities"
  | Liabilities => js "Liabilities"
  | Equity => js "Equity"
  | OperatingIncome => js "Operating Income"
  | GrossProfit => js "Gross Profit"
  | NetIncomeProfit => js "Net Income/Profit"
  | OperatingExpenses => js "Operating Expenses"
  | CostOfSales => js "Cost of Sales"
  | Expenses => js "Expenses"
  | CashFlowOperating => js "Cash Flow - Operating"
  | CashFlowInvesting => js "Cash Flow - Investing"
  | CashFlowFinancing => js "Cash Flow - Financing"
  | CashAndEquivalents => js "Cash & Equivalents"
  | Inventory => js "Inventory"
  | Receivables => js "Receivables"
  | Payables => js "Payables"
  | DepreciationAmortization => js "Depreciation/Amortization"
  | Other => js "Other"
  end.

Definition Category_eqb (a b : Category) : bool :=
  str_eqb (categoryName a) (categoryName b).

Section Classify.
Context `{Host}.
Local Open Scope string_scope.

(** [classifyFact(concept, taxonomy = 'unknown')]; [has k] is
    [conceptLower.includes(k)]. *)
Definition classifyFact (concept : jsstring) (taxonomy : jsvalue) : Category :=
  let taxonomy := match taxonomy with VUndefined => VString (js "unknown") | t => t end in
  let conceptLower := toLowerCase concept in
  let has (k : string) := includes conceptLower (js k) in
  if has "expense" || has "cost" || has "비용" || has "원가"
     || has "費用" || has "経費" || has "販売費" then
    if has "operating" || has "영업" || has "営業" then OperatingExpenses
    else if has "costofsales" || has "costofrevenue" || has "매출원가" || has "売上原価"
    then CostOfSales
    else Expenses
  else if has "revenue" || has "sales" || has "netrevenue" || has "netsales"
     || has "매출" || has "수익" || has "売上" || has "営業収益" || has "収益" then
    Revenue
  else if has "asset" || has "자산" || has "資産" then
    if has "current" || has "유동" || has "流動" then CurrentAssets
    else if has "noncurrent" || has "non-current" || has "비유동" || has "固定"
    then NonCurrentAssets
    else if has "total" || has "합계" || has "総" then TotalAssets
    else Assets
  else if has "liabilit" || has "부채" || has "負債" then
    if has "current" || has "유동" || has "流動" then CurrentLiabilities
    else if has "noncurrent" || has "non-current" || has "비유동" || has "固定"
    then NonCurrentLiabilities
    else if has "total" || has "합계" || has "総" then TotalLiabilities
    else Liabilities
  else if has "equity" || has "자본" || has "資本" || has "netassets"
     || has "stockholdersequity" || has "純資産" then
    Equity
  else if has "income" || has "profit" || has "당기순이익" || has "이익"
     || has "利益" || has "所得" || has "netincome" || has "netprofit"
     || has "当期純利益" || has "税引前利益" then
    if has "operating" || has "영업" || has "営業" then OperatingIncome
    else if has "gross" || has "매출총" || has "売上総" then GrossProfit
    else NetIncomeProfit
  else if has "cash" || has "현금" || has "現金" then
    if has "operating" || has "영업활동" || has "営業活動" then CashFlowOperating
    else if has "investing" || has "투자활동" || has "投資活動" then CashFlowInvesting
    else if has "financing" || has "재무활동" || has "財務活動" then CashFlowFinancing
    else CashAndEquivalents
  else if has "inventor" || has "재고" || has "棚卸" then Inventory
  else if has "receivable" || has "매출채권" || has "売掛金" || has "受取" then Receivables
  else if has "payable" || has "매입채무" || has "買掛金" then Payables
  else if has "depreciation" || has "amortization" || has "감가상각" || has "償却"
  then DepreciationAmortization
  else Other.
End Classify.

(** The fact record, for the facts with a text concept and an amount that is
    a finite number or null ([None]); the facts whose amount is NaN or an
    infinity, or whose concept is no text, are those of [RawFacts] below. A
    period field or a whole period may be missing ([None]); [dimensions]
    lists the axis/member pairs in the order [Object.keys] gives them,
    [None] when the fact has no mapping at all. *)
Record Period := {
  instant : option jsstring;
  startDate : option jsstring;
  endDate : option jsstring
}.

Definition Dimensions := list (jsstring * jsvalue).

Record Fact := {
  namespace : option jsstring;
  concept : jsstring;
  accountName : option jsstring;
  value : option Q;
  contextRef : option jsstring;
  unitRef : option jsstring;
  unit : option jsstring;
  decimals : option jsstring;
  scale : option jsstring;
  period : option Period;
  dimensions : option Dimensions
}.

(** The criteria object of [filterFacts]; [None] is a key that is not there. *)
Record ValueRange := { min : option Q; max : option Q }.

Record Criteria := {
  c_concept : option jsstring;
  c_valueRange : option ValueRange;
  c_period : option jsstring;
  c_hasValue : option bool;
  c_hasDimensions : option bool
}.

Definition noCriteria : Criteria :=
  {| c_concept := None; c_valueRange := None; c_period := None;
     c_hasValue := None; c_hasDimensions := None |}.

(** [a || b] on optional strings: the first that is there and not empty. *)
Definition orElse (a b : option jsstring) : option jsstring :=
  match a with
  | Some (_ :: _) => a
  | _ => b
  end.

Definition truthyString (s : option jsstring) : bool :=
  match s with Some (_ :: _) => true | _ => false end.

Definition truthyFlag (b : option bool) : bool :=
  match b with Some true => true | _ => false end.

Definition isNull {A} (o : option A) : bool :=
  match o with None => true | Some _ => false end.

Section Filter.
Context `{Host}.

(** The callback of [facts.filter(...)] in [filterFacts]. *)
Definition keepFact (criteria : Criteria) (fact : Fact) : bool :=
  if truthyString (c_concept criteria)
     && negb (includes (toLowerCase (concept fact))
                (toLowerCase (match c_concept criteria with Some k => k | None => [] end)))
  then false
  else if truthyFlag (c_hasValue criteria) && isNull (value fact) then false
  else if
    match c_valueRange criteria with
    | Some valueRange =>
      match value fact with
      | None => true
      | Some v =>
        match min valueRange with
        | Some lo => Qlt_bool v lo
        | None => false
        end
        || match max valueRange with
           | Some hi => Qlt_bool hi v
           | None => false
           end
      end
    | None => false
    end
  then false
  else if
    truthyString (c_period criteria)
    && (let factPeriod :=
          match orElse (match period fact with Some p => endDate p | None => None end)
                  (match period fact with Some p => instant p | None => None end) with
          | Some s => s
          | None => []
          end in
        negb (includes factPeriod
                (match c_period criteria with Some p => p | None => [] end)))
  then false
  else if
    truthyFlag (c_hasDimensions criteria)
    && match dimensions fact with
       | None => true
       | Some d => (List.length d =? 0)%nat
       end
  then false
  else true.

Definition filterFacts (facts : list Fact) (criteria : Criteria) : list Fact :=
  filter (keepFact criteria) facts.

(** The same call on arrays held in a store: [Array.prototype.filter]
    allocates its result and writes to no other array. *)
Definition store := list (list Fact).

Definition filterFactsIn (h : store) (facts : nat) (criteria : Criteria) : store * nat :=
  (h ++ [filterFacts (nth facts h []) criteria], List.length h).
End Filter.

End XbrlParser.

(** ** src/fact-table-builder.js *)

Module FactTableBuilder.
Import XbrlParser.

Definition isCapital (c : codeunit) : bool := ((65 <=? c) && (c <=? 90))%N.

(** [s.replace(/Member$/, '')] *)
Definition stripMemberSuffix (s : jsstring) : jsstring :=
  if endsWith s (js "Member") then firstn (List.length s - 6) s else s.

(** [s.replace(/([A-Z])/g, ' $1')] *)
Definition spaceBeforeCapitals (s : jsstring) : jsstring :=
  flat_map (fun c => if isCapital c then [32%N; c] else [c]) s.

(** [cleanDimensionValue(value)] *)
Definition cleanDimensionValue (v : jsvalue) : jsvalue :=
  if negb (truthy v) || negb (isString v) then v
  else
    match v with
    | VString s =>
      VString (trim (spaceBeforeCapitals (stripMemberSuffix (pop (split 58%N s)))))
    | _ => v
    end.

(** The loop shared by the three extractors: the first key of
    [Object.keys(dimensions)] that includes one of the keywords. *)
Definition firstMatching (keys : list jsstring) (dimensions : option Dimensions) : jsvalue :=
  match dimensions with
  | None => VNull
  | Some d =>
    match find (fun kv => existsb (fun k => includes (fst kv) k) keys) d with
    | Some kv => cleanDimensionValue (snd kv)
    | None => VNull
    end
  end.

Definition geoKeys : list jsstring :=
  map js ["GeographicalAreasMember"; "CountriesMember"; "RegionsMember";
          "StatementGeographicalAxis"; "GeographicArea"; "地域"; "Region";
          "지역"; "Area"]%string.

Definition segmentKeys : list jsstring :=
  map js ["SegmentsMember"; "BusinessSegmentsMember"; "OperatingSegmentsMember";
          "StatementBusinessSegmentsAxis"; "Segment"; "セグメント";
          "BusinessSegment"; "사업부문"; "부문"]%string.

Definition productKeys : list jsstring :=
  map js ["ProductsAndServicesMember"; "ProductMember"; "SubsegmentsAxis";
          "Product"; "製品"; "商品"; "제품"; "상품"]%string.

Definition extractGeographyFromDimensions := firstMatching geoKeys.
Definition extractSegmentFromDimensions := firstMatching segmentKeys.
Definition extractProductFromDimensions := firstMatching productKeys.

Definition notNull (v : jsvalue) : bool :=
  match v with VNull => false | _ => true end.

Definition hasGeographyDimension (d : option Dimensions) : bool :=
  notNull (extractGeographyFromDimensions d).
Definition hasSegmentDimension (d : option Dimensions) : bool :=
  notNull (extractSegmentFromDimensions d).
Definition hasProductDimension (d : option Dimensions) : bool :=
  notNull (extractProductFromDimensions d).

Inductive PeriodType := instant_ | duration.

(** A row of the fact table made from a [Fact]; [RawFacts.RawRow] below is
    the row made from any fact. [deviationPercent] is the number the source
    prints with two decimals and a percent sign, [None] for "N/A". *)
Record EnrichedFact := {
  rowNumber : nat;
  e_concept : jsstring;
  e_accountName : option jsstring;
  e_namespace : jsstring;
  e_value : Q;
  exactMatch : bool;
  deviationFromTarget : Q;
  deviationPercent : option Q;
  periodType : PeriodType;
  periodStart : option jsstring;
  periodEnd : option jsstring;
  e_dimensions : Dimensions;
  dimensionCount : nat;
  geography : jsvalue;
  segment : jsvalue;
  product : jsvalue;
  hasGeographicDimension : bool;
  hasSegmentDimension_ : bool;
  hasProductDimension_ : bool;
  businessClassification : Category;
  e_contextRef : option jsstring;
  e_unitRef : option jsstring;
  e_decimals : option jsstring;
  e_scale : option jsstring
}.

Record BreakdownEntry := { count : nat; totalValue : Q; avgValue : Q }.

(** An object used as a map, as the list of its entries in insertion order
    (the engine lists keys that look like array indices first; a label that
    names a property of [Object.prototype] is outside the model). *)
Definition Breakdown := list (jsstring * BreakdownEntry).

Record ValueStats := { vs_min : Q; vs_max : Q; average : Q }.

Record SummaryData := {
  totalFacts : nat;
  exactMatches : nat;
  conceptTypes : list jsstring;
  uniqueConcepts : nat;
  factsWithGeography : nat;
  factsWithSegments : nat;
  factsWithProducts : nat;
  factsWithDimensions : nat;
  valueRange : ValueStats;
  businessTypes : list (Category * nat);
  periodTypes : list PeriodType;
  geographicBreakdown : Breakdown;
  segmentBreakdown : Breakdown;
  closestMatch : EnrichedFact
}.

(** Either the summary of an empty result ([totalFacts: 0], perhaps
    [exactMatches: 0], and a message) or the full one. *)
Inductive Summary :=
| EmptySummary (exactMatches0 : bool) (message : jsstring)
| FullSummary (s : SummaryData).

Record SearchRange := { sr_min : Q; sr_max : Q }.

Record FactTableResult := {
  r_targetValue : Q;
  r_tolerance : Q;
  searchRange : SearchRange;
  table : list EnrichedFact;
  summary : Summary;
  totalFactsFound : option nat;
  totalFactsReturned : option nat
}.

Record TableOptions := {
  maxRows : option Z;
  sortBy : option jsstring;
  filters : option Criteria
}.

(** The parameters that steps 2 to 6 read; [companyId] and [documentId] only
    select the filing in step 1. *)
Record Params := {
  country : jsstring;
  targetValue : Q;
  tolerance : option Q;
  options : option TableOptions
}.

Definition sumQ (l : list Q) : Q := fold_left Qplus l 0.

(** [Math.min(...values)], [Math.max(...values)] on a non-empty list. *)
Definition minQ (l : list Q) : Q :=
  match l with
  | [] => 0
  | x :: r => fold_left (fun m v => if Qlt_bool v m then v else m) r x
  end.
Definition maxQ (l : list Q) : Q :=
  match l with
  | [] => 0
  | x :: r => fold_left (fun m v => if Qlt_bool m v then v else m) r x
  end.

Definition countIf {A} (p : A -> bool) (l : list A) : nat := List.length (filter p l).

Section Builder.
Context `{Host}.

(** The first loop of [getGeographicBreakdown] / [getSegmentBreakdown]:
    one step per fact whose label is truthy. The totals and, in
    [breakdownBy], the averages are exact sums and quotients. *)
Fixpoint bump (k : jsstring) (v : Q) (b : Breakdown) : Breakdown :=
  match b with
  | [] => [(k, {| count := 1; totalValue := 0 + v; avgValue := 0 |})]
  | (k', e) :: r =>
    if str_eqb k' k
    then (k', {| count := S (count e); totalValue := totalValue e + v;
                 avgValue := avgValue e |}) :: r
    else (k', e) :: bump k v r
  end.

Definition breakdownBy (label : EnrichedFact -> jsvalue) (facts : list EnrichedFact)
  : Breakdown :=
  let counted :=
    fold_left (fun b fact =>
                 if truthy (label fact)
                 then bump (toPropertyKey (label fact)) (e_value fact) b
                 else b) facts [] in
  map (fun ke =>
         (fst ke, {| count := count (snd ke);
                     totalValue := totalValue (snd ke);
                     avgValue := totalValue (snd ke) / inject_Z (Z.of_nat (count (snd ke))) |}))
      counted.

Definition getGeographicBreakdown := breakdownBy geography.
Definition getSegmentBreakdown := breakdownBy segment.

(** [acc[type] = (acc[type] || 0) + 1] *)
Fixpoint tally (c : Category) (acc : list (Category * nat)) : list (Category * nat) :=
  match acc with
  | [] => [(c, 1%nat)]
  | (c', n) :: r =>
    if Category_eqb c' c then (c', S n) :: r else (c', n) :: tally c r
  end.

Definition PeriodType_eqb (a b : PeriodType) : bool :=
  match a, b with
  | instant_, instant_ | duration, duration => true
  | _, _ => false
  end.

(** [generateFactTableSummary(facts, targetValue, tolerance, currencySymbol)] *)
Definition generateFactTableSummary (facts : list EnrichedFact) : Summary :=
  match facts with
  | [] => EmptySummary true (js "No facts found")
  | first :: _ =>
    let values := map e_value facts in
    FullSummary {|
      totalFacts := List.length facts;
      exactMatches := countIf exactMatch facts;
      conceptTypes := distinctBy str_eqb (map e_concept facts);
      uniqueConcepts := List.length (distinctBy str_eqb (map e_concept facts));
      factsWithGeography := countIf hasGeographicDimension facts;
      factsWithSegments := countIf hasSegmentDimension_ facts;
      factsWithProducts := countIf hasProductDimension_ facts;
      factsWithDimensions := countIf (fun f => (0 <? dimensionCount f)%nat) facts;
      valueRange := {| vs_min := minQ values; vs_max := maxQ values;
                       average := sumQ values / inject_Z (Z.of_nat (List.length values)) |};
      businessTypes := fold_left (fun acc fact => tally (businessClassification fact) acc) facts [];
      periodTypes := distinctBy PeriodType_eqb (map periodType facts);
      geographicBreakdown := getGeographicBreakdown facts;
      segmentBreakdown := getSegmentBreakdown facts;
      closestMatch :=
        fold_left (fun closest fact =>
                     if Qlt_bool (Qabs (deviationFromTarget fact))
                                 (Qabs (deviationFromTarget closest))
                     then fact else closest) facts first
    |}
  end.

(** [sortFacts(facts, sortBy)]; the array is sorted in place, the model
    returns its new content. *)
Definition sortFacts (facts : list EnrichedFact) (sortBy : jsstring) : list EnrichedFact :=
  if str_eqb sortBy (js "deviation") then
    JS.sort (fun a b => Qabs (deviationFromTarget a) - Qabs (deviationFromTarget b)) facts
  else if str_eqb sortBy (js "value") then
    JS.sort (fun a b => e_value b - e_value a) facts
  else if str_eqb sortBy (js "concept") then
    JS.sort (fun a b => inject_Z (localeCompare (e_concept a) (e_concept b))) facts
  else facts.

(** [{ ...base, ...over }] on criteria objects. *)
Definition spread (base over : Criteria) : Criteria :=
  let pick {A} (b o : option A) := match o with Some _ => o | None => b end in
  {| c_concept := pick (c_concept base) (c_concept over);
     c_valueRange := pick (c_valueRange base) (c_valueRange over);
     c_period := pick (c_period base) (c_period over);
     c_hasValue := pick (c_hasValue base) (c_hasValue over);
     c_hasDimensions := pick (c_hasDimensions base) (c_hasDimensions over) |}.

Definition orDefault {A} (o : option A) (d : A) : A :=
  match o with Some a => a | None => d end.

(** Step 3 of [buildFactTable]: the row made from the fact at [index]. A null
    amount reads as 0 in arithmetic; the value range of the search criteria
    lets no null amount through. *)
Definition enrich (country : jsstring) (targetValue : Q) (index : nat) (fact : Fact)
  : EnrichedFact :=
  let v := orDefault (value fact) 0 in
  let deviation := v - targetValue in
  let inst := match period fact with Some p => instant p | None => None end in
  let endD := match period fact with Some p => endDate p | None => None end in
  {| rowNumber := index + 1;
     e_concept := concept fact;
     e_accountName := orElse (accountName fact) None;
     e_namespace := orDefault (orElse (namespace fact) None) (js "unknown");
     e_value := v;
     exactMatch := Qlt_bool (Qabs deviation) 1000;
     deviationFromTarget := deviation;
     deviationPercent :=
       if Qeq_bool targetValue 0 then None
       else Some (toFixed 2 (deviation / targetValue * 100));
     periodType := if truthyString inst then instant_ else duration;
     periodStart := match period fact with Some p => startDate p | None => None end;
     periodEnd := orElse endD inst;
     e_dimensions := orDefault (dimensions fact) [];
     dimensionCount := List.length (orDefault (dimensions fact) []);
     geography := extractGeographyFromDimensions (dimensions fact);
     segment := extractSegmentFromDimensions (dimensions fact);
     product := extractProductFromDimensions (dimensions fact);
     hasGeographicDimension := hasGeographyDimension (dimensions fact);
     hasSegmentDimension_ := hasSegmentDimension (dimensions fact);
     hasProductDimension_ := hasProductDimension (dimensions fact);
     businessClassification :=
       classifyFact (concept fact)
         (VString (if str_eqb country (js "JP") then js "J-GAAP" else js "K-GAAP"));
     e_contextRef := contextRef fact;
     e_unitRef := orElse (unitRef fact) (unit fact);
     e_decimals := decimals fact;
     e_scale := scale fact |}.

Fixpoint mapi {A B} (f : nat -> A -> B) (i : nat) (l : list A) : list B :=
  match l with
  | [] => []
  | x :: r => f i x :: mapi f (S i) r
  end.

(** [const { tolerance = 50000000, options = {} } = params] and
    [tableOptions = { ...defaultOptions, ...options }]. *)
Definition toleranceOf (params : Params) : Q := orDefault (tolerance params) 50000000.

Definition maxRowsOf (params : Params) : Z :=
  orDefault (match options params with Some o => maxRows o | None => None end) 25%Z.

Definition sortByOf (params : Params) : jsstring :=
  orDefault (match options params with Some o => sortBy o | None => None end)
            (js "deviation").

Definition filtersOf (params : Params) : Criteria :=
  orDefault (match options params with Some o => filters o | None => None end)
            noCriteria.

(** Step 2: [{ valueRange: {min, max}, hasValue: true, ...tableOptions.filters }]
    and the facts it keeps. *)
Definition searchCriteria (params : Params) : Criteria :=
  spread {| c_concept := None;
            c_valueRange :=
              Some {| min := Some (targetValue params - toleranceOf params);
                      max := Some (targetValue params + toleranceOf params) |};
            c_period := None;
            c_hasValue := Some true;
            c_hasDimensions := None |}
         (filtersOf params).

Definition matchingFacts (xbrlFacts : list Fact) (params : Params) : list Fact :=
  filterFacts xbrlFacts (searchCriteria params).

(** Steps 3 and 4: the rows, sorted. *)
Definition enrichedFacts (xbrlFacts : list Fact) (params : Params) : list EnrichedFact :=
  sortFacts (mapi (enrich (country params) (targetValue params)) 0
               (matchingFacts xbrlFacts params))
            (sortByOf params).

(** Steps 2 to 6 of [buildFactTable(params)], on the facts [xbrlData.facts]
    that step 1 has retrieved for the filing. *)
Definition buildFactTable (xbrlFacts : list Fact) (params : Params) : FactTableResult :=
  let range := {| sr_min := targetValue params - toleranceOf params;
                  sr_max := targetValue params + toleranceOf params |} in
  match matchingFacts xbrlFacts params with
  | [] =>
    {| r_targetValue := targetValue params; r_tolerance := toleranceOf params;
       searchRange := range;
       table := [];
       summary := EmptySummary false (js "No facts found in the specified value range");
       totalFactsFound := None; totalFactsReturned := None |}
  | _ :: _ =>
    let limitedFacts := sliceTo (maxRowsOf params) (enrichedFacts xbrlFacts params) in
    {| r_targetValue := targetValue params; r_tolerance := toleranceOf params;
       searchRange := range;
       table := limitedFacts;
       summary := generateFactTableSummary (enrichedFacts xbrlFacts params);
       totalFactsFound := Some (List.length (enrichedFacts xbrlFacts params));
       totalFactsReturned := Some (List.length limitedFacts) |}
  end.
End Builder.

End FactTableBuilder.

(** ** src/time-series-analyzer.js *)

Module TimeSeriesAnalyzer.
Import FactTableBuilder.

(** A row of the time-series table, with the fields the analyses read. *)
Record TimeSeriesRow := {
  period : jsstring;
  concept : jsstring;
  value : Q;
  geography : jsstring;
  segment : jsstring
}.

Record GrowthRate := {
  from : jsstring;
  to : jsstring;
  gr_geography : jsstring;
  priorValue : Q;
  currentValue : Q;
  absoluteChange : Q;
  growthRate : Q
}.

(** [averageGrowthRate] is the number the source prints with two decimals and
    a percent sign, from the exact mean, [None] for "N/A". *)
Record GrowthSummary := {
  totalComparisons : nat;
  averageGrowthRate : option Q;
  highestGrowth : option GrowthRate;
  lowestGrowth : option GrowthRate
}.

Record GrowthAnalysis := { rates : list GrowthRate; gr_summary : GrowthSummary }.

Inductive Direction := increasing | decreasing | stable | insufficient_data.

Record PeriodTotal := { pt_period : jsstring; total : Q }.

(** [overallChangePercent] is the number the source prints with two decimals
    and a percent sign. *)
Record TrendDetail := {
  overallChange : Q;
  overallChangePercent : Q;
  periodTotals : list PeriodTotal;
  firstPeriod : PeriodTotal;
  lastPeriod : PeriodTotal
}.

Record Trends := { direction : Direction; detail : option TrendDetail }.

(** [rows.filter(t => t.period === p)] *)
Definition inPeriod (timeSeries : list TimeSeriesRow) (p : jsstring) : list TimeSeriesRow :=
  filter (fun t => str_eqb (period t) p) timeSeries.

(** [rows.filter(d => d.geography === geo).reduce((sum, d) => sum + d.value, 0)] *)
Definition geographyTotal (rows : list TimeSeriesRow) (geo : jsstring) : Q :=
  sumQ (map value (filter (fun d => str_eqb (geography d) geo) rows)).

(** The pairs [(a[i], a[i + 1])] for [i] from 0 to [a.length - 2]. *)
Fixpoint adjacent {A} (a : list A) : list (A * A) :=
  match a with
  | x :: r =>
    match r with
    | y :: _ => (x, y) :: adjacent r
    | [] => []
    end
  | [] => []
  end.

(** The body of the loop of [calculateGrowthRates] for one [i]. The sums,
    the quotient and its rounding to two decimals are exact. *)
Definition pairGrowthRates (timeSeries : list TimeSeriesRow)
    (currentPeriod priorPeriod : jsstring) : list GrowthRate :=
  let currentData := inPeriod timeSeries currentPeriod in
  let priorData := inPeriod timeSeries priorPeriod in
  let geographies :=
    distinctBy str_eqb (map geography currentData ++ map geography priorData) in
  flat_map
    (fun geo =>
       let currentValue := geographyTotal currentData geo in
       let priorValue := geographyTotal priorData geo in
       if Qlt_bool 0 priorValue then
         let growthRate := (currentValue - priorValue) / priorValue * 100 in
         [{| from := priorPeriod;
             to := currentPeriod;
             gr_geography := geo;
             priorValue := priorValue;
             currentValue := currentValue;
             absoluteChange := currentValue - priorValue;
             growthRate := toFixed 2 growthRate |}]
       else [])
    geographies.

(** [calculateGrowthRates(timeSeries, periodData, currencySymbol)];
    [periodData] is given by the [period] of each of its records. *)
Definition calculateGrowthRates (timeSeries : list TimeSeriesRow) (periodData : list jsstring)
  : option GrowthAnalysis :=
  let periods := JS.sort defaultCompare periodData in
  if (List.length periods <? 2)%nat then None
  else
    let growthRates :=
      JS.sort (fun a b => Qabs (growthRate b) - Qabs (growthRate a))
        (flat_map (fun cp => pairGrowthRates timeSeries (fst cp) (snd cp))
           (adjacent periods)) in
    Some {| rates := growthRates;
            gr_summary :=
              {| totalComparisons := List.length growthRates;
                 averageGrowthRate :=
                   if (0 <? List.length growthRates)%nat
                   then Some (toFixed 2 (sumQ (map growthRate growthRates)
                                         / inject_Z (Z.of_nat (List.length growthRates))))
                   else None;
                 highestGrowth := hd_error growthRates;
                 lowestGrowth := hd_error (rev growthRates) |} |}.

(** [calculateTrends(timeSeries, currencySymbol)] *)
Definition calculateTrends (timeSeries : list TimeSeriesRow) : Trends :=
  let periods := JS.sort defaultCompare (distinctBy str_eqb (map period timeSeries)) in
  if (List.length periods <? 2)%nat then
    {| direction := insufficient_data; detail := None |}
  else
    let periodTotals :=
      map (fun p => {| pt_period := p;
                       total := sumQ (map value (inPeriod timeSeries p)) |}) periods in
    let nothing := {| pt_period := []; total := 0 |} in
    let first := last periodTotals nothing in
    let last_ := hd nothing periodTotals in
    let firstTotal := total first in
    let lastTotal := total last_ in
    let overallChange := lastTotal - firstTotal in
    let overallChangePercent :=
      if Qlt_bool 0 firstTotal then overallChange / firstTotal * 100 else 0 in
    let direction :=
      if Qlt_bool 5 overallChangePercent then increasing
      else if Qlt_bool overallChangePercent (-5) then decreasing
      else stable in
    {| direction := direction;
       detail := Some {| overallChange := overallChange;
                         overallChangePercent := toFixed 2 overallChangePercent;
                         periodTotals := periodTotals;
                         firstPeriod := first;
                         lastPeriod := last_ |} |}.

End TimeSeriesAnalyzer.

(** ** A host for evaluation

    Lower-casing that touches A..Z only and collation by code units: what
    every engine does on ASCII text. The examples below run on ASCII inputs. *)

Definition asciiHost : Host := {|
  toLowerCase := map (fun c => if ((65 <=? c) && (c <=? 90))%N then (c + 32)%N else c);
  localeCompare := fun a b =>
    match str_compare a b with Lt => (-1)%Z | Eq => 0%Z | Gt => 1%Z end;
  numberToString := fun _ => js "NaN";
  toLowerCase_empty := eq_refl
|}.

(** * Statements

    What the properties below are stated with: the specification's wording
    of each operation, and the fixtures the examples run on. *)

(** ** Concept classifier *)

Module ClassifierSpec.
Import XbrlParser.

(** The keyword families of the precedence rule. *)
Definition expenseKeywords : list jsstring :=
  map js ["cost"; "expense"; "비용"; "원가"; "費用"; "経費"; "販売費"]%string.

Definition revenueKeywords : list jsstring :=
  map js ["revenue"; "sales"; "netrevenue"; "netsales"; "매출"; "수익";
          "売上"; "営業収益"; "収益"]%string.

Definition containsAny (s : jsstring) (keywords : list jsstring) : bool :=
  existsb (includes s) keywords.

Definition isExpenseCategory (c : Category) : bool :=
  match c with
  | OperatingExpenses | CostOfSales | Expenses => true
  | _ => false
  end.

End ClassifierSpec.

(** ** Dimension extractor *)

Module DimensionSpec.
Import XbrlParser FactTableBuilder.

(** The four cleaning steps, each as a relation between the text before and
    after it. *)
Definition StripsNamespace (s t : jsstring) : Prop :=
  (~ In 58%N s /\ t = s) \/ (exists p, s = p ++ 58%N :: t /\ ~ In 58%N t).

Definition StripsMember (s t : jsstring) : Prop :=
  s = t ++ js "Member" \/ ((forall u, s <> u ++ js "Member") /\ t = s).

Inductive SpacesCapitals : jsstring -> jsstring -> Prop :=
| sc_nil : SpacesCapitals [] []
| sc_capital c s t :
    isCapital c = true -> SpacesCapitals s t -> SpacesCapitals (c :: s) (32%N :: c :: t)
| sc_other c s t :
    isCapital c = false -> SpacesCapitals s t -> SpacesCapitals (c :: s) (c :: t).

Definition Trims (s t : jsstring) : Prop :=
  exists a b,
    s = a ++ t ++ b
    /\ Forall (fun c => isWhiteSpace c = true) a
    /\ Forall (fun c => isWhiteSpace c = true) b
    /\ (forall c r, t = c :: r -> isWhiteSpace c = false)
    /\ (forall c r, t = r ++ [c] -> isWhiteSpace c = false).

End DimensionSpec.

(** ** Fact filter *)

Module FilterSpec.
Import XbrlParser.

Section WithHost.
Context `{Host}.

(** The five criteria, each as the specification words it. *)
Definition conceptMatches (c : option jsstring) (fact : Fact) : bool :=
  match c with
  | None => true
  | Some k => includes (toLowerCase (concept fact)) (toLowerCase k)
  end.

Definition withinRange (r : option ValueRange) (fact : Fact) : bool :=
  match r with
  | None => true
  | Some r =>
    match value fact with
    | None => false
    | Some v =>
      match min r with Some lo => Qle_bool lo v | None => true end
      && match max r with Some hi => Qle_bool v hi | None => true end
    end
  end.

Definition effectivePeriod (fact : Fact) : jsstring :=
  match period fact with
  | None => []
  | Some p =>
    match endDate p with
    | Some (c :: e) => c :: e
    | _ => match instant p with Some i => i | None => [] end
    end
  end.

Definition periodMatches (p : option jsstring) (fact : Fact) : bool :=
  match p with
  | None => true
  | Some p => includes (effectivePeriod fact) p
  end.

Definition valuePresent (h : option bool) (fact : Fact) : bool :=
  match h with
  | Some true => match value fact with Some _ => true | None => false end
  | _ => true
  end.

Definition dimensionsPresent (h : option bool) (fact : Fact) : bool :=
  match h with
  | Some true => match dimensions fact with Some (_ :: _) => true | _ => false end
  | _ => true
  end.

Definition satisfies (criteria : Criteria) (fact : Fact) : bool :=
  conceptMatches (c_concept criteria) fact
  && withinRange (c_valueRange criteria) fact
  && periodMatches (c_period criteria) fact
  && valuePresent (c_hasValue criteria) fact
  && dimensionsPresent (c_hasDimensions criteria) fact.

(** A small fixture: facts with a concept and an amount and nothing else. *)
Definition plainFact (c : string) (v : option Q) : Fact :=
  {| namespace := None; concept := js c; accountName := None; value := v;
     contextRef := None; unitRef := None; unit := None; decimals := None;
     scale := None; period := None; dimensions := None |}.

Definition fixture : list Fact :=
  [plainFact "Revenue" (Some 150); plainFact "Revenue" (Some 250);
   plainFact "Assets" (Some 150); plainFact "NetRevenueFromProducts" (Some 100);
   plainFact "OtherRevenue" None].


End WithHost.

End FilterSpec.

(** ** Value parsing *)

Module ParserSpec.
Import XbrlParser.

(** The text after trimming and dropping commas and white space. *)
Definition separatorsRemoved (s : jsstring) : jsstring :=
  removeAll (fun c => (c =? 12288)%N)
    (removeAll isWhiteSpace (removeAll (fun c => (c =? 44)%N) (trim s))).

(** The cleaned text: the negative glyphs and ASCII minus dropped as well. *)
Definition cleanedText (s : jsstring) : jsstring :=
  removeAll (fun c => isNegativeGlyph c || (c =? 45)%N) (separatorsRemoved s).

(** The sign test of the source, on the text without separators. *)
Definition markedNegative (s : jsstring) : bool :=
  includes (separatorsRemoved s) (js "△") || includes (separatorsRemoved s) (js "▲")
  || includes (separatorsRemoved s) (js "－") || startsWith (separatorsRemoved s) (js "-").

(** A negative glyph occurs in the text, or the text starts with ASCII minus. *)
Definition writtenNegative (s : jsstring) : bool :=
  existsb isNegativeGlyph s || startsWith s (js "-").

Definition afterSign (t : jsstring) : jsstring :=
  match t with
  | c :: r => if ((c =? 43) || (c =? 45))%N then r else t
  | [] => t
  end.

(** A valid number: the whole text is one decimal literal, an optional sign
    then "Infinity" or digits with an optional fraction and exponent. *)
Definition isExponent (r : jsstring) : bool :=
  match r with
  | c :: r' =>
    ((c =? 101) || (c =? 69))%N
    && (let ds := afterSign r' in
        match ds with
        | [] => false
        | _ => forallb isDigit ds
        end)
  | [] => false
  end.

Definition isValidNumber (t : jsstring) : bool :=
  let u := afterSign t in
  str_eqb u (js "Infinity")
  || (let ip := takeWhile isDigit u in
      let r1 := dropWhile isDigit u in
      let fp := match r1 with
                | c :: r => if (c =? 46)%N then takeWhile isDigit r else []
                | [] => []
                end in
      let r2 := match r1 with
                | c :: r => if (c =? 46)%N then dropWhile isDigit r else r1
                | [] => r1
                end in
      negb (match ip, fp with [], [] => true | _, _ => false end)
      && (match r2 with [] => true | _ => isExponent r2 end)).

(** The text begins with a decimal numeral: after an optional sign comes
    "Infinity", a digit, or a point and a digit. *)
Definition beginsWithNumeral (t : jsstring) : bool :=
  let u := afterSign t in
  startsWith u (js "Infinity")
  || match u with
     | c :: r =>
       isDigit c
       || ((c =? 46)%N && match r with d :: _ => isDigit d | [] => false end)
     | [] => false
     end.

(** The claim as it is worded for the texts that are not valid numbers. *)
Definition nullWhenNotValid (s : jsstring) : Prop :=
  isValidNumber (cleanedText s) = false -> parseFactValue (VString s) = Return None.

(** The decimal digits of [n], most significant first; [fuel] bounds their
    number. *)
Fixpoint digitsOfFuel (fuel : nat) (n : N) : jsstring :=
  match fuel with
  | O => []
  | S f =>
    if (n / 10 =? 0)%N then [(48 + n mod 10)%N]
    else digitsOfFuel f (n / 10) ++ [(48 + n mod 10)%N]
  end.

Definition digitsOf (n : N) : jsstring := digitsOfFuel (S (N.to_nat (N.size n))) n.

(** Comma insertion: a comma after every third digit, counted from the
    right; the argument lists the digits least significant first. *)
Fixpoint groupThousands (l : jsstring) : jsstring :=
  match l with
  | a :: b :: c :: rest =>
    match rest with
    | [] => l
    | _ :: _ => a :: b :: c :: 44%N :: groupThousands rest
    end
  | _ => l
  end.

Definition formatWithCommas (n : N) : jsstring :=
  rev (groupThousands (rev (digitsOf n))).

(** The round trip as the specification words it for one integer: the
    comma-grouped rendering parses to [n], and the digits after a triangle or
    after a minus parse to [-n]. *)
Definition roundTrip (n : N) : Prop :=
  parseFactValue (VString (formatWithCommas n))
  = Return (Some (Finite (inject_Z (Z.of_N n))))
  /\ parseFactValue (VString (js "△" ++ digitsOf n))
     = Return (Some (Finite (inject_Z (- Z.of_N n))))
  /\ parseFactValue (VString (js "-" ++ digitsOf n))
     = Return (Some (Finite (inject_Z (- Z.of_N n)))).

End ParserSpec.

(** ** Time-series analyzer *)

Module TimeSeriesSpec.
Import TimeSeriesAnalyzer.

Definition revenueRow (p : string) (v : Q) (g : string) : TimeSeriesRow :=
  {| period := js p; concept := js "Revenue"; value := v;
     geography := js g; segment := js "Total" |}.

(** Revenue that doubles from 2022 to 2023. *)
Definition doubling : list TimeSeriesRow :=
  [revenueRow "2023-12-31" 200 "Total"; revenueRow "2022-12-31" 100 "Total"].

(** The direction the specification words: from the percent change of the
    latest total against the earliest. *)
Definition changePercent (earlier later : Q) : Q := (later - earlier) / earlier * 100.

Definition directionOfChange (percent : Q) : Direction :=
  if Qlt_bool 5 percent then increasing
  else if Qlt_bool percent (-5) then decreasing
  else stable.

(** The geography labels some row of one of two periods. *)
Definition present (timeSeries : list TimeSeriesRow) (a b geo : jsstring) : Prop :=
  exists row, In row timeSeries /\ geography row = geo
              /\ (period row = a \/ period row = b).

(** Growth as the specification words it: for two neighbouring periods the
    newer is current, the older is prior, and the rate is the quotient. *)
Definition growthAsWorded (timeSeries : list TimeSeriesRow) (periodData : list jsstring)
  : Prop :=
  forall analysis, calculateGrowthRates timeSeries periodData = Some analysis ->
  forall older newer geo,
    In (older, newer) (adjacent (JS.sort defaultCompare periodData)) ->
    present timeSeries older newer geo ->
    exists e,
      In e (rates analysis) /\ gr_geography e = geo
      /\ from e = older /\ to e = newer
      /\ growthRate e
         == (geographyTotal (inPeriod timeSeries newer) geo
             - geographyTotal (inPeriod timeSeries older) geo)
            / geographyTotal (inPeriod timeSeries older) geo * 100.

(** The exclusion as the specification words it: of two neighbouring periods
    the older one is the prior period, and a geography whose sum in it is 0
    has no entry for the pair. *)
Definition zeroPriorExcluded (timeSeries : list TimeSeriesRow) (periodData : list jsstring)
  : Prop :=
  forall analysis, calculateGrowthRates timeSeries periodData = Some analysis ->
  forall older newer geo,
    In (older, newer) (adjacent (JS.sort defaultCompare periodData)) ->
    geographyTotal (inPeriod timeSeries older) geo == 0 ->
    forall e, In e (rates analysis) -> gr_geography e = geo ->
      ~ ((from e = older /\ to e = newer) \/ (from e = newer /\ to e = older)).

(** Japan is reported in both years; a second region is new in 2023, so its
    sum in the older period, 2022, is 0. *)
Definition newRegion : list TimeSeriesRow :=
  [revenueRow "2023-12-31" 200 "Japan"; revenueRow "2023-12-31" 40 "Asia";
   revenueRow "2022-12-31" 100 "Japan"].


End TimeSeriesSpec.

(** ** Fact table builder *)

Module BuilderSpec.
Import XbrlParser FactTableBuilder.

Section WithHost.
Context `{Host}.

(** Reading a breakdown at a key. *)
Definition breakdownCount (k : jsstring) (b : Breakdown) : nat :=
  match find (fun ke => str_eqb (fst ke) k) b with
  | Some ke => count (snd ke)
  | None => 0
  end.

Definition breakdownTotal (k : jsstring) (b : Breakdown) : Q :=
  match find (fun ke => str_eqb (fst ke) k) b with
  | Some ke => totalValue (snd ke)
  | None => 0
  end.


(** The amount of a fact and its label under an extractor, read off the fact
    before enrichment. *)
Definition amount (fact : Fact) : Q := orDefault (value fact) 0.

Definition factLabelled (extract : option Dimensions -> jsvalue) (k : jsstring)
    (fact : Fact) : bool :=
  truthy (extract (dimensions fact))
  && str_eqb (toPropertyKey (extract (dimensions fact))) k.

(** Three small amounts, a target of 1000 with tolerance 10, and options that
    carry a value range of their own and a negative row limit. *)
Definition smallFacts : list Fact :=
  [FilterSpec.plainFact "Revenue" (Some 1); FilterSpec.plainFact "Assets" (Some 2);
   FilterSpec.plainFact "Cash" (Some 3)].

Definition overridingParams : Params :=
  {| country := js "JP"; targetValue := 1000; tolerance := Some 10;
     options :=
       Some {| maxRows := Some (-1)%Z; sortBy := None;
               filters :=
                 Some {| c_concept := None;
                         c_valueRange := Some {| min := Some 0; max := Some 10 |};
                         c_period := None; c_hasValue := None;
                         c_hasDimensions := None |} |} |}.

(** The filing of the fixture: revenue at the target, assets close to it, and
    cash far from it. *)
Definition filingFacts : list Fact :=
  [FilterSpec.plainFact "Revenue" (Some 1000000);
   FilterSpec.plainFact "Assets" (Some 990000);
   FilterSpec.plainFact "Cash" (Some 500)].

Definition aroundOneMillion : Params :=
  {| country := js "KR"; targetValue := 1000000; tolerance := Some 50000;
     options := None |}.

End WithHost.

End BuilderSpec.

(** ** Fact table: reading the tallies *)

Module TableSpec.
Import XbrlParser FactTableBuilder.

(** The count recorded for a category in [businessTypes], 0 when the
    category is not a key. *)
Definition tallyOf (c : Category) (acc : list (Category * nat)) : nat :=
  match find (fun cn => Category_eqb (fst cn) c) acc with
  | Some cn => snd cn
  | None => 0%nat
  end.

Definition sumCounts {K} (acc : list (K * nat)) : nat :=
  fold_right (fun kn n => (snd kn + n)%nat) 0%nat acc.

(** The counts of all entries of a breakdown, added up. *)
Definition entryCounts (b : Breakdown) : nat :=
  fold_right (fun ke n => (count (snd ke) + n)%nat) 0%nat b.

(** The rows made from the filing of the fixture, before sorting. *)
Definition sampleRows : list EnrichedFact :=
  mapi (@enrich asciiHost (js "KR") 1000000) 0 BuilderSpec.filingFacts.

(** Facts that carry a geographic dimension, and the rows made from them. *)
Definition regionalFact (c : string) (v : Q) (member : string) : Fact :=
  {| namespace := None; concept := js c; accountName := None; value := Some v;
     contextRef := None; unitRef := None; unit := None; decimals := None;
     scale := None; period := None;
     dimensions := Some [(js "GeographicalAreasMember", VString (js member))] |}.

Definition regionalFacts : list Fact :=
  [regionalFact "Revenue" 100 "jppfs:JapanMember";
   regionalFact "Revenue" 90 "jppfs:AsiaMember";
   regionalFact "Assets" 110 "jppfs:JapanMember"].

Definition regionalRows : list EnrichedFact :=
  mapi (@enrich asciiHost (js "JP") 100) 0 regionalFacts.

End TableSpec.

(** ** src/time-series-analyzer.js: the mix by period *)

Module MixAnalyzer.
Import FactTableBuilder TimeSeriesAnalyzer.

(** An entry of [geographicMix] / [segmentMix]. [percentageShown] is the
    number that [percentageFormatted] prints with one decimal and a percent
    sign, [None] for "N/A". *)
Record MixShare := {
  mix_value : Q;
  percentage : Q;
  percentageShown : option Q
}.

(** An object keyed by label, as the list of its entries in insertion order
    (a label that looks like an array index, or names a property of
    [Object.prototype], is outside the model). *)
Definition Mix := list (jsstring * MixShare).

Record PeriodMix := {
  mix_total : Q;
  geographic : option Mix;
  segmentMix : option Mix
}.

Record MixOptions := { includeGeography : bool; includeSegments : bool }.

(** [periodData.filter(d => d.label === l).reduce((sum, d) => sum + d.value, 0)] *)
Definition labelTotal (label : TimeSeriesRow -> jsstring) (periodData : list TimeSeriesRow)
    (l : jsstring) : Q :=
  sumQ (map value (filter (fun d => str_eqb (label d) l) periodData)).

(** The loop over [[...new Set(periodData.map(d => d.label))]]; the share
    is the exact quotient. *)
Definition mixBy (label : TimeSeriesRow -> jsstring) (periodData : list TimeSeriesRow)
    (total : Q) : Mix :=
  map (fun l =>
         let v := labelTotal label periodData l in
         (l, {| mix_value := v;
                percentage := if Qlt_bool 0 total then v / total * 100 else 0;
                percentageShown :=
                  if Qlt_bool 0 total then Some (toFixed 1 (v / total * 100)) else None |}))
      (distinctBy str_eqb (map label periodData)).

(** [analyzeMix(timeSeries, options, currencySymbol)] *)
Definition analyzeMix (timeSeries : list TimeSeriesRow) (options : MixOptions)
  : list (jsstring * PeriodMix) :=
  let periods := JS.sort defaultCompare (distinctBy str_eqb (map period timeSeries)) in
  map (fun p =>
         let periodData := inPeriod timeSeries p in
         let total := sumQ (map value periodData) in
         (p, {| mix_total := total;
                geographic :=
                  if includeGeography options
                  then Some (mixBy geography periodData total) else None;
                segmentMix :=
                  if includeSegments options
                  then Some (mixBy segment periodData total) else None |}))
      periods.

End MixAnalyzer.

(** ** Time series: reading the mix *)

Module MixSpec.
Import FactTableBuilder TimeSeriesAnalyzer MixAnalyzer.



(** Code-unit order on strings, as the default [sort] compares them. *)
Definition str_le (a b : jsstring) : Prop := defaultCompare a b <= 0.

End MixSpec.

(** ** src/fact-table-builder.js: formatCurrency *)

Module Currency.

(** [Math.abs(v)], [v < 0], [v >= c] and [v / c] for a finite positive [c];
    the quotient is exact. *)
Definition abs (v : number) : number :=
  match v with
  | Finite q => Finite (Qabs q)
  | PosInfinity | NegInfinity => PosInfinity
  | NaN => NaN
  end.

Definition isNegative (v : number) : bool :=
  match v with
  | Finite q => Qlt_bool q 0
  | NegInfinity => true
  | PosInfinity | NaN => false
  end.

Definition atLeast (v : number) (c : Q) : bool :=
  match v with
  | Finite q => Qle_bool c q
  | PosInfinity => true
  | NegInfinity | NaN => false
  end.

Definition dividedBy (v : number) (c : Q) : number :=
  match v with
  | Finite q => Finite (q / c)
  | other => other
  end.

(** Zeros in front of [m] until it has [w] code units. *)
Definition padZeros (w : nat) (m : jsstring) : jsstring :=
  repeat 48%N (w - List.length m) ++ m.

(** [x.toFixed(f)], the text: the sign, then for a magnitude from 10^21 on
    the number as the host prints it, and below that the digits of the
    nearest multiple of 10^-f (the larger one of two), with [f] of them
    after the point. *)
Definition toFixedText `{Host} (f : nat) (x : number) : jsstring :=
  match x with
  | NaN => js "NaN"
  | PosInfinity => js "Infinity"
  | NegInfinity => js "-Infinity"
  | Finite q =>
    let s := if Qlt_bool q 0 then [45%N] else [] in
    let a := Qabs q in
    if Qle_bool (inject_Z (10 ^ 21)) a then s ++ numberToString (Finite a)
    else
      let n := Qfloor (a * inject_Z (10 ^ Z.of_nat f) + (1 # 2)) in
      let m := ParserSpec.digitsOf (Z.to_N n) in
      if (f =? 0)%nat then s ++ m
      else
        let m' := padZeros (S f) m in
        let k := List.length m' in
        s ++ firstn (k - f) m' ++ 46%N :: skipn (k - f) m'
  end.

(** [formatCurrency(value, symbol)]; [None] is null or undefined. *)
Definition formatCurrency `{Host} (value : option number) (symbol : jsstring) : jsstring :=
  match value with
  | None => js "N/A"
  | Some v =>
    if isNaN v then js "N/A"
    else
      let absValue := abs v in
      let sign := if isNegative v then js "-" else [] in
      if atLeast absValue 1000000000000 then
        sign ++ symbol ++ toFixedText 2 (dividedBy absValue 1000000000000) ++ js "T"
      else if atLeast absValue 1000000000 then
        sign ++ symbol ++ toFixedText 2 (dividedBy absValue 1000000000) ++ js "B"
      else if atLeast absValue 1000000 then
        sign ++ symbol ++ toFixedText 1 (dividedBy absValue 1000000) ++ js "M"
      else if atLeast absValue 1000 then
        sign ++ symbol ++ toFixedText 1 (dividedBy absValue 1000) ++ js "K"
      else
        sign ++ symbol ++ toFixedText 0 absValue
  end.

End Currency.

(** ** Currency text: statements *)

Module CurrencySpec.
Import Currency.

(** The sign that [formatCurrency] prints for a finite amount. *)
Definition signOf (q : Q) : jsstring := if Qlt_bool q 0 then js "-" else [].

(** The two symbols the callers pass. *)
Definition yen : jsstring := js "¥".
Definition won : jsstring := js "₩".

(** A code unit that the cleaning of [parseFactValue] keeps and that starts
    no numeral. *)
Definition inert (c : codeunit) : bool :=
  negb (isWhiteSpace c) && negb (c =? 44)%N && negb (c =? 12288)%N
  && negb (XbrlParser.isNegativeGlyph c || (c =? 45)%N) && negb (c =? 43)%N
  && negb (isDigit c) && negb (c =? 46)%N && negb (73 =? c)%N.

End CurrencySpec.

(** ** src/xbrl-parser.js: dimension groups and summary statistics *)

Module XbrlStatistics.
Import XbrlParser FactTableBuilder.

(** The idiom [if (!m[k]) m[k] = init; m[k] = step(m[k])] on an object used
    as a map, kept as the list of its entries in insertion order: the sources
    use it with values that are truthy once they are stored (a key that
    looks like an array index, or names a property of [Object.prototype], is
    outside the model). *)
Fixpoint upsert {K V} (eqb : K -> K -> bool) (init : V) (step : V -> V) (k : K)
    (m : list (K * V)) : list (K * V) :=
  match m with
  | [] => [(k, step init)]
  | (k', v) :: r =>
    if eqb k' k then (k', step v) :: r else (k', v) :: upsert eqb init step k r
  end.

(** An entry of [geography], [segments] or [products] in the result of
    [extractDimensions]. *)
Record DimensionStats := {
  dimension : jsstring;
  ds_facts : nat;
  ds_totalValue : Q
}.

Record DimensionAnalysis := {
  da_geography : list DimensionStats;
  da_segments : list DimensionStats;
  da_products : list DimensionStats
}.

(** The three objects that the loop fills: arrays of facts by dimension
    value. *)
Definition Groups := list (jsstring * list Fact).

Record GroupState := {
  g_geography : Groups;
  g_segments : Groups;
  g_products : Groups
}.

(** [if (!g[k]) g[k] = []; g[k].push(fact)] *)
Definition pushTo (k : jsstring) (fact : Fact) (g : Groups) : Groups :=
  upsert str_eqb [] (fun fs => fs ++ [fact]) k g.

Record TypeStats := { ts_count : nat; ts_totalValue : Q }.

Record FactsSummary := {
  s_totalFacts : nat;
  numericFacts : nat;
  textFacts : nat;
  byType : list (Category * TypeStats);
  byNamespace : list (jsstring * nat);
  s_dimensions : DimensionAnalysis
}.

Definition hasNumber (fact : Fact) : bool :=
  match value fact with Some _ => true | None => false end.

Section Statistics.
Context `{Host}.

(** [dimKey.toLowerCase().includes(w1) || dimKey.toLowerCase().includes(w2) || ...] *)
Definition mentions (words : list jsstring) (dimKey : jsstring) : bool :=
  existsb (fun w => includes (toLowerCase dimKey) w) words.

Definition geographyWords : list jsstring :=
  map js ["geography"; "region"; "country"; "지역"]%string.
Definition segmentWords : list jsstring := map js ["segment"; "business"; "부문"]%string.
Definition productWords : list jsstring := map js ["product"; "제품"]%string.

(** The body of the loop over [Object.keys(fact.dimensions)]. *)
Definition visitKey (fact : Fact) (st : GroupState) (kv : jsstring * jsvalue)
  : GroupState :=
  let dimKey := fst kv in
  let dimValue := toPropertyKey (snd kv) in
  {| g_geography :=
       if mentions geographyWords dimKey
       then pushTo dimValue fact (g_geography st) else g_geography st;
     g_segments :=
       if mentions segmentWords dimKey
       then pushTo dimValue fact (g_segments st) else g_segments st;
     g_products :=
       if mentions productWords dimKey
       then pushTo dimValue fact (g_products st) else g_products st |}.

Definition visitFact (st : GroupState) (fact : Fact) : GroupState :=
  match dimensions fact with
  | None => st
  | Some d => fold_left (visitKey fact) d st
  end.

(** [Object.keys(g).map(key => ({dimension: key, facts: g[key].length,
    totalValue: g[key].reduce((sum, f) => sum + (f.value || 0), 0)}))] *)
Definition statsOf (g : Groups) : list DimensionStats :=
  map (fun kf =>
         {| dimension := fst kf;
            ds_facts := List.length (snd kf);
            ds_totalValue :=
              fold_left (fun sum f => sum + orDefault (value f) 0) (snd kf) 0 |})
      g.

(** [extractDimensions(facts)] *)
Definition extractDimensions (facts : list Fact) : DimensionAnalysis :=
  let st := fold_left visitFact facts
              {| g_geography := []; g_segments := []; g_products := [] |} in
  {| da_geography := statsOf (g_geography st);
     da_segments := statsOf (g_segments st);
     da_products := statsOf (g_products st) |}.

(** The first loop of [buildSummary], one fact. *)
Definition countType (acc : list (Category * TypeStats)) (fact : Fact)
  : list (Category * TypeStats) :=
  upsert Category_eqb {| ts_count := 0; ts_totalValue := 0 |}
    (fun e => {| ts_count := S (ts_count e);
                 ts_totalValue :=
                   match value fact with
                   | Some v => ts_totalValue e + v
                   | None => ts_totalValue e
                   end |})
    (classifyFact (concept fact) VUndefined) acc.

(** The key [fact.namespace] of [byNamespace]. *)
Definition namespaceKey (fact : Fact) : jsstring :=
  match namespace fact with
  | Some s => s
  | None => js "undefined"
  end.

(** The second loop, one fact. *)
Definition countNamespace (acc : list (jsstring * nat)) (fact : Fact)
  : list (jsstring * nat) :=
  upsert str_eqb 0%nat S (namespaceKey fact) acc.

(** [buildSummary(facts)] *)
Definition buildSummary (facts : list Fact) : FactsSummary :=
  let numeric := filter hasNumber facts in
  {| s_totalFacts := List.length facts;
     numericFacts := List.length numeric;
     textFacts := List.length facts - List.length numeric;
     byType := fold_left countType facts [];
     byNamespace := fold_left countNamespace facts [];
     s_dimensions := extractDimensions facts |}.
End Statistics.

End XbrlStatistics.

(** ** Statistics: statements *)

Module StatisticsSpec.
Import XbrlParser FactTableBuilder XbrlStatistics.

(** Reading an object used as a map at a key. *)
Definition lookup {K V} (eqb : K -> K -> bool) (k : K) (m : list (K * V)) : option V :=
  option_map snd (find (fun kv => eqb (fst kv) k) m).

(** The value at a key, or the initial value of the idiom when the key is not
    there. *)
Definition valueAt {K V} (eqb : K -> K -> bool) (init : V) (k : K) (m : list (K * V)) : V :=
  match lookup eqb k m with
  | Some v => v
  | None => init
  end.

Section WithHost.
Context `{Host}.

(** Every dimension of every fact whose key mentions one of the words, as
    the pair of the dimension's value (as a key) and the fact, in the order
    of the loop. *)
Definition mentionsOf (words : list jsstring) (facts : list Fact)
  : list (jsstring * Fact) :=
  flat_map (fun fact =>
              match dimensions fact with
              | None => []
              | Some d =>
                flat_map (fun kv =>
                            if mentions words (fst kv)
                            then [(toPropertyKey (snd kv), fact)] else [])
                         d
              end)
           facts.

(** The facts paired with a label. *)
Definition labelledWith (label : jsstring) (pairs : list (jsstring * Fact)) : list Fact :=
  map snd (filter (fun p => str_eqb (fst p) label) pairs).

(** What a list of statistics says about the dimensions that mention the
    words: one entry per label, with the number of pairs of that label and
    the sum of the amounts of their facts, null counted as 0. *)
Definition summarises (words : list jsstring) (facts : list Fact)
    (stats : list DimensionStats) : Prop :=
  NoDup (map dimension stats)
  /\ (forall label,
        In label (map dimension stats) <-> In label (map fst (mentionsOf words facts)))
  /\ (forall e, In e stats ->
        (1 <= ds_facts e)%nat
        /\ ds_facts e = List.length (labelledWith (dimension e) (mentionsOf words facts))
        /\ ds_totalValue e
           == sumQ (map (fun fact => orDefault (value fact) 0)
                        (labelledWith (dimension e) (mentionsOf words facts)))).

(** The facts of a category. *)
Definition ofType (c : Category) (facts : list Fact) : list Fact :=
  filter (fun fact => Category_eqb (classifyFact (concept fact) VUndefined) c) facts.

(** A fact with one dimension, and one with two dimensions that both mention
    a region. *)
Definition dimFact (c : string) (v : option Q) (d : list (string * string)) : Fact :=
  {| namespace := Some (js "jppfs"); concept := js c; accountName := None; value := v;
     contextRef := None; unitRef := None; unit := None; decimals := None;
     scale := None; period := None;
     dimensions := Some (map (fun kv => (js (fst kv), VString (js (snd kv)))) d) |}.

Definition sampleFacts : list Fact :=
  [dimFact "Revenue" (Some 100) [("RegionAxis", "Japan")];
   dimFact "Revenue" (Some 40) [("RegionAxis", "Asia"); ("CountryAxis", "Asia")];
   dimFact "OperatingExpenses" None [("BusinessSegmentAxis", "Retail")];
   FilterSpec.plainFact "Assets" (Some 7)]%string.

End WithHost.

End StatisticsSpec.

(** ** src/xbrl-parser.js: parseXBRLJSON *)

Module DartJson.
Import XbrlParser.

(** A line item of a DART statement, by the properties the parser reads;
    a property that is not there is [VUndefined]. *)
Record LineItem := {
  account_id : jsvalue;
  account_nm : jsvalue;
  thstrm_amount : jsvalue;
  frmtrm_amount : jsvalue;
  bfefrmtrm_amount : jsvalue;
  currency : jsvalue;
  bsns_year : jsvalue;
  reprt_code : jsvalue;
  ord : jsvalue
}.

(** An element of [jsonData.list]: null or undefined, on which reading a
    property throws, or a value whose properties are read. *)
Inductive ListElement :=
| Nullish
| Item (item : LineItem).

Inductive ListField :=
| NotAnArray
| ArrayOf (elements : list ListElement).

(** [jsonData]: null or undefined, or a value with what its [list] holds. *)
Inductive JsonData :=
| NoData
| Data (list_ : ListField).

Record DartFact := {
  d_namespace : jsstring;
  d_concept : jsvalue;
  d_accountName : jsvalue;
  d_accountId : jsvalue;
  d_value : option number;
  d_rawValue : jsvalue;
  d_currency : jsvalue;
  d_year : jsvalue;
  d_reportType : jsvalue;
  currentTerm : option number;
  previousTerm : option number;
  beforePreviousTerm : option number;
  d_ord : jsvalue;
  d_source : jsstring
}.

Record ParsedJson := {
  p_facts : list DartFact;
  total_facts : nat;
  numeric_facts : nat;
  p_source : jsstring
}.

(** [a || b] *)
Definition orValue (a b : jsvalue) : jsvalue := if truthy a then a else b.

Definition isNumeric (fact : DartFact) : bool :=
  match d_value fact with Some _ => true | None => false end.

(** The body of the [forEach] for one item. *)
Definition itemFact (item : LineItem) : completion DartFact :=
  value <- parseFactValue
             (orValue (thstrm_amount item)
                (orValue (frmtrm_amount item) (VString (js "0")))) ;;
  current <- parseFactValue (thstrm_amount item) ;;
  previous <- parseFactValue (frmtrm_amount item) ;;
  beforePrevious <- parseFactValue (bfefrmtrm_amount item) ;;
  Return {| d_namespace := js "k-gaap";
            d_concept := orValue (account_id item) (account_nm item);
            d_accountName := account_nm item;
            d_accountId := account_id item;
            d_value := value;
            d_rawValue := orValue (thstrm_amount item) (frmtrm_amount item);
            d_currency := orValue (currency item) (VString (js "KRW"));
            d_year := bsns_year item;
            d_reportType := reprt_code item;
            currentTerm := current;
            previousTerm := previous;
            beforePreviousTerm := beforePrevious;
            d_ord := ord item;
            d_source := js "DART" |}.

(** [jsonData.list.forEach(item => { ...; facts.push({...}) })] *)
Fixpoint collect (elements : list ListElement) (facts : list DartFact)
  : completion (list DartFact) :=
  match elements with
  | [] => Return facts
  | Nullish :: _ => Throw (js "TypeError")
  | Item item :: rest =>
    fact <- itemFact item ;;
    collect rest (facts ++ [fact])
  end.

(** [parseXBRLJSON(jsonData)]: what the [try] block does, and the [catch]
    that throws again with its own prefix. *)
Definition parseXBRLJSON (jsonData : JsonData) : completion ParsedJson :=
  let attempt :=
    match jsonData with
    | NoData => Throw (js "TypeError")
    | Data l =>
      facts <- match l with
               | NotAnArray => Return []
               | ArrayOf elements => collect elements []
               end ;;
      Return {| p_facts := facts;
                total_facts := List.length facts;
                numeric_facts := List.length (filter isNumeric facts);
                p_source := js "XBRL-JSON Parser (DART)" |}
    end in
  match attempt with
  | Return r => Return r
  | Throw message => Throw (js "Failed to parse XBRL JSON: " ++ message)
  end.

End DartJson.

(** ** DART statements: statements *)

Module DartSpec.
Import XbrlParser DartJson.

(** The items of a list that holds no null. *)
Fixpoint itemsOf (elements : list ListElement) : option (list LineItem) :=
  match elements with
  | [] => Some []
  | Nullish :: _ => None
  | Item item :: rest => option_map (cons item) (itemsOf rest)
  end.

(** A line item with amounts for the current and the previous term. *)
Definition lineItem (name : string) (current previous : jsvalue) : LineItem :=
  {| account_id := VUndefined; account_nm := VString (js name);
     thstrm_amount := current; frmtrm_amount := previous;
     bfefrmtrm_amount := VUndefined; currency := VUndefined;
     bsns_year := VString (js "2023"); reprt_code := VString (js "11011");
     ord := VString (js "1") |}.

Definition statement : list ListElement :=
  [Item (lineItem "Revenue" (VString (js "1,000")) (VString (js "900")));
   Item (lineItem "Goodwill" (VString []) (VString (js "-")));
   Item (lineItem "Notes" VUndefined VUndefined)].

End DartSpec.

(** ** Growth rates: statements *)

Module GrowthSpec.
Import TimeSeriesAnalyzer.

(** How often a period is listed. *)
Definition occurrences (p : jsstring) (periodData : list jsstring) : nat :=
  count_occ (list_eq_dec N.eq_dec) periodData p.

(** Two filings for the same period end, as an original and its amendment
    give them, and one for the year before. *)
Definition refiled : list TimeSeriesRow :=
  [TimeSeriesSpec.revenueRow "2023-12-31" 200 "Total";
   TimeSeriesSpec.revenueRow "2023-12-31" 210 "Total";
   TimeSeriesSpec.revenueRow "2022-12-31" 100 "Total"].

Definition refiledPeriods : list jsstring :=
  [js "2023-12-31"; js "2023-12-31"; js "2022-12-31"].

End GrowthSpec.

(** ** src/xbrl-parser.js: the numeric facts of parseIXBRL *)

Module InlineXbrl.
Import XbrlParser.

(** An [ix:nonFraction] element as the callback reads it: its attributes,
    [None] for one that is not there, and its text. *)
Record NonFraction := {
  nf_name : option jsstring;
  nf_contextRef : option jsstring;
  nf_unitRef : option jsstring;
  nf_decimals : option jsstring;
  nf_scale : option jsstring;
  nf_format : option jsstring;
  nf_text : jsstring
}.

(** The fact that is pushed, without the fields looked up in [contexts] and
    [units]. *)
Record InlineFact := {
  i_namespace : jsstring;
  i_concept : jsstring;
  i_value : option number;
  i_rawValue : jsstring;
  i_contextRef : option jsstring;
  i_unitRef : option jsstring;
  i_decimals : option jsstring;
  i_scale : jsstring;
  i_format : option jsstring
}.

(** [parseInt(s, 10)]: leading white space, an optional sign, then the
    longest run of decimal digits; [None] is NaN. *)
Definition intSign (t : jsstring) : Z :=
  match t with
  | c :: _ => if (c =? 45)%N then (-1)%Z else 1%Z
  | [] => 1%Z
  end.

Definition intBody (t : jsstring) : jsstring :=
  match t with
  | c :: r => if ((c =? 45) || (c =? 43))%N then r else t
  | [] => t
  end.

Definition parseInt10 (s : jsstring) : option Z :=
  let t := trimStart s in
  match takeWhile isDigit (intBody t) with
  | [] => None
  | ds => Some (intSign t * digitsValue ds)%Z
  end.

(** [Math.pow(10, n)] for what [parseInt] returns: the double nearest to the
    power of ten. The language leaves the last digit of [Math.pow] to the
    engine (ECMA-262, 21.3.2.26); the powers from 10^0 to 10^22 are doubles. *)
Definition pow10 (n : option Z) : number :=
  match n with
  | Some z => nearestDouble (scale10 1 z)
  | None => NaN
  end.

(** [a * b]: the double nearest to the product. *)
Definition times (a b : number) : number :=
  let ofSign (negative : bool) := if negative then NegInfinity else PosInfinity in
  match a, b with
  | NaN, _ | _, NaN => NaN
  | Finite x, Finite y => nearestDouble (x * y)
  | Finite x, PosInfinity | PosInfinity, Finite x =>
    if Qeq_bool x 0 then NaN else ofSign (Qlt_bool x 0)
  | Finite x, NegInfinity | NegInfinity, Finite x =>
    if Qeq_bool x 0 then NaN else ofSign (negb (Qlt_bool x 0))
  | PosInfinity, PosInfinity | NegInfinity, NegInfinity => PosInfinity
  | PosInfinity, NegInfinity | NegInfinity, PosInfinity => NegInfinity
  end.

(** [name.includes(':') ? name.split(':', 2) : ['unknown', name]] *)
Definition qualifiedName (name : jsstring) : jsstring * jsstring :=
  if includes name (js ":") then
    let parts := firstn 2 (split 58%N name) in
    (nth 0 parts [], nth 1 parts [])
  else (js "unknown", name).

Definition nonEmpty (s : jsstring) : bool :=
  match s with [] => false | _ :: _ => true end.

(** The callback of [$('ix\\:nonFraction, ix\\:nonfraction').each]:
    the fact it pushes, if any. *)
Definition nonFractionFact (includeNonNumeric : bool) (elem : NonFraction)
  : completion (option InlineFact) :=
  let scale := match orElse (nf_scale elem) None with Some s => s | None => js "0" end in
  parsed <- parseFactValue (VString (nf_text elem)) ;;
  let value :=
    match parsed with
    | Some v => if nonEmpty scale then Some (times v (pow10 (parseInt10 scale))) else Some v
    | None => None
    end in
  if negb (isNull value) || includeNonNumeric then
    name <- match nf_name elem with
            | Some n => Return n
            | None => Throw (js "TypeError")
            end ;;
    Return (Some {| i_namespace := fst (qualifiedName name);
                    i_concept := snd (qualifiedName name);
                    i_value := value;
                    i_rawValue := nf_text elem;
                    i_contextRef := nf_contextRef elem;
                    i_unitRef := nf_unitRef elem;
                    i_decimals := nf_decimals elem;
                    i_scale := scale;
                    i_format := nf_format elem |})
  else Return None.

End InlineXbrl.

(** ** Inline facts: statements *)

Module InlineSpec.
Import XbrlParser InlineXbrl.

(** The text of the element is read as a number. *)
Definition textParses (elem : NonFraction) : bool :=
  match parseFactValue (VString (nf_text elem)) with
  | Return (Some _) => true
  | _ => false
  end.

Definition hasNoColon (s : jsstring) : Prop := ~ In 58%N s.

(** An element in millions of yen. *)
Definition salesElement (scale : option string) : NonFraction :=
  {| nf_name := Some (js "jppfs_cor:NetSales:extra");
     nf_contextRef := Some (js "CurrentYearDuration");
     nf_unitRef := Some (js "JPY");
     nf_decimals := Some (js "-6");
     nf_scale := option_map js scale;
     nf_format := None;
     nf_text := js "1,234" |}.

End InlineSpec.

(** ** Dimension labels: statements *)

Module LabelSpec.
Import XbrlParser FactTableBuilder.

(** The three extractors with their flags and keywords. *)
Definition extractors
  : list ((option Dimensions -> jsvalue) * (option Dimensions -> bool) * list jsstring) :=
  [(extractGeographyFromDimensions, hasGeographyDimension, geoKeys);
   (extractSegmentFromDimensions, hasSegmentDimension, segmentKeys);
   (extractProductFromDimensions, hasProductDimension, productKeys)].

(** A dimension whose member is called just "Member" in its namespace. *)
Definition bareMember (key prefix : jsstring) (rest : Dimensions) : option Dimensions :=
  Some ((key, VString (prefix ++ js ":Member")) :: rest).

Definition bareFact : Fact :=
  {| namespace := None; concept := js "Revenue"; accountName := None; value := Some 100;
     contextRef := None; unitRef := None; unit := None; decimals := None;
     scale := None; period := None;
     dimensions := bareMember (js "GeographicalAreasMember") (js "jppfs_cor") [] |}.

End LabelSpec.

(** ** src/time-series-analyzer.js: collecting the periods and putting the
    analyses together *)

Module SeriesPipeline.
Import FactTableBuilder TimeSeriesAnalyzer MixAnalyzer.

(** A fact of a period once its labels are attached, with the fields the
    table takes over. *)
Record PeriodFact := {
  pf_concept : jsstring;
  pf_value : Q;
  pf_geography : jsstring;
  pf_segment : jsstring
}.

Record PeriodRecord := { pr_period : jsstring; pr_facts : list PeriodFact }.

(** What the loop over the filings of a Japanese company gets for one
    filing: its period, and the facts of the concept in the value range with
    their labels, [None] when fetching the facts throws. *)
Record Filing := { f_period : jsstring; f_matches : option (list PeriodFact) }.

Record AnalysisOptions := {
  o_concept : jsstring;
  o_periods : Q;
  showGrowthRates : bool;
  o_includeGeography : bool;
  o_includeSegments : bool
}.

Record Analysis := {
  a_periods : list jsstring;
  periodsAnalyzed : nat;
  a_timeSeries : list TimeSeriesRow;
  growthAnalysis : option GrowthAnalysis;
  mixAnalysis : option (list (jsstring * PeriodMix));
  a_trends : Trends;
  totalPeriods : nat;
  totalDataPoints : nat;
  dateFrom : option jsstring;
  dateTo : option jsstring;
  uniqueGeographies : list jsstring;
  uniqueSegments : list jsstring
}.

(** The loop [for (let i = 0; i < filings.length && processedCount <
    periods; i++)]: a filing whose facts cannot be fetched, or that has no
    matching fact, is passed over. *)
Fixpoint collect (filings : list Filing) (periods : Q) (processedCount : nat)
    (periodData : list PeriodRecord) : list PeriodRecord :=
  match filings with
  | [] => periodData
  | filing :: rest =>
    if Qlt_bool (inject_Z (Z.of_nat processedCount)) periods then
      match f_matches filing with
      | Some (fact :: facts) =>
        collect rest periods (S processedCount)
          (periodData ++ [{| pr_period := f_period filing; pr_facts := fact :: facts |}])
      | _ => collect rest periods processedCount periodData
      end
    else periodData
  end.

Section Pipeline.
Context `{Host}.

(** The rows that [buildTimeSeriesTable] pushes for one period. *)
Definition rowsOf (p : PeriodRecord) : list TimeSeriesRow :=
  map (fun fact =>
         {| period := pr_period p;
            concept := pf_concept fact;
            value := pf_value fact;
            geography := pf_geography fact;
            segment := pf_segment fact |})
      (pr_facts p).

(** The comparator of the table: newest period first, then the greater
    value. *)
Definition compareRows (a b : TimeSeriesRow) : Q :=
  let periodCompare := localeCompare (period b) (period a) in
  if negb (periodCompare =? 0)%Z then inject_Z periodCompare
  else value b - value a.

(** [buildTimeSeriesTable(periodData, options, currencySymbol)] *)
Definition buildTimeSeriesTable (periodData : list PeriodRecord) : list TimeSeriesRow :=
  JS.sort compareRows (flat_map rowsOf periodData).

(** [timeSeriesAnalysis] from the collected periods on: the [catch] gives
    every error the prefix of the function. *)
Definition analyse (collected : list PeriodRecord) (options : AnalysisOptions)
  : completion Analysis :=
  match collected with
  | [] =>
    Throw (js "Time-series analysis failed: "
           ++ js "No valid period data found for concept: " ++ o_concept options)
  | _ :: _ =>
    let periodData :=
      JS.sort (fun a b => inject_Z (localeCompare (pr_period b) (pr_period a)))
        collected in
    let timeSeriesTable := buildTimeSeriesTable periodData in
    let mixOptions := {| includeGeography := o_includeGeography options;
                         includeSegments := o_includeSegments options |} in
    Return
      {| a_periods := JS.sort defaultCompare (map pr_period periodData);
         periodsAnalyzed := List.length periodData;
         a_timeSeries := timeSeriesTable;
         growthAnalysis :=
           if showGrowthRates options && (2 <=? List.length periodData)%nat
           then calculateGrowthRates timeSeriesTable (map pr_period periodData)
           else None;
         mixAnalysis :=
           if o_includeGeography options || o_includeSegments options
           then Some (analyzeMix timeSeriesTable mixOptions)
           else None;
         a_trends := calculateTrends timeSeriesTable;
         totalPeriods := List.length periodData;
         totalDataPoints := List.length timeSeriesTable;
         dateFrom := option_map pr_period (hd_error (rev periodData));
         dateTo := option_map pr_period (hd_error periodData);
         uniqueGeographies := distinctBy str_eqb (map geography timeSeriesTable);
         uniqueSegments := distinctBy str_eqb (map segment timeSeriesTable) |}
  end.

(** The Japanese branch of [timeSeriesAnalysis(params)], on the filings that
    the company has. *)
Definition timeSeriesAnalysisJP (filings : list Filing) (options : AnalysisOptions)
  : completion Analysis :=
  match filings with
  | [] => Throw (js "Time-series analysis failed: " ++ js "No filings found for company")
  | _ :: _ => analyse (collect filings (o_periods options) 0 []) options
  end.
End Pipeline.

End SeriesPipeline.

(** ** Collected periods: statements *)

Module PipelineSpec.
Import TimeSeriesAnalyzer SeriesPipeline.

(** The record of a filing that yields one: its facts are fetched and some
    fact matches. *)
Definition recordOf (filing : Filing) : list PeriodRecord :=
  match f_matches filing with
  | Some (fact :: facts) =>
    [{| pr_period := f_period filing; pr_facts := fact :: facts |}]
  | _ => []
  end.

Definition yields (filings : list Filing) : list PeriodRecord := flat_map recordOf filings.

Definition sales (v : Q) : PeriodFact :=
  {| pf_concept := js "NetSales"; pf_value := v;
     pf_geography := js "Total"; pf_segment := js "Total" |}.

(** Four filings: the second cannot be fetched, the third has no matching
    fact, the fourth is for the same period as the first. *)
Definition someFilings : list Filing :=
  [{| f_period := js "2023-03-31"; f_matches := Some [sales 200] |};
   {| f_period := js "2022-03-31"; f_matches := None |};
   {| f_period := js "2021-03-31"; f_matches := Some [] |};
   {| f_period := js "2023-03-31"; f_matches := Some [sales 210] |}].

Definition defaults : AnalysisOptions :=
  {| o_concept := js "Revenue"; o_periods := 4; showGrowthRates := true;
     o_includeGeography := true; o_includeSegments := true |}.

End PipelineSpec.

(** ** The same functions on the facts as the parsers push them

    [parseIXBRL] pushes an amount that is NaN when the [scale] attribute
    does not start with an integer, and an infinity when the number
    overflows; [parseXBRLJSON] pushes as concept whatever
    [account_id || account_nm] holds. [Fact] above holds the facts with a
    text concept and an amount that is finite or null; [RawFact] holds them
    all, and the functions below are [filterFacts] and steps 2 to 6 of
    [buildFactTable] on them. Finite amounts are combined exactly, as
    above. *)

Module RawFacts.
Import XbrlParser FactTableBuilder.

Record RawFact := {
  r_namespace : option jsstring;
  r_concept : jsvalue;
  r_accountName : option jsstring;
  r_value : option number;
  r_contextRef : option jsstring;
  r_unitRef : option jsstring;
  r_unit : option jsstring;
  r_decimals : option jsstring;
  r_scale : option jsstring;
  r_period : option Period;
  r_dimensions : option Dimensions
}.

(** ToNumber of an amount: null is 0. *)
Definition toNumber (v : option number) : number :=
  match v with Some n => n | None => Finite 0 end.

(** [a + b] *)
Definition plus (a b : number) : number :=
  match a, b with
  | Finite x, Finite y => Finite (x + y)
  | NaN, _ | _, NaN => NaN
  | PosInfinity, NegInfinity | NegInfinity, PosInfinity => NaN
  | PosInfinity, _ | _, PosInfinity => PosInfinity
  | NegInfinity, _ | _, NegInfinity => NegInfinity
  end.

(** [a - b] *)
Definition minus (a b : number) : number := plus a (neg b).

(** [Math.abs(a)] *)
Definition abs (a : number) : number :=
  match a with
  | Finite x => Finite (Qabs x)
  | NaN => NaN
  | PosInfinity | NegInfinity => PosInfinity
  end.

(** [a < b]: false when either side is NaN. *)
Definition lessThan (a b : number) : bool :=
  match a, b with
  | Finite x, Finite y => Qlt_bool x y
  | NaN, _ | _, NaN => false
  | NegInfinity, NegInfinity => false
  | NegInfinity, _ => true
  | _, NegInfinity => false
  | PosInfinity, _ => false
  | _, PosInfinity => true
  end.

(** [a / d] for a finite divisor that is not 0: the sources divide by a
    count of at least one, and by a target they have compared with 0. *)
Definition dividedBy (a : number) (d : Q) : number :=
  match a with
  | Finite x => Finite (x / d)
  | NaN => NaN
  | PosInfinity => if Qlt_bool d 0 then NegInfinity else PosInfinity
  | NegInfinity => if Qlt_bool d 0 then PosInfinity else NegInfinity
  end.

(** The number that [((deviation / targetValue) * 100).toFixed(2)] denotes;
    NaN and the infinities print as themselves. *)
Definition percentOf (deviation : number) (targetValue : Q) : number :=
  match dividedBy deviation targetValue with
  | Finite q => Finite (toFixed 2 (q * 100))
  | other => other
  end.

(** What [sort] makes of the number a comparator returns: NaN counts as 0. *)
Definition comparatorResult (n : number) : Q :=
  match n with
  | Finite q => q
  | PosInfinity => 1
  | NegInfinity => -1
  | NaN => 0
  end.

(** [Math.min(...values)] and [Math.max(...values)]: NaN when a value is. *)
Definition minOf (l : list number) : number :=
  match l with
  | [] => PosInfinity
  | x :: r =>
    fold_left (fun m v => if isNaN m || isNaN v then NaN
                          else if lessThan v m then v else m) r x
  end.

Definition maxOf (l : list number) : number :=
  match l with
  | [] => NegInfinity
  | x :: r =>
    fold_left (fun m v => if isNaN m || isNaN v then NaN
                          else if lessThan m v then v else m) r x
  end.

(** [values.reduce((a, b) => a + b, 0)] *)
Definition sumOf (l : list number) : number := fold_left plus l (Finite 0).

(** A row of the fact table. *)
Record RawRow := {
  rw_rowNumber : nat;
  rw_concept : jsstring;
  rw_accountName : option jsstring;
  rw_namespace : jsstring;
  rw_value : option number;
  rw_exactMatch : bool;
  rw_deviationFromTarget : number;
  rw_deviationPercent : option number;
  rw_periodType : PeriodType;
  rw_periodStart : option jsstring;
  rw_periodEnd : option jsstring;
  rw_dimensions : Dimensions;
  rw_dimensionCount : nat;
  rw_geography : jsvalue;
  rw_segment : jsvalue;
  rw_product : jsvalue;
  rw_hasGeographicDimension : bool;
  rw_hasSegmentDimension : bool;
  rw_hasProductDimension : bool;
  rw_businessClassification : Category;
  rw_contextRef : option jsstring;
  rw_unitRef : option jsstring;
  rw_decimals : option jsstring;
  rw_scale : option jsstring
}.

Record RawEntry := { rb_count : nat; rb_totalValue : number; rb_avgValue : number }.

Definition RawBreakdown := list (jsstring * RawEntry).

Record RawStats := { rs_min : number; rs_max : number; rs_average : number }.

Record RawSummaryData := {
  rs_totalFacts : nat;
  rs_exactMatches : nat;
  rs_conceptTypes : list jsstring;
  rs_uniqueConcepts : nat;
  rs_factsWithGeography : nat;
  rs_factsWithSegments : nat;
  rs_factsWithProducts : nat;
  rs_factsWithDimensions : nat;
  rs_valueRange : RawStats;
  rs_businessTypes : list (Category * nat);
  rs_periodTypes : list PeriodType;
  rs_geographicBreakdown : RawBreakdown;
  rs_segmentBreakdown : RawBreakdown;
  rs_closestMatch : RawRow
}.

Inductive RawSummary :=
| RawEmpty (exactMatches0 : bool) (message : jsstring)
| RawFull (s : RawSummaryData).

Record RawResult := {
  rr_targetValue : Q;
  rr_tolerance : Q;
  rr_searchRange : SearchRange;
  rr_table : list RawRow;
  rr_summary : RawSummary;
  rr_totalFactsFound : option nat;
  rr_totalFactsReturned : option nat
}.

(** [a.filter(f)] and [a.map(f)] for a callback that can throw: the elements
    are visited in order and the first throw ends the call. *)
Fixpoint filterM {A} (keep : A -> completion bool) (l : list A) : completion (list A) :=
  match l with
  | [] => Return []
  | x :: r =>
    k <- keep x ;;
    kept <- filterM keep r ;;
    Return (if k then x :: kept else kept)
  end.

Fixpoint mapiM {A B} (f : nat -> A -> completion B) (i : nat) (l : list A)
  : completion (list B) :=
  match l with
  | [] => Return []
  | x :: r =>
    y <- f i x ;;
    ys <- mapiM f (S i) r ;;
    Return (y :: ys)
  end.

Section Raw.
Context `{Host}.

(** The callback of [facts.filter(...)] in [filterFacts]. *)
Definition keepFact (criteria : Criteria) (fact : RawFact) : completion bool :=
  conceptRejects <-
    (if truthyString (c_concept criteria) then
       c <- asString (r_concept fact) ;;
       Return (negb (includes (toLowerCase c)
                       (toLowerCase (match c_concept criteria with
                                     | Some k => k
                                     | None => []
                                     end))))
     else Return false) ;;
  Return
    (if conceptRejects then false
     else if truthyFlag (c_hasValue criteria) && isNull (r_value fact) then false
     else if
       match c_valueRange criteria with
       | Some valueRange =>
         match r_value fact with
         | None => true
         | Some v =>
           match min valueRange with
           | Some lo => lessThan v (Finite lo)
           | None => false
           end
           || match max valueRange with
              | Some hi => lessThan (Finite hi) v
              | None => false
              end
         end
       | None => false
       end
     then false
     else if
       truthyString (c_period criteria)
       && (let factPeriod :=
             match orElse (match r_period fact with Some p => endDate p | None => None end)
                     (match r_period fact with Some p => instant p | None => None end) with
             | Some s => s
             | None => []
             end in
           negb (includes factPeriod
                   (match c_period criteria with Some p => p | None => [] end)))
     then false
     else if
       truthyFlag (c_hasDimensions criteria)
       && match r_dimensions fact with
          | None => true
          | Some d => (List.length d =? 0)%nat
          end
     then false
     else true).

(** [filterFacts(facts, criteria)] *)
Definition filterFacts (facts : list RawFact) (criteria : Criteria)
  : completion (list RawFact) :=
  filterM (keepFact criteria) facts.

(** The same call on arrays held in a store: the result is a new array, and
    a call that throws allocates nothing. *)
Definition store := list (list RawFact).

Definition filterFactsIn (h : store) (facts : nat) (criteria : Criteria)
  : completion (store * nat) :=
  kept <- filterFacts (nth facts h []) criteria ;;
  Return (h ++ [kept], List.length h).

(** The first loop of [getGeographicBreakdown] / [getSegmentBreakdown]. *)
Fixpoint bump (k : jsstring) (v : number) (b : RawBreakdown) : RawBreakdown :=
  match b with
  | [] => [(k, {| rb_count := 1; rb_totalValue := plus (Finite 0) v;
                  rb_avgValue := Finite 0 |})]
  | (k', e) :: r =>
    if str_eqb k' k
    then (k', {| rb_count := S (rb_count e); rb_totalValue := plus (rb_totalValue e) v;
                 rb_avgValue := rb_avgValue e |}) :: r
    else (k', e) :: bump k v r
  end.

Definition breakdownBy (label : RawRow -> jsvalue) (facts : list RawRow) : RawBreakdown :=
  let counted :=
    fold_left (fun b fact =>
                 if truthy (label fact)
                 then bump (toPropertyKey (label fact)) (toNumber (rw_value fact)) b
                 else b) facts [] in
  map (fun ke =>
         (fst ke, {| rb_count := rb_count (snd ke);
                     rb_totalValue := rb_totalValue (snd ke);
                     rb_avgValue :=
                       dividedBy (rb_totalValue (snd ke))
                                 (inject_Z (Z.of_nat (rb_count (snd ke)))) |}))
      counted.

Definition getGeographicBreakdown := breakdownBy rw_geography.
Definition getSegmentBreakdown := breakdownBy rw_segment.

(** [generateFactTableSummary(facts, targetValue, tolerance, currencySymbol)] *)
Definition generateFactTableSummary (facts : list RawRow) : RawSummary :=
  match facts with
  | [] => RawEmpty true (js "No facts found")
  | first :: _ =>
    let values := map (fun f => toNumber (rw_value f)) facts in
    RawFull {|
      rs_totalFacts := List.length facts;
      rs_exactMatches := countIf rw_exactMatch facts;
      rs_conceptTypes := distinctBy str_eqb (map rw_concept facts);
      rs_uniqueConcepts := List.length (distinctBy str_eqb (map rw_concept facts));
      rs_factsWithGeography := countIf rw_hasGeographicDimension facts;
      rs_factsWithSegments := countIf rw_hasSegmentDimension facts;
      rs_factsWithProducts := countIf rw_hasProductDimension facts;
      rs_factsWithDimensions := countIf (fun f => (0 <? rw_dimensionCount f)%nat) facts;
      rs_valueRange :=
        {| rs_min := minOf values; rs_max := maxOf values;
           rs_average :=
             dividedBy (sumOf values) (inject_Z (Z.of_nat (List.length values))) |};
      rs_businessTypes :=
        fold_left (fun acc fact => tally (rw_businessClassification fact) acc) facts [];
      rs_periodTypes := distinctBy PeriodType_eqb (map rw_periodType facts);
      rs_geographicBreakdown := getGeographicBreakdown facts;
      rs_segmentBreakdown := getSegmentBreakdown facts;
      rs_closestMatch :=
        fold_left (fun closest fact =>
                     if lessThan (abs (rw_deviationFromTarget fact))
                                 (abs (rw_deviationFromTarget closest))
                     then fact else closest) facts first
    |}
  end.

(** [sortFacts(facts, sortBy)] *)
Definition sortFacts (facts : list RawRow) (sortBy : jsstring) : list RawRow :=
  if str_eqb sortBy (js "deviation") then
    JS.sort (fun a b => comparatorResult
                          (minus (abs (rw_deviationFromTarget a))
                                 (abs (rw_deviationFromTarget b)))) facts
  else if str_eqb sortBy (js "value") then
    JS.sort (fun a b => comparatorResult
                          (minus (toNumber (rw_value b)) (toNumber (rw_value a)))) facts
  else if str_eqb sortBy (js "concept") then
    JS.sort (fun a b => inject_Z (localeCompare (rw_concept a) (rw_concept b))) facts
  else facts.

(** Step 3 of [buildFactTable]: the row made from the fact at [index];
    [classifyFact] throws on a concept that is not a text. *)
Definition enrich (country : jsstring) (targetValue : Q) (index : nat) (fact : RawFact)
  : completion RawRow :=
  let deviation := minus (toNumber (r_value fact)) (Finite targetValue) in
  let inst := match r_period fact with Some p => instant p | None => None end in
  let endD := match r_period fact with Some p => endDate p | None => None end in
  concept <- asString (r_concept fact) ;;
  Return
    {| rw_rowNumber := index + 1;
       rw_concept := concept;
       rw_accountName := orElse (r_accountName fact) None;
       rw_namespace := orDefault (orElse (r_namespace fact) None) (js "unknown");
       rw_value := r_value fact;
       rw_exactMatch := lessThan (abs deviation) (Finite 1000);
       rw_deviationFromTarget := deviation;
       rw_deviationPercent :=
         if Qeq_bool targetValue 0 then None
         else Some (percentOf deviation targetValue);
       rw_periodType := if truthyString inst then instant_ else duration;
       rw_periodStart := match r_period fact with Some p => startDate p | None => None end;
       rw_periodEnd := orElse endD inst;
       rw_dimensions := orDefault (r_dimensions fact) [];
       rw_dimensionCount := List.length (orDefault (r_dimensions fact) []);
       rw_geography := extractGeographyFromDimensions (r_dimensions fact);
       rw_segment := extractSegmentFromDimensions (r_dimensions fact);
       rw_product := extractProductFromDimensions (r_dimensions fact);
       rw_hasGeographicDimension := hasGeographyDimension (r_dimensions fact);
       rw_hasSegmentDimension := hasSegmentDimension (r_dimensions fact);
       rw_hasProductDimension := hasProductDimension (r_dimensions fact);
       rw_businessClassification :=
         classifyFact concept
           (VString (if str_eqb country (js "JP") then js "J-GAAP" else js "K-GAAP"));
       rw_contextRef := r_contextRef fact;
       rw_unitRef := orElse (r_unitRef fact) (r_unit fact);
       rw_decimals := r_decimals fact;
       rw_scale := r_scale fact |}.

(** Step 2: the facts that the search criteria keep. *)
Definition matchingFacts (xbrlFacts : list RawFact) (params : Params)
  : completion (list RawFact) :=
  filterFacts xbrlFacts (searchCriteria params).

(** Steps 3 and 4: the rows made from the matches, sorted. *)
Definition enrichedFacts (matches : list RawFact) (params : Params)
  : completion (list RawRow) :=
  rows <- mapiM (enrich (country params) (targetValue params)) 0 matches ;;
  Return (sortFacts rows (sortByOf params)).

(** Steps 3 to 6, from the matches. *)
Definition tableOf (matches : list RawFact) (params : Params) : completion RawResult :=
  let range := {| sr_min := targetValue params - toleranceOf params;
                  sr_max := targetValue params + toleranceOf params |} in
  match matches with
  | [] =>
    Return
      {| rr_targetValue := targetValue params; rr_tolerance := toleranceOf params;
         rr_searchRange := range;
         rr_table := [];
         rr_summary := RawEmpty false (js "No facts found in the specified value range");
         rr_totalFactsFound := None; rr_totalFactsReturned := None |}
  | _ :: _ =>
    all <- enrichedFacts matches params ;;
    let limitedFacts := sliceTo (maxRowsOf params) all in
    Return
      {| rr_targetValue := targetValue params; rr_tolerance := toleranceOf params;
         rr_searchRange := range;
         rr_table := limitedFacts;
         rr_summary := generateFactTableSummary all;
         rr_totalFactsFound := Some (List.length all);
         rr_totalFactsReturned := Some (List.length limitedFacts) |}
  end.

(** Steps 2 to 6 of [buildFactTable(params)] inside its [try]: whatever is
    thrown is thrown again with the prefix of the [catch] clause. *)
Definition buildFactTable (xbrlFacts : list RawFact) (params : Params)
  : completion RawResult :=
  match (matches <- matchingFacts xbrlFacts params ;; tableOf matches params) with
  | Return result => Return result
  | Throw message => Throw (js "Failed to build fact table: " ++ message)
  end.
End Raw.

End RawFacts.

(** ** Facts as pushed: statements *)

Module RawSpec.
Import XbrlParser FactTableBuilder RawFacts.

(** A fact of the narrower record among all facts. *)
Definition widen (fact : Fact) : RawFact :=
  {| r_namespace := namespace fact;
     r_concept := VString (concept fact);
     r_accountName := accountName fact;
     r_value := option_map Finite (value fact);
     r_contextRef := contextRef fact;
     r_unitRef := unitRef fact;
     r_unit := unit fact;
     r_decimals := decimals fact;
     r_scale := scale fact;
     r_period := period fact;
     r_dimensions := dimensions fact |}.






(** [a <= b] on numbers: false when either side is NaN. *)
Definition atMost (a b : number) : bool :=
  match a, b with
  | Finite x, Finite y => Qle_bool x y
  | NaN, _ | _, NaN => false
  | NegInfinity, _ => true
  | _, PosInfinity => true
  | _, _ => false
  end.



Section WithHost.
Context `{Host}.

(** The five criteria. The bounds of a value range are inclusive; a null
    amount never lies within a range, and a NaN amount lies within every
    range. *)
Definition conceptMatches (c : option jsstring) (fact : RawFact) : bool :=
  match c with
  | Some (k0 :: k) =>
    match r_concept fact with
    | VString s => includes (toLowerCase s) (toLowerCase (k0 :: k))
    | _ => false
    end
  | _ => true
  end.

Definition withinRange (r : option ValueRange) (fact : RawFact) : bool :=
  match r with
  | None => true
  | Some r =>
    match r_value fact with
    | None => false
    | Some NaN => true
    | Some v =>
      match min r with Some lo => atMost (Finite lo) v | None => true end
      && match max r with Some hi => atMost v (Finite hi) | None => true end
    end
  end.


Definition effectivePeriod (fact : RawFact) : jsstring :=
  match r_period fact with
  | None => []
  | Some p =>
    match endDate p with
    | Some (c :: e) => c :: e
    | _ => match instant p with Some i => i | None => [] end
    end
  end.

Definition periodMatches (p : option jsstring) (fact : RawFact) : bool :=
  match p with
  | None => true
  | Some p => includes (effectivePeriod fact) p
  end.

Definition valuePresent (h : option bool) (fact : RawFact) : bool :=
  match h with
  | Some true => match r_value fact with Some _ => true | None => false end
  | _ => true
  end.

Definition dimensionsPresent (h : option bool) (fact : RawFact) : bool :=
  match h with
  | Some true => match r_dimensions fact with Some (_ :: _) => true | _ => false end
  | _ => true
  end.

Definition satisfies (criteria : Criteria) (fact : RawFact) : bool :=
  conceptMatches (c_concept criteria) fact
  && withinRange (c_valueRange criteria) fact
  && periodMatches (c_period criteria) fact
  && valuePresent (c_hasValue criteria) fact
  && dimensionsPresent (c_hasDimensions criteria) fact.






(** The amount of a fact, and its label under an extractor. *)
Definition amount (fact : RawFact) : number := toNumber (r_value fact).

Definition factLabelled (extract : option Dimensions -> jsvalue) (k : jsstring)
    (fact : RawFact) : bool :=
  truthy (extract (r_dimensions fact))
  && str_eqb (toPropertyKey (extract (r_dimensions fact))) k.

(** Reading a breakdown at a key. *)
Definition breakdownCount (k : jsstring) (b : RawBreakdown) : nat :=
  match find (fun ke => str_eqb (fst ke) k) b with
  | Some ke => rb_count (snd ke)
  | None => 0
  end.

Definition breakdownTotal (k : jsstring) (b : RawBreakdown) : number :=
  match find (fun ke => str_eqb (fst ke) k) b with
  | Some ke => rb_totalValue (snd ke)
  | None => Finite 0
  end.





(** Three small amounts under options that carry a value range of their own
    and a negative row limit. *)
Definition smallFacts : list RawFact := map widen BuilderSpec.smallFacts.


End WithHost.

End RawSpec.

(** * Properties *)

(** ** Concept classifier *)

Module ClassifierFacts.
Import XbrlParser.

Import ClassifierSpec.

Section Precedence.
Context `{Host}.
Local Open Scope string_scope.

Lemma expense_test_iff (l : jsstring) :
  containsAny l expenseKeywords =
  (includes l (js "expense") || includes l (js "cost") || includes l (js "비용")
   || includes l (js "원가") || includes l (js "費用") || includes l (js "経費")
   || includes l (js "販売費")).
Proof.
  unfold containsAny, expenseKeywords.
  cbn [map existsb].
  repeat match goal with
         | |- context [includes l ?k] => destruct (includes l k)
         end; reflexivity.
Qed.

Lemma classifyFact_expense_branch (concept : jsstring) (taxonomy : jsvalue) :
  containsAny (toLowerCase concept) expenseKeywords = true ->
  isExpenseCategory (classifyFact concept taxonomy) = true.
Proof.
  intros Hexp. rewrite expense_test_iff in Hexp.
  unfold classifyFact. cbv zeta. rewrite Hexp.
  repeat match goal with
         | |- context [if ?b then _ else _] => destruct b
         end; reflexivity.
Qed.

(** C6. A concept whose lower-cased text contains an expense-family keyword
    and a revenue-family keyword is classified "Operating Expenses", "Cost
    of Sales" or "Expenses", never "Revenue"; "CostOfSalesRevenue", which
    every engine lower-cases to "costofsalesrevenue", is "Cost of Sales". *)
Theorem classifyFact_expense_before_revenue :
  (forall concept taxonomy,
      containsAny (toLowerCase concept) expenseKeywords = true ->
      containsAny (toLowerCase concept) revenueKeywords = true ->
      (classifyFact concept taxonomy = OperatingExpenses
       \/ classifyFact concept taxonomy = CostOfSales
       \/ classifyFact concept taxonomy = Expenses)
      /\ classifyFact concept taxonomy <> Revenue)
  /\ (toLowerCase (js "CostOfSalesRevenue") = js "costofsalesrevenue" ->
      forall taxonomy, classifyFact (js "CostOfSalesRevenue") taxonomy = CostOfSales).
Proof.
  split.
  - intros concept taxonomy Hexp _.
    pose proof (classifyFact_expense_branch concept taxonomy Hexp) as Hcat.
    destruct (classifyFact concept taxonomy); try discriminate Hcat;
      split; auto; discriminate.
  - intros Hlow taxonomy.
    unfold classifyFact. cbv zeta. rewrite Hlow. reflexivity.
Qed.

(** C10. The taxonomy argument has no influence on the category. *)
Theorem classifyFact_ignores_taxonomy (concept : jsstring) (t1 t2 : jsvalue) :
  classifyFact concept t1 = classifyFact concept t2.
Proof.
  unfold classifyFact. reflexivity.
Qed.
End Precedence.

Lemma classifyFact_expense_before_revenue_witness :
  containsAny (@toLowerCase asciiHost (js "CostOfSalesRevenue")) expenseKeywords = true
  /\ containsAny (@toLowerCase asciiHost (js "CostOfSalesRevenue")) revenueKeywords = true
  /\ @classifyFact asciiHost (js "CostOfSalesRevenue") VUndefined <> Revenue
  /\ @classifyFact asciiHost (js "CostOfSalesRevenue") (VString (js "J-GAAP")) = CostOfSales.
Proof.
  split; [reflexivity | split; [reflexivity | split]].
  - exact (proj2 (proj1 (@classifyFact_expense_before_revenue asciiHost)
                    (js "CostOfSalesRevenue") VUndefined eq_refl eq_refl)).
  - exact (proj2 (@classifyFact_expense_before_revenue asciiHost) eq_refl
             (VString (js "J-GAAP"))).
Defined.

End ClassifierFacts.

(** ** Dimension extractor *)

Module DimensionFacts.
Import XbrlParser FactTableBuilder.

Import DimensionSpec.

Lemma split_shape (sep : codeunit) (s : jsstring) :
  (~ In sep s /\ split sep s = [s])
  \/ (exists p t rest, s = p ++ sep :: t /\ ~ In sep t
                       /\ split sep s = rest ++ [t] /\ rest <> []).
Proof.
  induction s as [|c r IH].
  - left. split; [intros [] | reflexivity].
  - cbn [split]. destruct (N.eqb_spec c sep) as [->|Hne].
    + right. destruct IH as [[Hno Hsp]|(p & t & rest & -> & Hno & Hsp & Hrest)].
      * exists [], r, [[]]. rewrite Hsp. repeat split; auto. discriminate.
      * exists (sep :: p), t, ([] :: rest). rewrite Hsp.
        repeat split; auto. discriminate.
    + destruct IH as [[Hno Hsp]|(p & t & rest & -> & Hno & Hsp & Hrest)].
      * left. rewrite Hsp. split; [|reflexivity].
        intros [Heq|Hin]; [congruence | contradiction].
      * right. rewrite Hsp. destruct rest as [|h rest']; [contradiction|].
        exists (c :: p), t, ((c :: h) :: rest').
        repeat split; auto. discriminate.
Qed.

Lemma pop_split_strips (s : jsstring) : StripsNamespace s (pop (split 58%N s)).
Proof.
  unfold pop.
  destruct (split_shape 58%N s) as [[Hno Hsp]|(p & t & rest & Hs & Hno & Hsp & _)];
    rewrite Hsp.
  - left. split; [assumption | reflexivity].
  - right. rewrite last_last. exists p. split; assumption.
Qed.

Lemma startsWith_spec (l p : jsstring) :
  startsWith l p = true <-> exists t, l = p ++ t.
Proof.
  revert l. induction p as [|c p IH]; intros l.
  - destruct l; cbn; split; eauto.
  - destruct l as [|d l]; cbn [startsWith].
    + split; [discriminate | intros [t Ht]; discriminate Ht].
    + rewrite andb_true_iff, N.eqb_eq, IH. split.
      * intros [-> [t ->]]. now exists t.
      * intros [t Ht]. injection Ht as -> ->. split; eauto.
Qed.

Lemma stripMemberSuffix_strips (s : jsstring) : StripsMember s (stripMemberSuffix s).
Proof.
  unfold stripMemberSuffix, endsWith.
  destruct (startsWith (rev s) (rev (js "Member"))) eqn:Hsw.
  - left. apply startsWith_spec in Hsw. destruct Hsw as [t Ht].
    assert (Hs : s = rev t ++ js "Member").
    { rewrite <- (rev_involutive s), Ht, rev_app_distr, rev_involutive. reflexivity. }
    rewrite Hs at 2. f_equal.
    rewrite Hs, length_app.
    replace (List.length (rev t) + List.length (js "Member") - 6)%nat
      with (List.length (rev t) + 0)%nat by (cbn; lia).
    rewrite firstn_app_2. cbn. now rewrite app_nil_r.
  - right. split; [|reflexivity].
    intros u Hu. assert (startsWith (rev s) (rev (js "Member")) = true); [|congruence].
    apply startsWith_spec. exists (rev u). rewrite Hu, rev_app_distr. reflexivity.
Qed.

Lemma spaceBeforeCapitals_spaces (s : jsstring) : SpacesCapitals s (spaceBeforeCapitals s).
Proof.
  induction s as [|c s IH]; cbn.
  - constructor.
  - destruct (isCapital c) eqn:Hc; cbn; now constructor.
Qed.

Lemma take_drop_while {A} (p : A -> bool) (l : list A) :
  l = takeWhile p l ++ dropWhile p l
  /\ Forall (fun x => p x = true) (takeWhile p l)
  /\ (forall x r, dropWhile p l = x :: r -> p x = false).
Proof.
  induction l as [|x l (IH1 & IH2 & IH3)]; cbn.
  - repeat split; [constructor | discriminate].
  - destruct (p x) eqn:Hp; cbn.
    + repeat split; [now f_equal | now constructor | assumption].
    + repeat split; [constructor|]. intros y r [= <- _]. assumption.
Qed.

Lemma trim_trims (s : jsstring) : Trims s (trim s).
Proof.
  unfold Trims, trim, trimEnd, trimStart.
  destruct (take_drop_while isWhiteSpace s) as (Hs & Ha & Hhead).
  set (s1 := dropWhile isWhiteSpace s) in *.
  destruct (take_drop_while isWhiteSpace (rev s1)) as (Hr & Hb & Hlast).
  set (s2 := dropWhile isWhiteSpace (rev s1)) in *.
  set (b := takeWhile isWhiteSpace (rev s1)) in *.
  assert (Hs1 : s1 = rev s2 ++ rev b).
  { rewrite <- (rev_involutive s1), Hr, rev_app_distr. reflexivity. }
  exists (takeWhile isWhiteSpace s), (rev b). repeat split.
  - rewrite <- Hs1. exact Hs.
  - exact Ha.
  - apply Forall_rev. exact Hb.
  - intros c r Ht. apply (Hhead c (r ++ rev b)). rewrite Hs1, Ht. reflexivity.
  - intros c r Ht. apply (Hlast c (rev r)).
    rewrite <- (rev_involutive s2), Ht, rev_app_distr. reflexivity.
Qed.

(** C9. Geography from no mapping or from an empty one is null; from
    ["ifrs-full:GeographicalAreasMember" -> "Japan"] it is "Japan"; each of
    the three extractors returns null or the cleaned member of a pair of the
    mapping whose axis contains one of its keywords; cleaning a text strips
    the namespace up to the last colon, then a trailing "Member", then puts a
    space before each capital, then trims; a value that is not a text is
    returned as it is. *)
Theorem dimension_extraction_cleans :
  extractGeographyFromDimensions None = VNull
  /\ extractGeographyFromDimensions (Some []) = VNull
  /\ extractGeographyFromDimensions
       (Some [(js "ifrs-full:GeographicalAreasMember", VString (js "Japan"))])
     = VString (js "Japan")
  /\ (forall extract keywords,
         In (extract, keywords)
            [(extractGeographyFromDimensions, geoKeys);
             (extractSegmentFromDimensions, segmentKeys);
             (extractProductFromDimensions, productKeys)] ->
         forall dimensions,
           extract dimensions = VNull
           \/ exists d key raw keyword,
               dimensions = Some d /\ In (key, raw) d
               /\ In keyword keywords /\ includes key keyword = true
               /\ extract dimensions = cleanDimensionValue raw)
  /\ (forall s, exists t1 t2 t3 t4,
         StripsNamespace s t1 /\ StripsMember t1 t2 /\ SpacesCapitals t2 t3
         /\ Trims t3 t4 /\ cleanDimensionValue (VString s) = VString t4)
  /\ (forall v, isString v = false -> cleanDimensionValue v = v).
Proof.
  repeat split; try reflexivity.
  - intros extract keywords Hin dimensions.
    assert (Hfm : extract = firstMatching keywords).
    { cbn in Hin. destruct Hin as [Heq|[Heq|[Heq|[]]]];
        injection Heq as <- <-; reflexivity. }
    rewrite Hfm. unfold firstMatching.
    destruct dimensions as [d|]; [|now left].
    destruct (find _ d) as [[key raw]|] eqn:Hfind; [|now left].
    right. apply find_some in Hfind. destruct Hfind as [Hd Hkey].
    apply existsb_exists in Hkey. destruct Hkey as (keyword & Hk & Hinc).
    exists d, key, raw, keyword. auto.
  - intros s.
    exists (pop (split 58%N s)), (stripMemberSuffix (pop (split 58%N s))),
      (spaceBeforeCapitals (stripMemberSuffix (pop (split 58%N s)))),
      (trim (spaceBeforeCapitals (stripMemberSuffix (pop (split 58%N s))))).
    split; [apply pop_split_strips|].
    split; [apply stripMemberSuffix_strips|].
    split; [apply spaceBeforeCapitals_spaces|].
    split; [apply trim_trims|].
    destruct s; reflexivity.
  - intros v Hv. unfold cleanDimensionValue. rewrite Hv, orb_true_r. reflexivity.
Qed.

Example cleanDimensionValue_member :
  cleanDimensionValue (VString (js "ifrs-full:NorthAmericaMember"))
  = VString (js "North America").
Proof. reflexivity. Qed.

Lemma dimension_extraction_cleans_witness :
  In (extractSegmentFromDimensions, segmentKeys)
     [(extractGeographyFromDimensions, geoKeys);
      (extractSegmentFromDimensions, segmentKeys);
      (extractProductFromDimensions, productKeys)]
  /\ isString (VNumber (Finite 7)) = false
  /\ cleanDimensionValue (VNumber (Finite 7)) = VNumber (Finite 7)
  /\ extractSegmentFromDimensions
       (Some [(js "jppfs:OperatingSegmentsAxis", VString (js "jp:NorthAmericaMember"))])
     = VString (js "North America")
  /\ (extractSegmentFromDimensions
        (Some [(js "jppfs:OperatingSegmentsAxis", VString (js "jp:NorthAmericaMember"))])
      = VNull
      \/ exists d key raw keyword,
          Some [(js "jppfs:OperatingSegmentsAxis", VString (js "jp:NorthAmericaMember"))]
          = Some d /\ In (key, raw) d
          /\ In keyword segmentKeys /\ includes key keyword = true
          /\ extractSegmentFromDimensions
               (Some [(js "jppfs:OperatingSegmentsAxis",
                       VString (js "jp:NorthAmericaMember"))])
             = cleanDimensionValue raw).
Proof.
  pose proof dimension_extraction_cleans as (_ & _ & _ & Hext & _ & Hpass).
  split; [right; left; reflexivity|].
  split; [reflexivity|].
  split; [apply Hpass; reflexivity|].
  split; [reflexivity|].
  apply (Hext extractSegmentFromDimensions segmentKeys). right; left; reflexivity.
Defined.

End DimensionFacts.

(** ** Fact filter *)

Module FilterFacts.
Import XbrlParser.

Import FilterSpec.

Section Conjunction.
Context `{Host}.

Lemma includes_empty (s : jsstring) : includes s [] = true.
Proof. destruct s; reflexivity. Qed.

Lemma reject_chain (a b c d e : bool) :
  (if a then false else if b then false else if c then false
   else if d then false else if e then false else true)
  = negb a && negb c && negb d && negb b && negb e.
Proof. destruct a, b, c, d, e; reflexivity. Qed.

Lemma keepFact_satisfies (criteria : Criteria) (fact : Fact) :
  keepFact criteria fact = satisfies criteria fact.
Proof.
  unfold keepFact. rewrite reject_chain.
  unfold satisfies, conceptMatches, withinRange, periodMatches, effectivePeriod,
    valuePresent, dimensionsPresent, truthyString, truthyFlag, isNull, orElse, Qlt_bool.
  f_equal; [f_equal; [f_equal; [f_equal|]|]|].
  - destruct (c_concept criteria) as [[|k0 k]|]; cbn [andb negb].
    + now rewrite toLowerCase_empty, includes_empty.
    + now rewrite negb_involutive.
    + reflexivity.
  - destruct (c_valueRange criteria) as [[[lo|] [hi|]]|], (value fact) as [v|];
      cbn [min max]; try reflexivity;
      repeat match goal with
             | |- context [Qle_bool ?a ?b] => destruct (Qle_bool a b)
             end; reflexivity.
  - destruct (c_period criteria) as [[|p0 p]|]; cbn [andb negb]; try reflexivity.
    + now rewrite includes_empty.
    + rewrite negb_involutive.
      destruct (period fact) as [[[i|] sd [[|e0 e]|]]|]; reflexivity.
  - destruct (c_hasValue criteria) as [[|]|], (value fact); reflexivity.
  - destruct (c_hasDimensions criteria) as [[|]|], (dimensions fact) as [[|d0 d]|];
      reflexivity.
Qed.

(** On facts with a text concept and an amount that is finite or null,
    [filterFacts] returns, in their order, exactly the facts that satisfy
    every supplied criterion; run on an array of a store it allocates its
    result and leaves every array of the store, the input among them, as it
    was. *)
Lemma filterFacts_of_finite_facts (facts : list Fact) (criteria : Criteria) :
  filterFacts facts criteria = filter (satisfies criteria) facts
  /\ (forall fact, In fact (filterFacts facts criteria)
                   <-> In fact facts /\ satisfies criteria fact = true)
  /\ satisfies noCriteria = (fun _ => true)
  /\ (forall (h : store) (a : nat),
         let '(h', result) := filterFactsIn h a criteria in
         (forall i, (i < List.length h)%nat -> nth i h' [] = nth i h [])
         /\ nth result h' [] = filterFacts (nth a h []) criteria
         /\ (List.length h <= result)%nat).
Proof.
  assert (Heq : filterFacts facts criteria = filter (satisfies criteria) facts).
  { unfold filterFacts. apply filter_ext. intros f. apply keepFact_satisfies. }
  split; [exact Heq|]. split; [|split].
  - intros fact. rewrite Heq. apply filter_In.
  - reflexivity.
  - intros h a. unfold filterFactsIn. split; [|split].
    + intros i Hi. now rewrite app_nth1.
    + now rewrite nth_middle.
    + apply Nat.le_refl.
Qed.
End Conjunction.

End FilterFacts.

(** ** Doubles *)

Module NumberFacts.

Lemma nearestDouble_not_NaN (q : Q) : isNaN (nearestDouble q) = false.
Proof.
  unfold nearestDouble. destruct (Qred q) as [[|n|n] d]; [reflexivity| |];
    destruct (nearestPositive n d); reflexivity.
Qed.

Lemma nearestDouble_comp (x y : Q) : x == y -> nearestDouble x = nearestDouble y.
Proof. intros Hxy. unfold nearestDouble. now rewrite (Qred_complete x y Hxy). Qed.

Lemma roundHalfEven_comp (x y : Q) : x == y -> roundHalfEven x = roundHalfEven y.
Proof.
  intros Hxy. unfold roundHalfEven.
  rewrite (Qfloor_comp x y Hxy).
  assert (Hc : Qcompare (x - inject_Z (Qfloor y)) (1 # 2)
               = Qcompare (y - inject_Z (Qfloor y)) (1 # 2)).
  { apply Qcompare_comp; [now rewrite Hxy | reflexivity]. }
  now rewrite Hc.
Qed.

Lemma roundHalfEven_integer (m : Z) : roundHalfEven (inject_Z m) = m.
Proof.
  unfold roundHalfEven. rewrite Qfloor_Z.
  assert (Hc : Qcompare (inject_Z m - inject_Z m) (1 # 2) = Lt).
  { apply Qlt_alt. setoid_replace (inject_Z m - inject_Z m) with 0 by ring. reflexivity. }
  now rewrite Hc.
Qed.

Lemma Qred_integer (z : Z) : Qred (inject_Z z) = inject_Z z.
Proof.
  unfold Qred, inject_Z.
  pose proof (Z.ggcd_gcd z 1) as Hg.
  pose proof (Z.ggcd_correct_divisors z 1) as Hd.
  destruct (Z.ggcd z 1) as (g, (aa, bb)). cbn [fst snd] in *.
  rewrite Z.gcd_1_r in Hg. subst g. destruct Hd as [Ha Hb].
  replace aa with z by lia. replace bb with 1%Z by lia. reflexivity.
Qed.

Lemma pow2_spec (e : Z) : (e <= 0)%Z -> pow2 e * inject_Z (2 ^ (- e)) == 1.
Proof.
  intros He. unfold pow2. destruct (Z.leb_spec 0 e) as [H0|Hneg].
  - assert (e = 0%Z) by lia. subst e. reflexivity.
  - assert (Hpos : (0 < 2 ^ (- e))%Z) by (apply Z.pow_pos_nonneg; lia).
    unfold Qeq, Qmult, inject_Z. cbn [Qnum Qden].
    rewrite Pos.mul_1_r, Z2Pos.id by exact Hpos. lia.
Qed.

Lemma pow2_inverse (e : Z) :
  (e <= 0)%Z -> ~ pow2 e == 0 /\ / pow2 e == inject_Z (2 ^ (- e)).
Proof.
  intros He. pose proof (pow2_spec e He) as Hp.
  assert (Hnz : ~ pow2 e == 0).
  { intros Hz. rewrite Hz, Qmult_0_l in Hp. discriminate Hp. }
  split; [exact Hnz|].
  transitivity ((pow2 e * inject_Z (2 ^ (- e))) * / pow2 e).
  - rewrite Hp. ring.
  - field. exact Hnz.
Qed.

Lemma binaryExponent_integer (n : positive) :
  (binaryExponent n 1 <= Z.log2 (Zpos n))%Z.
Proof.
  unfold binaryExponent. change (Z.log2 1) with 0%Z. rewrite Z.sub_0_r.
  destruct (Qle_bool _ _); lia.
Qed.

Lemma nearestPositive_integer (n : positive) :
  (Zpos n <= 2 ^ 53)%Z -> nearestPositive n 1 = Some (inject_Z (Zpos n)).
Proof.
  intros Hn. unfold nearestPositive.
  pose proof (binaryExponent_integer n) as Hk.
  assert (Hlog : (Z.log2 (Zpos n) <= 53)%Z).
  { change 53%Z with (Z.log2 (2 ^ 53)). now apply Z.log2_le_mono. }
  set (e := Z.max (binaryExponent n 1 - 52) (-1074)).
  assert (Hnear : Qred (inject_Z (roundHalfEven ((Zpos n # 1) / pow2 e)) * pow2 e)
                  = inject_Z (Zpos n)).
  { destruct (Z.le_gt_cases e 0) as [He|He].
    - destruct (pow2_inverse e He) as [Hnz Hinv].
      assert (Hq : (Zpos n # 1) / pow2 e == inject_Z (Zpos n * 2 ^ (- e))).
      { unfold Qdiv. rewrite Hinv, inject_Z_mult. reflexivity. }
      rewrite (roundHalfEven_comp _ _ Hq), roundHalfEven_integer.
      transitivity (Qred (inject_Z (Zpos n))); [|apply Qred_integer].
      apply Qred_complete.
      rewrite inject_Z_mult, <- Hinv. field. exact Hnz.
    - assert (He1 : e = 1%Z) by lia.
      assert (Hn53 : Zpos n = (2 ^ 53)%Z).
      { assert (Hl : Z.log2 (Zpos n) = 53%Z) by lia.
        pose proof (Z.log2_spec (Zpos n) ltac:(lia)) as [Hlow _].
        rewrite Hl in Hlow. lia. }
      rewrite He1. injection Hn53 as ->. vm_compute. reflexivity. }
  rewrite Hnear.
  assert (Hsmall : Qle_bool (pow2 1024) (inject_Z (Zpos n)) = false).
  { destruct (Qle_bool (pow2 1024) (inject_Z (Zpos n))) eqn:Hle; [|reflexivity].
    apply Qle_bool_imp_le in Hle. change (pow2 1024) with (inject_Z (2 ^ 1024)) in Hle.
    rewrite <- Zle_Qle in Hle.
    assert ((2 ^ 53 < 2 ^ 1024)%Z) by (apply Z.pow_lt_mono_r; lia). lia. }
  now rewrite Hsmall.
Qed.

(** The integers of magnitude up to 2^53 are doubles. *)
Lemma nearestDouble_integer (z : Z) :
  (Z.abs z <= 2 ^ 53)%Z -> nearestDouble (inject_Z z) = Finite (inject_Z z).
Proof.
  intros Hz. unfold nearestDouble. rewrite Qred_integer.
  destruct z as [|n|n]; cbn [inject_Z].
  - reflexivity.
  - rewrite nearestPositive_integer by (cbn in Hz; lia). reflexivity.
  - rewrite nearestPositive_integer by (cbn in Hz; lia). reflexivity.
Qed.

(** Past 2^53 not every integer is one: 2^53 + 1 lies half way between two
    doubles and goes to the one with the even significand. *)
Example nearestDouble_past_safe :
  nearestDouble (inject_Z (2 ^ 53 + 1)) = Finite (inject_Z (2 ^ 53))
  /\ nearestDouble (inject_Z (2 ^ 53 + 3)) = Finite (inject_Z (2 ^ 53 + 4))
  /\ nearestDouble (1 # 10) = Finite (3602879701896397 # 36028797018963968)
  /\ nearestDouble (inject_Z (10 ^ 400)) = PosInfinity
  /\ nearestDouble (1 # Z.to_pos (10 ^ 400)) = Finite 0.
Proof. repeat split; vm_compute; reflexivity. Qed.

End NumberFacts.

(** ** Value parsing *)

Module ParserFacts.
Import XbrlParser NumberFacts.

Import ParserSpec.

Lemma parseFactValue_text (c : codeunit) (r : jsstring) :
  parseFactValue (VString (c :: r)) =
  if isNaN (parseFloat (cleanedText (c :: r))) then Return None
  else Return (Some (if markedNegative (c :: r)
                     then neg (parseFloat (cleanedText (c :: r)))
                     else parseFloat (cleanedText (c :: r)))).
Proof. reflexivity. Qed.

Lemma parseFactValue_not_text (v : jsvalue) :
  isString v = false -> parseFactValue v = Return None.
Proof.
  intros Hv. unfold parseFactValue. now rewrite Hv, orb_true_r.
Qed.

Lemma removeAll_Forall (p : codeunit -> bool) (s : jsstring) :
  Forall (fun c => p c = false) (removeAll p s).
Proof.
  apply Forall_forall. intros c Hin. apply filter_In in Hin.
  now apply negb_true_iff.
Qed.

Lemma removeAll_keeps (q p : codeunit -> bool) (s : jsstring) :
  Forall (fun c => q c = false) s -> Forall (fun c => q c = false) (removeAll p s).
Proof.
  rewrite !Forall_forall. intros Hs c Hin. apply filter_In in Hin. now apply Hs.
Qed.

Lemma cleanedText_no_space (s : jsstring) :
  Forall (fun c => isWhiteSpace c = false) (cleanedText s).
Proof.
  unfold cleanedText, separatorsRemoved.
  do 2 apply removeAll_keeps. apply removeAll_Forall.
Qed.

Lemma dropWhile_id {A} (p : A -> bool) (l : list A) :
  Forall (fun x => p x = false) l -> dropWhile p l = l.
Proof.
  destruct l as [|x l]; [reflexivity|]. intros Hl. cbn.
  now rewrite (Forall_inv Hl).
Qed.

Lemma unsignedLiteral_NaN (u : jsstring) :
  isNaN (unsignedLiteral u) =
  negb (startsWith u (js "Infinity")
        || match u with
           | c :: r =>
             isDigit c
             || ((c =? 46)%N && match r with d :: _ => isDigit d | [] => false end)
           | [] => false
           end).
Proof.
  unfold unsignedLiteral.
  destruct (startsWith u (js "Infinity")); [reflexivity|].
  destruct u as [|c r]; [reflexivity|].
  cbn [takeWhile dropWhile]. destruct (isDigit c) eqn:Hc.
  { match goal with
    | |- context [let '(_, _) := ?x in _] => destruct x
    end. apply nearestDouble_not_NaN. }
  destruct (c =? 46)%N; [|reflexivity].
  destruct r as [|d r]; [reflexivity|].
  cbn [takeWhile dropWhile]. destruct (isDigit d);
    [apply nearestDouble_not_NaN | reflexivity].
Qed.

Lemma neg_NaN (n : number) : isNaN (neg n) = isNaN n.
Proof. destruct n; reflexivity. Qed.

Lemma parseFloat_NaN (t : jsstring) :
  Forall (fun c => isWhiteSpace c = false) t ->
  isNaN (parseFloat t) = negb (beginsWithNumeral t).
Proof.
  intros Hws. unfold parseFloat, trimStart, beginsWithNumeral, afterSign.
  rewrite (dropWhile_id _ _ Hws).
  destruct t as [|c r]; [reflexivity|].
  destruct (c =? 43)%N; cbn [orb].
  - apply unsignedLiteral_NaN.
  - destruct (c =? 45)%N.
    + rewrite neg_NaN. apply unsignedLiteral_NaN.
    + apply unsignedLiteral_NaN.
Qed.

Lemma In_includes (c : codeunit) (l : jsstring) : In c l -> includes l [c] = true.
Proof.
  induction l as [|d l IH]; [intros []|].
  intros [->|Hin]; cbn [includes startsWith].
  - rewrite N.eqb_refl. now destruct l.
  - rewrite (IH Hin). apply orb_true_r.
Qed.

Lemma In_dropWhile {A} (p : A -> bool) (x : A) (l : list A) :
  In x l -> p x = false -> In x (dropWhile p l).
Proof.
  intros Hin Hp. induction l as [|y l IH]; [contradiction|].
  cbn. destruct (p y) eqn:Hy; [|exact Hin].
  destruct Hin as [->|Hin]; [congruence | now apply IH].
Qed.

Lemma In_trim (c : codeunit) (s : jsstring) :
  In c s -> isWhiteSpace c = false -> In c (trim s).
Proof.
  intros Hin Hc. unfold trim, trimEnd, trimStart.
  apply -> in_rev. apply In_dropWhile; [|exact Hc].
  apply -> in_rev. now apply In_dropWhile.
Qed.

Lemma In_removeAll (p : codeunit -> bool) (c : codeunit) (s : jsstring) :
  In c s -> p c = false -> In c (removeAll p s).
Proof.
  intros Hin Hp. apply filter_In. split; [exact Hin | now rewrite Hp].
Qed.

Lemma glyph_cases (c : codeunit) :
  isNegativeGlyph c = true -> c = 9651%N \/ c = 9650%N \/ c = 65293%N.
Proof.
  unfold isNegativeGlyph. rewrite !orb_true_iff, !N.eqb_eq. tauto.
Qed.

Lemma dropWhile_snoc {A} (p : A -> bool) (l : list A) (x : A) :
  p x = false -> dropWhile p (l ++ [x]) = dropWhile p l ++ [x].
Proof.
  intros Hx. induction l as [|y l IH]; cbn.
  - now rewrite Hx.
  - destruct (p y); [exact IH | reflexivity].
Qed.

Lemma separatorsRemoved_minus (c : codeunit) (r : jsstring) :
  c = 45%N -> exists t, separatorsRemoved (c :: r) = c :: t.
Proof.
  intros ->. unfold separatorsRemoved, trim, trimEnd, trimStart.
  cbn [dropWhile]. change (isWhiteSpace 45%N) with false. cbv iota.
  cbn [rev]. rewrite dropWhile_snoc by reflexivity. rewrite rev_unit.
  eexists. reflexivity.
Qed.

Lemma written_marked (s : jsstring) :
  writtenNegative s = true -> markedNegative s = true.
Proof.
  unfold writtenNegative, markedNegative. intros Hw.
  apply orb_true_iff in Hw. destruct Hw as [Hg|Hm].
  - apply existsb_exists in Hg. destruct Hg as (c & Hin & Hc).
    assert (Hsep : In c (separatorsRemoved s)).
    { unfold separatorsRemoved.
      destruct (glyph_cases c Hc) as [-> | [-> | ->]];
        repeat apply In_removeAll; try reflexivity;
        apply In_trim; auto. }
    apply In_includes in Hsep.
    destruct (glyph_cases c Hc) as [-> | [-> | ->]].
    + do 3 (apply orb_true_iff; left). exact Hsep.
    + do 2 (apply orb_true_iff; left). apply orb_true_iff; right. exact Hsep.
    + apply orb_true_iff; left. apply orb_true_iff; right. exact Hsep.
  - destruct s as [|c r]; [discriminate|].
    change (js "-") with [45%N] in *. cbn [startsWith] in Hm.
    apply andb_true_iff in Hm. destruct Hm as [Hc _].
    apply N.eqb_eq in Hc.
    destruct (separatorsRemoved_minus c r (eq_sym Hc)) as [t ->].
    cbn [startsWith]. rewrite <- Hc, N.eqb_refl.
    apply orb_true_iff. right. now destruct t.
Qed.

(** C4, amended. [parseFactValue] never throws. It returns null when the input
    is not a text, when it is empty, and when the cleaned text does not begin
    with a decimal numeral; when it does begin with one, the number read from
    that numeral is returned and what follows it is ignored. When a negative
    glyph occurs in the text or the text starts with ASCII minus, a result
    that is not null is the negated magnitude. *)
Theorem parseFactValue_null_or_signed :
  (forall v, exists r, parseFactValue v = Return r)
  /\ (forall v, isString v = false -> parseFactValue v = Return None)
  /\ parseFactValue (VString []) = Return None
  /\ (forall s, beginsWithNumeral (cleanedText s) = false ->
                parseFactValue (VString s) = Return None)
  /\ (forall s, s <> [] -> beginsWithNumeral (cleanedText s) = true ->
                parseFactValue (VString s)
                = Return (Some (if markedNegative s
                                then neg (parseFloat (cleanedText s))
                                else parseFloat (cleanedText s))))
  /\ (forall s, writtenNegative s = true ->
                parseFactValue (VString s) = Return None
                \/ parseFactValue (VString s)
                   = Return (Some (neg (parseFloat (cleanedText s))))).
Proof.
  assert (Htext : forall s, s <> [] ->
            parseFactValue (VString s) =
            if beginsWithNumeral (cleanedText s)
            then Return (Some (if markedNegative s
                               then neg (parseFloat (cleanedText s))
                               else parseFloat (cleanedText s)))
            else Return None).
  { intros [|c r] Hs; [contradiction|].
    rewrite parseFactValue_text, parseFloat_NaN by apply cleanedText_no_space.
    now destruct (beginsWithNumeral _). }
  split; [|split; [|split; [|split; [|split]]]].
  - intros v. destruct (isString v) eqn:Hv.
    + destruct v as [| | | |[|c r]|]; try discriminate Hv.
      * eexists; reflexivity.
      * rewrite Htext by discriminate.
        destruct (beginsWithNumeral _); eexists; reflexivity.
    + exists None. now apply parseFactValue_not_text.
  - apply parseFactValue_not_text.
  - reflexivity.
  - intros [|c r] Hb; [reflexivity|]. rewrite Htext by discriminate. now rewrite Hb.
  - intros s Hs Hb. rewrite Htext by exact Hs. now rewrite Hb.
  - intros [|c r] Hw; [discriminate|]. rewrite Htext by discriminate.
    rewrite (written_marked _ Hw). destruct (beginsWithNumeral _); auto.
Qed.

Lemma parseFactValue_null_or_signed_witness :
  isString VNull = false
  /\ parseFactValue VNull = Return None
  /\ beginsWithNumeral (cleanedText (js "not a number")) = false
  /\ parseFactValue (VString (js "not a number")) = Return None
  /\ js "△1,500" <> []
  /\ beginsWithNumeral (cleanedText (js "△1,500")) = true
  /\ writtenNegative (js "△1,500") = true
  /\ parseFactValue (VString (js "△1,500")) = Return (Some (Finite (-1500))).
Proof.
  pose proof parseFactValue_null_or_signed as (_ & Hnot & _ & Hnull & Hnum & Hneg).
  split; [reflexivity|].
  split; [apply Hnot; reflexivity|].
  split; [reflexivity|].
  split; [apply Hnull; reflexivity|].
  split; [discriminate|].
  split; [reflexivity|].
  split; [reflexivity|].
  destruct (Hneg (js "△1,500") eq_refl) as [Hn|Hn].
  - rewrite (Hnum (js "△1,500")) in Hn; [discriminate Hn | discriminate | reflexivity].
  - rewrite Hn. reflexivity.
Defined.

(** C4 as stated fails: "12abc" is not a valid number, yet the result is 12. *)
Lemma parseFactValue_trailing_text_counterexample :
  isValidNumber (cleanedText (js "12abc")) = false
  /\ parseFactValue (VString (js "12abc")) = Return (Some (Finite 12))
  /\ ~ nullWhenNotValid (js "12abc").
Proof.
  split; [reflexivity|]. split; [reflexivity|].
  intros Hclaim. specialize (Hclaim eq_refl). discriminate Hclaim.
Qed.

(** *** Round trip on the decimal renderings of the integers *)

Example formatWithCommas_millions : formatWithCommas 1234567 = js "1,234,567".
Proof. reflexivity. Qed.

Example formatWithCommas_thousand : formatWithCommas 1000 = js "1,000".
Proof. reflexivity. Qed.

Example formatWithCommas_small : formatWithCommas 0 = js "0" /\ formatWithCommas 999 = js "999".
Proof. split; reflexivity. Qed.

Lemma digitsValue_snoc (l : jsstring) (d : codeunit) :
  digitsValue (l ++ [d]) = (digitsValue l * 10 + (Z.of_N d - 48))%Z.
Proof. unfold digitsValue. now rewrite fold_left_app. Qed.

Lemma digitsOfFuel_value (fuel : nat) :
  forall n, (n < 2 ^ N.of_nat fuel)%N -> digitsValue (digitsOfFuel fuel n) = Z.of_N n.
Proof.
  induction fuel as [|f IH]; intros n Hn.
  - cbn in Hn. assert (n = 0%N) by lia. now subst.
  - cbn [digitsOfFuel].
    pose proof (N.div_mod n 10 ltac:(discriminate)) as Hdm.
    pose proof (N.mod_lt n 10 ltac:(discriminate)) as Hlt.
    destruct (N.eqb_spec (n / 10) 0) as [Hz|Hnz].
    + unfold digitsValue. cbn [fold_left]. lia.
    + rewrite digitsValue_snoc, IH; [lia|].
      apply N.Div0.div_lt_upper_bound.
      rewrite Nnat.Nat2N.inj_succ, N.pow_succ_r' in Hn. lia.
Qed.

Lemma isDigit_bounds (c : codeunit) : isDigit c = true <-> (48 <= c <= 57)%N.
Proof. unfold isDigit. rewrite andb_true_iff, !N.leb_le. tauto. Qed.

Lemma digitsOfFuel_digits (fuel : nat) :
  forall n, Forall (fun c => isDigit c = true) (digitsOfFuel fuel n).
Proof.
  induction fuel as [|f IH]; intros n; cbn [digitsOfFuel]; [constructor|].
  assert (Hd : isDigit (48 + n mod 10)%N = true).
  { apply isDigit_bounds. pose proof (N.mod_lt n 10 ltac:(discriminate)) as Hlt.
    revert Hlt. generalize (n mod 10)%N. intros m Hlt. lia. }
  destruct (n / 10 =? 0)%N.
  - now constructor.
  - apply Forall_app. split; [apply IH | now constructor].
Qed.

Lemma digitsOf_value (n : N) : digitsValue (digitsOf n) = Z.of_N n.
Proof.
  apply digitsOfFuel_value.
  rewrite Nnat.Nat2N.inj_succ, Nnat.N2Nat.id, N.pow_succ_r'.
  pose proof (N.size_gt n). lia.
Qed.

Lemma digitsOf_digits (n : N) : Forall (fun c => isDigit c = true) (digitsOf n).
Proof. apply digitsOfFuel_digits. Qed.

Lemma digitsOf_head (n : N) : exists c r, digitsOf n = c :: r.
Proof.
  unfold digitsOf. cbn [digitsOfFuel]. destruct (n / 10 =? 0)%N.
  - eexists _, _. reflexivity.
  - destruct (digitsOfFuel _ _) as [|c r]; eexists _, _; reflexivity.
Qed.

Lemma removeAll_id (p : codeunit -> bool) (s : jsstring) :
  Forall (fun c => p c = false) s -> removeAll p s = s.
Proof.
  intros Hs. apply forallb_filter_id. apply forallb_forall.
  intros c Hin. rewrite Forall_forall in Hs. now rewrite (Hs c Hin).
Qed.

Lemma trim_id (s : jsstring) :
  Forall (fun c => isWhiteSpace c = false) s -> trim s = s.
Proof.
  intros Hs. unfold trim, trimEnd, trimStart.
  rewrite (dropWhile_id _ s Hs), dropWhile_id by now apply Forall_rev.
  apply rev_involutive.
Qed.

Lemma groupThousands_step (a b c d : codeunit) (rest : jsstring) :
  groupThousands (a :: b :: c :: d :: rest)
  = a :: b :: c :: 44%N :: groupThousands (d :: rest).
Proof. reflexivity. Qed.

Lemma groupThousands_shape (p : codeunit -> Prop) :
  p 44%N -> forall n l, (List.length l <= n)%nat -> Forall p l ->
  Forall p (groupThousands l).
Proof.
  intros Hcomma. induction n as [|n IH]; intros l Hlen Hl.
  - destruct l; [constructor | cbn in Hlen; lia].
  - destruct l as [|a [|b [|c [|d rest]]]]; try exact Hl.
    rewrite groupThousands_step.
    inversion Hl as [|? ? Ha Hl1]; subst. inversion Hl1 as [|? ? Hb Hl2]; subst.
    inversion Hl2 as [|? ? Hc Hl3]; subst.
    do 4 (constructor; [assumption|]).
    apply IH; [cbn in *; lia | assumption].
Qed.

Lemma groupThousands_commas (n : nat) :
  forall l, (List.length l <= n)%nat ->
  removeAll (fun c => (c =? 44)%N) (groupThousands l)
  = removeAll (fun c => (c =? 44)%N) l.
Proof.
  induction n as [|n IH]; intros l Hlen.
  - destruct l; [reflexivity | cbn in Hlen; lia].
  - destruct l as [|a [|b [|c [|d rest]]]]; try reflexivity.
    rewrite groupThousands_step. unfold removeAll in *.
    cbn [filter]. rewrite N.eqb_refl. cbn [negb].
    rewrite IH by (cbn in *; lia). reflexivity.
Qed.

(** A digit is none of the characters the cleaning looks for. *)
Lemma digit_plain (c : codeunit) :
  isDigit c = true ->
  isWhiteSpace c = false /\ (c =? 44)%N = false /\ (c =? 12288)%N = false
  /\ (isNegativeGlyph c || (c =? 45)%N) = false
  /\ (c =? 43)%N = false /\ (c =? 45)%N = false /\ (73 =? c)%N = false.
Proof.
  intros Hc. apply isDigit_bounds in Hc.
  assert (Hcases : In c [48; 49; 50; 51; 52; 53; 54; 55; 56; 57]%N).
  { cbn. lia. }
  cbn in Hcases. repeat destruct Hcases as [<-|Hcases]; try contradiction;
    repeat split; reflexivity.
Qed.

Lemma digits_plain (p : codeunit -> bool) (ds : jsstring) :
  (forall c, isDigit c = true -> p c = false) ->
  Forall (fun c => isDigit c = true) ds -> Forall (fun c => p c = false) ds.
Proof.
  intros Hp Hds. eapply Forall_impl; [|exact Hds]. exact Hp.
Qed.

Lemma takeWhile_all {A} (p : A -> bool) (l : list A) :
  Forall (fun x => p x = true) l -> takeWhile p l = l /\ dropWhile p l = [].
Proof.
  induction 1 as [|x l Hx _ [IH1 IH2]]; cbn; [auto|].
  rewrite Hx. split; [now f_equal | assumption].
Qed.

Lemma parseFloat_digits (ds : jsstring) :
  ds <> [] -> Forall (fun c => isDigit c = true) ds ->
  parseFloat ds = nearestDouble (inject_Z (digitsValue ds)).
Proof.
  intros Hne Hds. unfold parseFloat, trimStart.
  rewrite dropWhile_id by (apply digits_plain; [apply digit_plain | exact Hds]).
  destruct ds as [|c r]; [contradiction|].
  pose proof (digit_plain c (Forall_inv Hds)) as (_ & _ & _ & _ & Hplus & Hminus & HI).
  rewrite Hplus, Hminus. unfold unsignedLiteral.
  change (js "Infinity") with (73%N :: js "nfinity"). cbn [startsWith]. rewrite HI.
  cbn [andb].
  destruct (takeWhile_all isDigit (c :: r) Hds) as [-> ->].
  cbn [exponentPart List.length]. rewrite app_nil_r.
  unfold scale10. cbn [Z.of_nat Z.sub Z.opp Z.add Z.leb Z.compare].
  now rewrite Z.pow_0_r, Z.mul_1_r.
Qed.

Lemma includes_one (l : jsstring) (c : codeunit) :
  Forall (fun d => (c =? d)%N = false) l -> includes l [c] = false.
Proof.
  induction 1 as [|d l Hd _ IH]; [reflexivity|].
  cbn [includes startsWith]. now rewrite Hd, IH.
Qed.

Lemma digits_unmarked (ds : jsstring) :
  Forall (fun c => isDigit c = true) ds ->
  includes ds (js "△") || includes ds (js "▲") || includes ds (js "－")
  || startsWith ds (js "-") = false.
Proof.
  intros Hds.
  assert (Hg : forall g, isNegativeGlyph g = true -> includes ds [g] = false).
  { intros g Hg. apply includes_one. eapply Forall_impl; [|exact Hds].
    intros d Hd. destruct (N.eqb_spec g d) as [->|]; [|reflexivity].
    pose proof (digit_plain d Hd) as (_ & _ & _ & Hn & _).
    apply orb_false_iff in Hn. destruct Hn. congruence. }
  change (js "△") with [9651%N]. change (js "▲") with [9650%N].
  change (js "－") with [65293%N]. change (js "-") with [45%N].
  rewrite !Hg by reflexivity. cbn [orb].
  destruct ds as [|c r]; [reflexivity|]. cbn [startsWith].
  pose proof (digit_plain c (Forall_inv Hds)) as (_ & _ & _ & _ & _ & Hminus & _).
  rewrite N.eqb_sym, Hminus. reflexivity.
Qed.

Lemma parseFactValue_nonempty (s : jsstring) :
  s <> [] ->
  parseFactValue (VString s) =
  if isNaN (parseFloat (cleanedText s)) then Return None
  else Return (Some (if markedNegative s
                     then neg (parseFloat (cleanedText s))
                     else parseFloat (cleanedText s))).
Proof.
  destruct s as [|c r]; [contradiction|]. intros _. apply parseFactValue_text.
Qed.

(** What the cleaning leaves of a text made of digits after a prefix [pre]
    of marks that are neither white space nor separators. *)
Lemma separatorsRemoved_plain (s : jsstring) :
  Forall (fun c => isWhiteSpace c = false) s ->
  Forall (fun c => (c =? 44)%N = false) s ->
  Forall (fun c => (c =? 12288)%N = false) s ->
  separatorsRemoved s = s.
Proof.
  intros Hws Hcomma Hfw. unfold separatorsRemoved.
  rewrite (trim_id s Hws), (removeAll_id _ s Hcomma), (removeAll_id _ s Hws).
  now apply removeAll_id.
Qed.

Lemma format_commas_removed (n : N) :
  removeAll (fun c => (c =? 44)%N) (formatWithCommas n) = digitsOf n.
Proof.
  unfold formatWithCommas, removeAll.
  rewrite filter_rev.
  fold (removeAll (fun c => (c =? 44)%N) (groupThousands (rev (digitsOf n)))).
  rewrite (groupThousands_commas _ _ (Nat.le_refl _)).
  unfold removeAll. rewrite filter_rev, rev_involutive.
  apply removeAll_id. apply digits_plain; [apply digit_plain | apply digitsOf_digits].
Qed.

Lemma separatorsRemoved_format (n : N) :
  separatorsRemoved (formatWithCommas n) = digitsOf n.
Proof.
  pose proof (digitsOf_digits n) as Hds.
  unfold separatorsRemoved. rewrite trim_id.
  - rewrite format_commas_removed.
    rewrite (removeAll_id isWhiteSpace)
      by (apply digits_plain; [apply digit_plain | exact Hds]).
    apply removeAll_id. apply digits_plain; [apply digit_plain | exact Hds].
  - unfold formatWithCommas. apply Forall_rev.
    apply (groupThousands_shape (fun c => isWhiteSpace c = false) eq_refl _ _
             (Nat.le_refl _)).
    apply Forall_rev. apply digits_plain; [apply digit_plain | exact Hds].
Qed.

Lemma removeAll_head (p : codeunit -> bool) (c : codeunit) (s : jsstring) :
  p c = true -> removeAll p (c :: s) = removeAll p s.
Proof. intros Hc. unfold removeAll. cbn [filter]. now rewrite Hc. Qed.

(** Whatever the integer, the three texts parse to the double nearest to it,
    negated after a triangle or a minus. *)
Lemma parseFactValue_renderings (n : N) :
  parseFactValue (VString (formatWithCommas n))
  = Return (Some (nearestDouble (inject_Z (Z.of_N n))))
  /\ parseFactValue (VString (js "△" ++ digitsOf n))
     = Return (Some (neg (nearestDouble (inject_Z (Z.of_N n)))))
  /\ parseFactValue (VString (js "-" ++ digitsOf n))
     = Return (Some (neg (nearestDouble (inject_Z (Z.of_N n))))).
Proof.
  pose proof (digitsOf_digits n) as Hds.
  destruct (digitsOf_head n) as (c0 & r0 & Hhead).
  assert (Hne : digitsOf n <> []) by (rewrite Hhead; discriminate).
  assert (Hnum : parseFloat (digitsOf n) = nearestDouble (inject_Z (Z.of_N n))).
  { rewrite parseFloat_digits, digitsOf_value by assumption. reflexivity. }
  assert (Hstrip : removeAll (fun c => isNegativeGlyph c || (c =? 45)%N) (digitsOf n)
                   = digitsOf n).
  { apply removeAll_id. apply digits_plain; [apply digit_plain | exact Hds]. }
  assert (Hmark : forall g, isWhiteSpace g = false -> (g =? 44)%N = false ->
                   (g =? 12288)%N = false ->
                   separatorsRemoved (g :: digitsOf n) = g :: digitsOf n).
  { intros g Hg1 Hg2 Hg3. apply separatorsRemoved_plain; constructor; try assumption;
      (apply digits_plain; [apply digit_plain | exact Hds]). }
  split; [|split].
  - rewrite parseFactValue_nonempty.
    + unfold cleanedText, markedNegative.
      rewrite separatorsRemoved_format, Hstrip, Hnum, digits_unmarked by exact Hds.
      now rewrite nearestDouble_not_NaN.
    + intros Hnil. pose proof (separatorsRemoved_format n) as Hsep.
      rewrite Hnil in Hsep. apply Hne. symmetry. exact Hsep.
  - change (js "△" ++ digitsOf n) with (9651%N :: digitsOf n).
    rewrite parseFactValue_nonempty by discriminate.
    unfold cleanedText, markedNegative. rewrite Hmark by reflexivity.
    rewrite removeAll_head by reflexivity.
    rewrite Hstrip, Hnum.
    change (js "△") with [9651%N].
    rewrite (In_includes 9651%N (9651%N :: digitsOf n)) by (left; reflexivity).
    now rewrite nearestDouble_not_NaN.
  - change (js "-" ++ digitsOf n) with (45%N :: digitsOf n).
    rewrite parseFactValue_nonempty by discriminate.
    unfold cleanedText, markedNegative. rewrite Hmark by reflexivity.
    rewrite removeAll_head by reflexivity.
    rewrite Hstrip, Hnum.
    replace (startsWith (45%N :: digitsOf n) (js "-")) with true
      by (rewrite Hhead; reflexivity).
    rewrite orb_true_r. now rewrite nearestDouble_not_NaN.
Qed.

(** C5, amended. For every integer N with 0 <= N <= 2^53, parsing the
    comma-grouped decimal rendering of N gives N, and parsing the digits of N
    after "△" or after "-" gives -N. *)
Theorem parseFactValue_round_trip (n : N) :
  (n <= 2 ^ 53)%N -> roundTrip n.
Proof.
  intros Hn. unfold roundTrip.
  destruct (parseFactValue_renderings n) as (Hcommas & Htriangle & Hminus).
  assert (Hsafe : nearestDouble (inject_Z (Z.of_N n)) = Finite (inject_Z (Z.of_N n))).
  { apply nearestDouble_integer.
    change (2 ^ 53)%Z with (Z.of_N (2 ^ 53)). lia. }
  rewrite Hcommas, Htriangle, Hminus, Hsafe.
  assert (Hopp : - inject_Z (Z.of_N n) = inject_Z (- Z.of_N n)) by reflexivity.
  cbn [neg]. rewrite Hopp. auto.
Qed.

Lemma parseFactValue_round_trip_witness :
  (1234567 <= 2 ^ 53)%N
  /\ parseFactValue (VString (js "1,234,567")) = Return (Some (Finite 1234567))
  /\ parseFactValue (VString (js "△1234567")) = Return (Some (Finite (-1234567)))
  /\ parseFactValue (VString (js "-1234567")) = Return (Some (Finite (-1234567))).
Proof.
  assert (Hle : (1234567 <= 2 ^ 53)%N) by (vm_compute; discriminate).
  split; [exact Hle|].
  exact (parseFactValue_round_trip 1234567 Hle).
Defined.

(** C5 as stated fails past 2^53: the rendering of 2^53 + 1 parses to 2^53,
    the double nearest to it. *)
Lemma parseFactValue_round_trip_counterexample :
  formatWithCommas (2 ^ 53 + 1) = js "9,007,199,254,740,993"
  /\ parseFactValue (VString (js "9,007,199,254,740,993"))
     = Return (Some (Finite 9007199254740992))
  /\ parseFactValue (VString (js "-9007199254740993"))
     = Return (Some (Finite (-9007199254740992)))
  /\ ~ roundTrip (2 ^ 53 + 1).
Proof.
  split; [vm_compute; reflexivity|].
  split; [vm_compute; reflexivity|].
  split; [vm_compute; reflexivity|].
  intros (Hcommas & _). vm_compute in Hcommas. discriminate Hcommas.
Qed.

End ParserFacts.

(** ** Lists, sorting and sums *)

Module ListFacts.
Lemma insertSorted_perm {A} (cmp : A -> A -> Q) (x : A) (l : list A) :
  Permutation (insertSorted cmp x l) (x :: l).
Proof.
  induction l as [|y l IH]; cbn; [reflexivity|].
  destruct (Qle_bool (cmp x y) 0); [reflexivity|].
  rewrite IH. apply perm_swap.
Qed.

Lemma sort_perm {A} (cmp : A -> A -> Q) (l : list A) : Permutation (JS.sort cmp l) l.
Proof.
  induction l as [|x l IH]; cbn; [reflexivity|].
  unfold JS.sort in IH. rewrite insertSorted_perm. now constructor.
Qed.

Lemma sort_In {A} (cmp : A -> A -> Q) (l : list A) (x : A) :
  In x (JS.sort cmp l) <-> In x l.
Proof.
  split; apply Permutation_in; [|symmetry]; apply sort_perm.
Qed.

Lemma insertSorted_head {A} (cmp : A -> A -> Q) (x y : A) (l : list A) :
  cmp y x <= 0 -> HdRel (fun a b => cmp a b <= 0) y l ->
  HdRel (fun a b => cmp a b <= 0) y (insertSorted cmp x l).
Proof.
  intros Hyx Hy. destruct l as [|z l]; cbn.
  - now constructor.
  - destruct (Qle_bool (cmp x z) 0); constructor; [exact Hyx|].
    now apply HdRel_inv in Hy.
Qed.

(** A comparator that orders any two elements one way or the other sorts. *)
Lemma sort_sorted {A} (cmp : A -> A -> Q) (l : list A) :
  (forall a b, cmp a b <= 0 \/ cmp b a <= 0) ->
  Sorted (fun a b => cmp a b <= 0) (JS.sort cmp l).
Proof.
  intros Htotal. induction l as [|x l IH]; cbn; [constructor|].
  unfold JS.sort in IH. revert IH. generalize (fold_right (insertSorted cmp) [] l).
  intros s Hs. induction s as [|y s IHs]; cbn.
  - repeat constructor.
  - destruct (Qle_bool (cmp x y) 0) eqn:Hxy.
    + constructor; [exact Hs|]. constructor. now apply Qle_bool_iff.
    + apply Sorted_inv in Hs. destruct Hs as [Hs Hy]. constructor.
      * now apply IHs.
      * apply insertSorted_head; [|exact Hy].
        destruct (Htotal x y) as [Hle|Hle]; [|exact Hle].
        apply Qle_bool_iff in Hle. congruence.
Qed.

Lemma str_compare_antisym (a b : jsstring) :
  str_compare b a = CompOpp (str_compare a b).
Proof.
  revert b. induction a as [|c a IH]; intros [|d b]; cbn; try reflexivity.
  rewrite (N.compare_antisym c d). destruct (c ?= d)%N; cbn; auto.
Qed.

Lemma defaultCompare_total (a b : jsstring) :
  defaultCompare a b <= 0 \/ defaultCompare b a <= 0.
Proof.
  unfold defaultCompare. rewrite (str_compare_antisym a b).
  destruct (str_compare a b); cbn; [left | left | right]; discriminate.
Qed.

Lemma distinctBy_In {A} (eqb : A -> A -> bool) (l : list A) (x : A) :
  In x (distinctBy eqb l) -> In x l.
Proof.
  induction l as [|y l IH]; cbn; [auto|].
  intros [->|Hin]; [now left|]. right. apply IH.
  now apply filter_In in Hin.
Qed.

Lemma In_distinctBy (l : list jsstring) (x : jsstring) :
  In x l -> In x (distinctBy str_eqb l).
Proof.
  induction l as [|y l IH]; cbn; [auto|].
  intros Hin. destruct (list_eq_dec N.eq_dec y x) as [->|Hne]; [now left|].
  right. apply filter_In. split.
  - apply IH. destruct Hin as [Heq|Hin]; [contradiction | exact Hin].
  - unfold str_eqb. destruct (list_eq_dec N.eq_dec y x); [contradiction | reflexivity].
Qed.

Lemma Qlt_bool_iff (a b : Q) : Qlt_bool a b = true <-> a < b.
Proof.
  unfold Qlt_bool. rewrite negb_true_iff. split.
  - intros Hle. apply Qnot_le_lt. intros Hba.
    apply Qle_bool_iff in Hba. congruence.
  - intros Hlt. destruct (Qle_bool b a) eqn:Hle; [|reflexivity].
    apply Qle_bool_iff in Hle. exfalso. exact (Qlt_not_le _ _ Hlt Hle).
Qed.

Lemma Qlt_bool_false (a b : Q) : Qlt_bool a b = false <-> b <= a.
Proof.
  unfold Qlt_bool. rewrite negb_false_iff. apply Qle_bool_iff.
Qed.

Lemma str_eqb_eq (a b : jsstring) : str_eqb a b = true <-> a = b.
Proof.
  unfold str_eqb. destruct (list_eq_dec N.eq_dec a b); split; congruence.
Qed.

Lemma str_eqb_refl (a : jsstring) : str_eqb a a = true.
Proof. now apply str_eqb_eq. Qed.

End ListFacts.

(** ** Time-series analyzer *)

Module TimeSeriesFacts.
Import TimeSeriesAnalyzer ListFacts.

Import TimeSeriesSpec.

(** C1, at a table with two periods. The periods are sorted ascending, so the
    first of [periodTotals] is the earliest; the source takes the last one as
    [firstTotal] and the first one as [lastTotal]. With 100 in 2022 and 200
    in 2023 the change from earliest to latest is +100 percent, which is
    "increasing"; the source computes -50 percent and answers
    "decreasing". *)
Theorem calculateTrends_doubling_decreasing :
  direction (calculateTrends doubling) = decreasing
  /\ option_map periodTotals (detail (calculateTrends doubling))
     = Some [ {| pt_period := js "2022-12-31"; total := 100 |};
              {| pt_period := js "2023-12-31"; total := 200 |} ]
  /\ option_map firstPeriod (detail (calculateTrends doubling))
     = Some {| pt_period := js "2023-12-31"; total := 200 |}
  /\ option_map overallChange (detail (calculateTrends doubling)) = Some (-100)
  /\ directionOfChange (changePercent 100 200) = increasing
  /\ direction (calculateTrends [revenueRow "2023-12-31" 200 "Total"]) = insufficient_data.
Proof. repeat split; reflexivity. Qed.

(** C2, at a table with two periods. The pairs are formed from the ascending
    list of periods with [periods[i]] as current and [periods[i + 1]] as
    prior, so the older period is the current one and the newer one the
    prior one. When revenue doubles from 100 in 2022 to 200 in 2023 the one
    entry runs from 2023 to 2022 with prior 200, current 100 and rate -50,
    where growth from the next-older period to the newer one is +100: the
    list holds no entry from 2022 to 2023. *)
Theorem calculateGrowthRates_doubling_negative :
  option_map
    (fun a => map (fun e => (from e, to e, gr_geography e, priorValue e, currentValue e,
                             Qred (absoluteChange e), Qred (growthRate e))) (rates a))
    (calculateGrowthRates doubling [js "2023-12-31"; js "2022-12-31"])
  = Some [(js "2023-12-31", js "2022-12-31", js "Total", 200, 100, -100, -50)]
  /\ Qred (changePercent 100 200) = 100
  /\ ~ growthAsWorded doubling [js "2023-12-31"; js "2022-12-31"].
Proof.
  split; [reflexivity|]. split; [reflexivity|].
  intros Hclaim.
  destruct (Hclaim _ eq_refl (js "2022-12-31") (js "2023-12-31") (js "Total"))
    as (e & Hin & _ & Hfrom & _).
  - left. reflexivity.
  - exists (revenueRow "2023-12-31" 200 "Total").
    split; [left; reflexivity|]. split; [reflexivity | right; reflexivity].
  - destruct Hin as [<-|[]]. discriminate Hfrom.
Qed.

Lemma pairGrowthRates_entry (timeSeries : list TimeSeriesRow)
    (currentPeriod priorPeriod : jsstring) (e : GrowthRate) :
  In e (pairGrowthRates timeSeries currentPeriod priorPeriod) ->
  from e = priorPeriod /\ to e = currentPeriod
  /\ priorValue e = geographyTotal (inPeriod timeSeries priorPeriod) (gr_geography e)
  /\ currentValue e = geographyTotal (inPeriod timeSeries currentPeriod) (gr_geography e)
  /\ 0 < priorValue e
  /\ growthRate e
     = toFixed 2 ((currentValue e - priorValue e) / priorValue e * 100).
Proof.
  unfold pairGrowthRates. intros Hin. apply in_flat_map in Hin.
  destruct Hin as (geo & _ & Hin).
  destruct (Qlt_bool 0 _) eqn:Hpos; [|contradiction].
  destruct Hin as [<-|[]]. cbn. apply Qlt_bool_iff in Hpos. auto 10.
Qed.

Lemma inPeriod_In (timeSeries : list TimeSeriesRow) (p : jsstring) (row : TimeSeriesRow) :
  In row (inPeriod timeSeries p) <-> In row timeSeries /\ period row = p.
Proof.
  unfold inPeriod. rewrite filter_In, str_eqb_eq. reflexivity.
Qed.

Lemma geographies_present (timeSeries : list TimeSeriesRow) (a b geo : jsstring) :
  In geo (distinctBy str_eqb (map geography (inPeriod timeSeries a)
                              ++ map geography (inPeriod timeSeries b)))
  <-> present timeSeries a b geo.
Proof.
  unfold present. split.
  - intros Hin. apply distinctBy_In, in_app_or in Hin.
    destruct Hin as [Hin|Hin]; apply in_map_iff in Hin;
      destruct Hin as (row & Hgeo & Hrow); apply inPeriod_In in Hrow;
      destruct Hrow as [Hrow Hp]; exists row; auto.
  - intros (row & Hrow & Hgeo & Hp). apply In_distinctBy, in_or_app.
    destruct Hp as [Hp|Hp]; [left | right];
      apply in_map_iff; exists row; split; try exact Hgeo;
      apply inPeriod_In; auto.
Qed.

Lemma pairGrowthRates_present (timeSeries : list TimeSeriesRow)
    (currentPeriod priorPeriod : jsstring) (e : GrowthRate) :
  In e (pairGrowthRates timeSeries currentPeriod priorPeriod) ->
  present timeSeries currentPeriod priorPeriod (gr_geography e).
Proof.
  unfold pairGrowthRates. intros Hin. apply in_flat_map in Hin.
  destruct Hin as (geo & Hgeo & Hin).
  destruct (Qlt_bool 0 _); [|contradiction].
  destruct Hin as [<-|[]]. cbn. now apply geographies_present.
Qed.

Lemma pairGrowthRates_complete (timeSeries : list TimeSeriesRow)
    (currentPeriod priorPeriod geo : jsstring) :
  present timeSeries currentPeriod priorPeriod geo ->
  0 < geographyTotal (inPeriod timeSeries priorPeriod) geo ->
  exists e,
    In e (pairGrowthRates timeSeries currentPeriod priorPeriod)
    /\ to e = currentPeriod /\ from e = priorPeriod /\ gr_geography e = geo.
Proof.
  intros Hpresent Hpos. apply geographies_present in Hpresent.
  apply Qlt_bool_iff in Hpos. unfold pairGrowthRates.
  eexists. split.
  - apply in_flat_map. exists geo. split; [exact Hpresent|].
    rewrite Hpos. left. reflexivity.
  - auto.
Qed.


Lemma rates_from_pairs (timeSeries : list TimeSeriesRow) (periodData : list jsstring)
    (analysis : GrowthAnalysis) (e : GrowthRate) :
  calculateGrowthRates timeSeries periodData = Some analysis ->
  In e (rates analysis) ->
  exists currentPeriod priorPeriod,
    In (currentPeriod, priorPeriod) (adjacent (JS.sort defaultCompare periodData))
    /\ In e (pairGrowthRates timeSeries currentPeriod priorPeriod).
Proof.
  unfold calculateGrowthRates.
  destruct (_ <? 2)%nat; [discriminate|]. intros [= <-]. cbn [rates].
  rewrite sort_In. intros Hin. apply in_flat_map in Hin.
  destruct Hin as ([c p] & Hpair & Hin). now exists c, p.
Qed.

(** C3, at a table where a region is new in the later year. Asia has no row
    in 2022, so its sum in the older period of the pair, the prior period as
    the claim reads, is 0; the source takes the newer period as prior, finds
    the sum 40 there, and lists Asia with current value 0 and rate -100. *)
Theorem calculateGrowthRates_new_region_entry :
  option_map
    (fun a => map (fun e => (gr_geography e, from e, to e, priorValue e, currentValue e,
                             Qred (growthRate e))) (rates a))
    (calculateGrowthRates newRegion [js "2023-12-31"; js "2022-12-31"])
  = Some [(js "Asia", js "2023-12-31", js "2022-12-31", 40, 0, -100);
          (js "Japan", js "2023-12-31", js "2022-12-31", 200, 100, -50)]
  /\ geographyTotal (inPeriod newRegion (js "2022-12-31")) (js "Asia") == 0
  /\ ~ zeroPriorExcluded newRegion [js "2023-12-31"; js "2022-12-31"].
Proof.
  split; [reflexivity|]. split; [reflexivity|].
  intros Hclaim.
  refine (Hclaim _ eq_refl (js "2022-12-31") (js "2023-12-31") (js "Asia")
            (or_introl eq_refl) (Qeq_refl 0) _ (or_introl eq_refl) eq_refl _).
  right. split; reflexivity.
Qed.

End TimeSeriesFacts.

(** ** Fact table builder *)

Module BuilderFacts.
Import XbrlParser FactTableBuilder ListFacts.

Import BuilderSpec.

Lemma In_firstn {A} (n : nat) (l : list A) (x : A) : In x (firstn n l) -> In x l.
Proof.
  intros Hin. rewrite <- (firstn_skipn n l). apply in_or_app. now left.
Qed.

Lemma In_sliceTo {A} (k : Z) (l : list A) (x : A) : In x (sliceTo k l) -> In x l.
Proof.
  unfold sliceTo. destruct (k <? 0)%Z; apply In_firstn.
Qed.


Lemma mapi_length {A B} (f : nat -> A -> B) (l : list A) :
  forall i, List.length (mapi f i l) = List.length l.
Proof.
  induction l as [|x l IH]; intros i; cbn; [reflexivity|]. now rewrite IH.
Qed.





Lemma sumQ_from (l : list Q) (a : Q) : fold_left Qplus l a == a + sumQ l.
Proof.
  unfold sumQ. revert a. induction l as [|x l IH]; intros a; cbn.
  - ring.
  - rewrite (IH (a + x)), (IH (0 + x)). ring.
Qed.

Lemma sumQ_cons (x : Q) (l : list Q) : sumQ (x :: l) == x + sumQ l.
Proof.
  unfold sumQ at 1. cbn. rewrite sumQ_from. ring.
Qed.










Section Breakdowns.
Context `{Host}.



Lemma sortFacts_perm (facts : list EnrichedFact) (by_ : jsstring) :
  Permutation (sortFacts facts by_) facts.
Proof.
  unfold sortFacts.
  repeat match goal with
         | |- context [if ?b then _ else _] => destruct b
         end; try apply sort_perm. reflexivity.
Qed.

Lemma enrichedFacts_perm (xbrlFacts : list Fact) (params : Params) :
  Permutation (enrichedFacts xbrlFacts params)
    (mapi (enrich (country params) (targetValue params)) 0
       (matchingFacts xbrlFacts params)).
Proof. apply sortFacts_perm. Qed.


End Breakdowns.

End BuilderFacts.

(** ** Fact table: order of the rows, counters and breakdowns *)

Module TableFacts.
Import XbrlParser FactTableBuilder ListFacts BuilderSpec TableSpec.


Lemma countIf_le {A} (p q : A -> bool) (l : list A) :
  (forall x, In x l -> p x = true -> q x = true) -> (countIf p l <= countIf q l)%nat.
Proof.
  unfold countIf. induction l as [|x l IH]; intros Hpq; cbn; [apply Nat.le_refl|].
  assert (IH' : (List.length (filter p l) <= List.length (filter q l))%nat).
  { apply IH. intros y Hy. apply Hpq. now right. }
  destruct (p x) eqn:Hp.
  - rewrite (Hpq x (or_introl eq_refl) Hp). cbn. lia.
  - destruct (q x); cbn; lia.
Qed.

Lemma countIf_length {A} (p : A -> bool) (l : list A) : (countIf p l <= List.length l)%nat.
Proof. unfold countIf. apply filter_length_le. Qed.


Lemma distinctBy_length {A} (eqb : A -> A -> bool) (l : list A) :
  (List.length (distinctBy eqb l) <= List.length l)%nat
  /\ (l <> [] -> 1 <= List.length (distinctBy eqb l))%nat.
Proof.
  split.
  - induction l as [|x l IH]; cbn [distinctBy List.length]; [lia|].
    pose proof (filter_length_le (fun y => negb (eqb x y)) (distinctBy eqb l)). lia.
  - destruct l; [congruence|]. cbn [distinctBy List.length]. lia.
Qed.

Lemma mapi_nth {A B} (f : nat -> A -> B) (l : list A) :
  forall i y, In y (mapi f i l) ->
    exists j x, nth_error l j = Some x /\ y = f (i + j)%nat x.
Proof.
  induction l as [|x l IH]; intros i y; cbn [mapi]; [intros []|].
  intros [<-|Hin].
  - exists 0%nat, x. rewrite Nat.add_0_r. auto.
  - destruct (IH _ _ Hin) as (j & x' & Hx & ->). exists (S j), x'.
    split; [exact Hx|]. f_equal. lia.
Qed.

Lemma NoDup_firstn {A} (n : nat) (l : list A) : NoDup l -> NoDup (firstn n l).
Proof.
  intros Hnd. rewrite <- (firstn_skipn n l) in Hnd.
  now apply NoDup_app_remove_r in Hnd.
Qed.

Lemma firstMatching_found (keys : list jsstring) (d : option Dimensions) :
  notNull (firstMatching keys d) = true ->
  (0 <? List.length (orDefault d []))%nat = true.
Proof.
  unfold firstMatching. destruct d as [[|kv d]|]; cbn; try discriminate. reflexivity.
Qed.

Lemma truthy_notNull (v : jsvalue) : truthy v = true -> notNull v = true.
Proof. destruct v; cbn; auto. Qed.

Lemma count_nonzero (n : nat) : (1 <= n)%nat -> ~ inject_Z (Z.of_nat n) == 0.
Proof. intros Hn. unfold Qeq. cbn. lia. Qed.

Section Tables.
Context `{Host}.


Lemma enriched_row (xbrlFacts : list Fact) (params : Params) (row : EnrichedFact) :
  In row (enrichedFacts xbrlFacts params) ->
  exists j fact,
    nth_error (matchingFacts xbrlFacts params) j = Some fact
    /\ row = enrich (country params) (targetValue params) j fact.
Proof.
  intros Hin.
  apply (Permutation_in _ (BuilderFacts.enrichedFacts_perm xbrlFacts params)) in Hin.
  apply mapi_nth in Hin. exact Hin.
Qed.

Lemma enrichedFacts_length (xbrlFacts : list Fact) (params : Params) :
  List.length (enrichedFacts xbrlFacts params)
  = List.length (matchingFacts xbrlFacts params).
Proof.
  rewrite (Permutation_length (BuilderFacts.enrichedFacts_perm xbrlFacts params)).
  apply BuilderFacts.mapi_length.
Qed.

Lemma bump_keys (k : jsstring) (v : Q) (b : Breakdown) :
  NoDup (map fst b) ->
  NoDup (map fst (bump k v b))
  /\ (forall k', In k' (map fst (bump k v b)) -> k' = k \/ In k' (map fst b)).
Proof.
  induction b as [|[k0 e] r IH]; cbn [bump map fst]; intros Hnd.
  - split; [repeat constructor; intros [] | intros k' [<-|[]]; now left].
  - inversion Hnd as [|? ? Hnotin Hnd']; subst.
    destruct (str_eqb k0 k) eqn:E0; cbn [map fst].
    + split; [exact Hnd | intros k' Hk; now right].
    + destruct (IH Hnd') as [IHnd IHin]. split.
      * constructor; [|exact IHnd]. intros Hin.
        destruct (IHin _ Hin) as [->|Hin']; [|contradiction].
        rewrite str_eqb_refl in E0. discriminate.
      * intros k' [<-|Hk]; [right; now left|].
        destruct (IHin _ Hk) as [->|Hin']; [now left | right; now right].
Qed.

Lemma bump_entries (k : jsstring) (v : Q) (b : Breakdown) :
  Forall (fun ke => (1 <= count (snd ke))%nat) b ->
  Forall (fun ke => (1 <= count (snd ke))%nat) (bump k v b)
  /\ entryCounts (bump k v b) = S (entryCounts b).
Proof.
  unfold entryCounts.
  induction 1 as [|[k0 e] r Hn Hr IH]; cbn [bump].
  - split; [repeat constructor|reflexivity].
  - destruct (str_eqb k0 k); cbn [fold_right snd count] in *.
    + split; [constructor; cbn; auto; lia | lia].
    + destruct IH as [IH1 IH2]. split; [constructor; auto|]. rewrite IH2. lia.
Qed.


Lemma Category_eqb_eq (a b : Category) : Category_eqb a b = true <-> a = b.
Proof.
  split; [|intros ->; destruct b; reflexivity].
  destruct a, b; intros Heq; try reflexivity; discriminate Heq.
Qed.

Lemma tally_sum (c : Category) (acc : list (Category * nat)) :
  sumCounts (tally c acc) = S (sumCounts acc).
Proof.
  unfold sumCounts.
  induction acc as [|[c' n] r IH]; cbn [tally fold_right snd]; [reflexivity|].
  destruct (Category_eqb c' c); cbn [fold_right snd]; [lia|]. rewrite IH. lia.
Qed.

Lemma tally_of (c c' : Category) (acc : list (Category * nat)) :
  tallyOf c' (tally c acc)
  = (tallyOf c' acc + if Category_eqb c c' then 1 else 0)%nat.
Proof.
  unfold tallyOf. induction acc as [|[c0 n] r IH]; cbn [tally find fst snd].
  - destruct (Category_eqb c c'); reflexivity.
  - destruct (Category_eqb c0 c) eqn:E0; cbn [find fst snd].
    + apply Category_eqb_eq in E0. subst c0.
      destruct (Category_eqb c c'); cbn [snd]; lia.
    + destruct (Category_eqb c0 c') eqn:E1; [|exact IH].
      apply Category_eqb_eq in E1. subst c0.
      destruct (Category_eqb c c') eqn:E2; [|cbn [snd]; lia].
      apply Category_eqb_eq in E2. subst c'.
      assert (Category_eqb c c = true) by now apply Category_eqb_eq. congruence.
Qed.

Lemma tally_keys (c : Category) (acc : list (Category * nat)) :
  NoDup (map fst acc) ->
  NoDup (map fst (tally c acc))
  /\ (forall k, In k (map fst (tally c acc)) -> k = c \/ In k (map fst acc)).
Proof.
  induction acc as [|[c0 n] r IH]; cbn [tally map fst]; intros Hnd.
  - split; [repeat constructor; intros [] | intros k [<-|[]]; now left].
  - inversion Hnd as [|? ? Hnotin Hnd']; subst.
    destruct (Category_eqb c0 c) eqn:E0; cbn [map fst].
    + split; [exact Hnd | intros k Hk; now right].
    + destruct (IH Hnd') as [IHnd IHin]. split.
      * constructor; [|exact IHnd]. intros Hin.
        destruct (IHin _ Hin) as [->|Hin']; [|contradiction].
        assert (Category_eqb c c = true) by now apply Category_eqb_eq. congruence.
      * intros k [<-|Hk]; [right; now left|].
        destruct (IHin _ Hk) as [->|Hin']; [now left | right; now right].
Qed.

Lemma tally_positive (c : Category) (acc : list (Category * nat)) :
  Forall (fun cn => (1 <= snd cn)%nat) acc ->
  Forall (fun cn => (1 <= snd cn)%nat) (tally c acc).
Proof.
  induction 1 as [|[c0 n] r Hn Hr IH]; cbn [tally].
  - repeat constructor.
  - destruct (Category_eqb c0 c); constructor; cbn in *; auto; lia.
Qed.

(** X2. The [businessTypes] of a summary list each category once, with the
    number of rows of that category, which is at least 1; the counts of all
    categories add up to [totalFacts]. *)
Theorem businessTypes_partition (facts : list EnrichedFact) (s : SummaryData) :
  generateFactTableSummary facts = FullSummary s ->
  NoDup (map fst (businessTypes s))
  /\ (forall c, tallyOf c (businessTypes s)
                = countIf (fun fact => Category_eqb (businessClassification fact) c) facts)
  /\ (forall c n, In (c, n) (businessTypes s) -> (1 <= n)%nat)
  /\ sumCounts (businessTypes s) = totalFacts s.
Proof.
  unfold generateFactTableSummary.
  destruct facts as [|first rest] eqn:E; [discriminate|].
  cbv match. rewrite <- E. intros [= <-]. cbn [businessTypes totalFacts].
  clear E first rest. rename facts into l.
  assert (Hgen : forall acc,
            NoDup (map fst acc) -> Forall (fun cn => (1 <= snd cn)%nat) acc ->
            let r := fold_left (fun acc fact => tally (businessClassification fact) acc) l acc in
            NoDup (map fst r)
            /\ (forall c, tallyOf c r
                          = (tallyOf c acc
                             + countIf (fun fact => Category_eqb (businessClassification fact) c) l)%nat)
            /\ Forall (fun cn => (1 <= snd cn)%nat) r
            /\ sumCounts r = (sumCounts acc + List.length l)%nat).
  { induction l as [|x l IH]; intros acc Hnd Hpos; cbn [fold_left].
    - cbn. repeat split; auto.
    - destruct (IH (tally (businessClassification x) acc)
                  (proj1 (tally_keys _ _ Hnd)) (tally_positive _ _ Hpos))
        as (H1 & H2 & H3 & H4).
      split; [exact H1|]. split; [|split; [exact H3|]].
      + intros c. rewrite H2, tally_of. unfold countIf. cbn [filter].
        destruct (Category_eqb (businessClassification x) c); cbn [List.length]; lia.
      + rewrite H4, tally_sum. cbn [List.length]. lia. }
  destruct (Hgen [] (NoDup_nil _) (Forall_nil _)) as (H1 & H2 & H3 & H4).
  split; [exact H1|]. split; [intros c; now rewrite H2|]. split; [|exact H4].
  intros c n Hin. rewrite Forall_forall in H3. exact (H3 _ Hin).
Qed.


(** X4. In the summary of any call, a row counted as having a geographic,
    segment or product dimension is also counted as having dimensions; no
    counter exceeds [totalFacts]; [uniqueConcepts] is the length of
    [conceptTypes] and lies between 1 and [totalFacts]. *)
Theorem summary_counters (xbrlFacts : list Fact) (params : Params) (s : SummaryData) :
  summary (buildFactTable xbrlFacts params) = FullSummary s ->
  (factsWithGeography s <= factsWithDimensions s)%nat
  /\ (factsWithSegments s <= factsWithDimensions s)%nat
  /\ (factsWithProducts s <= factsWithDimensions s)%nat
  /\ (factsWithDimensions s <= totalFacts s)%nat
  /\ (exactMatches s <= totalFacts s)%nat
  /\ uniqueConcepts s = List.length (conceptTypes s)
  /\ (1 <= uniqueConcepts s)%nat
  /\ (uniqueConcepts s <= totalFacts s)%nat.
Proof.
  unfold buildFactTable.
  destruct (matchingFacts xbrlFacts params) as [|m ms] eqn:Em; [discriminate|].
  cbn [summary]. unfold generateFactTableSummary.
  pose proof (enriched_row xbrlFacts params) as Hrow.
  destruct (enrichedFacts xbrlFacts params) as [|first rest] eqn:Eall; [discriminate|].
  cbv match. rewrite <- Eall in *. intros [= <-].
  cbn [factsWithGeography factsWithSegments factsWithProducts factsWithDimensions
       totalFacts exactMatches uniqueConcepts conceptTypes].
  assert (Hdim : forall (flag : EnrichedFact -> bool) keys,
            (forall c t j fact,
                flag (enrich c t j fact) = notNull (firstMatching keys (dimensions fact))) ->
            (countIf flag (enrichedFacts xbrlFacts params)
             <= countIf (fun f => (0 <? dimensionCount f)%nat)
                        (enrichedFacts xbrlFacts params))%nat).
  { intros flag keys Hflag. apply countIf_le. intros row Hin Hset.
    destruct (Hrow _ Hin) as (j & fact & _ & ->).
    rewrite Hflag in Hset. cbn [dimensionCount enrich].
    now apply firstMatching_found with keys. }
  split; [apply Hdim with geoKeys; reflexivity|].
  split; [apply Hdim with segmentKeys; reflexivity|].
  split; [apply Hdim with productKeys; reflexivity|].
  split; [apply countIf_length|]. split; [apply countIf_length|].
  split; [reflexivity|].
  destruct (distinctBy_length str_eqb (map e_concept (enrichedFacts xbrlFacts params)))
    as [Hle Hge].
  rewrite length_map in Hle. split; [|exact Hle].
  apply Hge. rewrite Eall. discriminate.
Qed.

(** X5. A breakdown ([getGeographicBreakdown] by [geography],
    [getSegmentBreakdown] by [segment]) lists each label once; every entry
    counts at least one row, and the average of an entry that counts one row
    is its total; the counts of all entries add up to the number of rows
    whose label is truthy. *)
Theorem breakdown_entries (label : EnrichedFact -> jsvalue) (facts : list EnrichedFact) :
  NoDup (map fst (breakdownBy label facts))
  /\ (forall k e, In (k, e) (breakdownBy label facts) ->
        (1 <= count e)%nat
        /\ (count e = 1%nat -> avgValue e == totalValue e))
  /\ entryCounts (breakdownBy label facts)
     = countIf (fun fact => truthy (label fact)) facts.
Proof.
  unfold breakdownBy.
  assert (Hgen : forall b,
            NoDup (map fst b) -> Forall (fun ke => (1 <= count (snd ke))%nat) b ->
            let r := fold_left (fun b fact =>
                                  if truthy (label fact)
                                  then bump (toPropertyKey (label fact)) (e_value fact) b
                                  else b) facts b in
            NoDup (map fst r)
            /\ Forall (fun ke => (1 <= count (snd ke))%nat) r
            /\ entryCounts r
               = (entryCounts b + countIf (fun fact => truthy (label fact)) facts)%nat).
  { induction facts as [|x l IH]; intros b Hnd Hpos; cbn [fold_left].
    - cbn. repeat split; auto.
    - unfold countIf. cbn [filter]. destruct (truthy (label x)).
      + destruct (IH (bump (toPropertyKey (label x)) (e_value x) b)
                    (proj1 (bump_keys _ _ _ Hnd)) (proj1 (bump_entries _ _ _ Hpos)))
          as (H1 & H2 & H3).
        split; [exact H1|]. split; [exact H2|].
        rewrite H3, (proj2 (bump_entries _ _ _ Hpos)). unfold countIf.
        cbn [List.length]. lia.
      + exact (IH b Hnd Hpos). }
  destruct (Hgen [] (NoDup_nil _) (Forall_nil _)) as (H1 & H2 & H3).
  cbv zeta in H1, H2, H3. revert H1 H2 H3.
  generalize (fold_left (fun b fact =>
                           if truthy (label fact)
                           then bump (toPropertyKey (label fact)) (e_value fact) b
                           else b) facts []).
  intros counted H1 H2 H3. split; [|split].
  - rewrite map_map. cbn [fst]. exact H1.
  - intros k e Hin. apply in_map_iff in Hin. destruct Hin as ([k0 e0] & [= <- <-] & Hin).
    cbn [count avgValue totalValue snd]. rewrite Forall_forall in H2.
    pose proof (H2 _ Hin) as Hc. cbn [snd] in Hc. split; [exact Hc|].
    intros ->. change (inject_Z (Z.of_nat 1)) with 1. field.
  - rewrite <- (Nat.add_0_l (countIf _ facts)). 
    change 0%nat with (entryCounts []) at 1. rewrite <- H3. clear.
    unfold entryCounts. induction counted as [|ke r IH]; cbn [map fold_right snd count];
      [reflexivity|]. now rewrite IH.
Qed.

(** X6. [rowNumber] is the place of the fact among the matches before
    sorting, counted from 1: every row of the table is the row made from the
    match at index [rowNumber - 1], no two rows of the table share a number,
    and the numbers of all rows are 1 to the number of matches in some
    order. *)
Theorem rowNumber_is_match_index (xbrlFacts : list Fact) (params : Params) :
  (forall row, In row (table (buildFactTable xbrlFacts params)) ->
     exists fact,
       nth_error (matchingFacts xbrlFacts params) (rowNumber row - 1) = Some fact
       /\ row = enrich (country params) (targetValue params) (rowNumber row - 1) fact)
  /\ NoDup (map rowNumber (table (buildFactTable xbrlFacts params)))
  /\ Permutation (map rowNumber (enrichedFacts xbrlFacts params))
       (seq 1 (List.length (matchingFacts xbrlFacts params))).
Proof.
  assert (Hseq : forall c t l i,
            map rowNumber (mapi (enrich c t) i l) = seq (i + 1) (List.length l)).
  { intros c t l. induction l as [|x l IH]; intros i; cbn [mapi map List.length seq];
      [reflexivity|].
    f_equal. rewrite IH. f_equal. }
  assert (Hperm : Permutation (map rowNumber (enrichedFacts xbrlFacts params))
                    (seq 1 (List.length (matchingFacts xbrlFacts params)))).
  { rewrite (Permutation_map rowNumber (BuilderFacts.enrichedFacts_perm xbrlFacts params)).
    now rewrite Hseq. }
  assert (Htable : table (buildFactTable xbrlFacts params) = []
                   \/ table (buildFactTable xbrlFacts params)
                      = sliceTo (maxRowsOf params) (enrichedFacts xbrlFacts params)).
  { unfold buildFactTable. destruct (matchingFacts xbrlFacts params); [now left | now right]. }
  split; [|split; [|exact Hperm]].
  - intros row Hin. destruct Htable as [Ht|Ht]; rewrite Ht in Hin; [destruct Hin|].
    apply BuilderFacts.In_sliceTo in Hin.
    destruct (enriched_row _ _ _ Hin) as (j & fact & Hnth & ->).
    cbn [rowNumber enrich]. replace (j + 1 - 1)%nat with j by lia. now exists fact.
  - destruct Htable as [Ht|Ht]; rewrite Ht; [constructor|].
    unfold sliceTo. destruct (maxRowsOf params <? 0)%Z;
      rewrite <- firstn_map; apply NoDup_firstn;
      apply (Permutation_NoDup (Permutation_sym Hperm)), seq_NoDup.
Qed.

(** X7. A call that matches nothing returns an empty table and the empty
    summary; otherwise [totalFactsFound] is the number of matches and
    [totalFactsReturned] the length of the table, which is the smaller of
    [maxRows] and that number when [maxRows] is not negative, and that
    number less [-maxRows] (or 0) when it is. *)
Theorem buildFactTable_row_counts (xbrlFacts : list Fact) (params : Params) :
  let result := buildFactTable xbrlFacts params in
  let found := List.length (matchingFacts xbrlFacts params) in
  (found = 0%nat ->
     table result = [] /\ totalFactsFound result = None
     /\ totalFactsReturned result = None
     /\ exists message, summary result = EmptySummary false message)
  /\ (found <> 0%nat ->
      totalFactsFound result = Some found
      /\ totalFactsReturned result = Some (List.length (table result))
      /\ Z.of_nat (List.length (table result))
         = if (maxRowsOf params <? 0)%Z
           then Z.max (Z.of_nat found + maxRowsOf params) 0
           else Z.min (maxRowsOf params) (Z.of_nat found)).
Proof.
  cbv zeta. pose proof (enrichedFacts_length xbrlFacts params) as Hlen.
  unfold buildFactTable.
  destruct (matchingFacts xbrlFacts params) as [|m ms] eqn:Em.
  - split; [|intros Hne; now contradiction Hne].
    intros _. cbn. repeat split. now eexists.
  - split; [discriminate|]. intros _.
    cbn [totalFactsFound totalFactsReturned table].
    split; [now rewrite Hlen|]. split; [reflexivity|].
    unfold sliceTo. destruct (maxRowsOf params <? 0)%Z eqn:Hneg;
      rewrite length_firstn, Hlen; lia.
Qed.

End Tables.


Lemma businessTypes_partition_witness :
  exists s,
    @generateFactTableSummary asciiHost sampleRows = FullSummary s
    /\ sumCounts (businessTypes s) = 3%nat
    /\ NoDup (map fst (businessTypes s)).
Proof.
  eexists. split; [reflexivity|].
  pose proof (@businessTypes_partition asciiHost sampleRows _ eq_refl) as (Hnd & _ & _ & Hsum).
  split; [exact Hsum | exact Hnd].
Defined.


Lemma summary_counters_witness :
  exists s,
    summary (@buildFactTable asciiHost filingFacts aroundOneMillion) = FullSummary s
    /\ (factsWithGeography s <= factsWithDimensions s)%nat
    /\ (1 <= uniqueConcepts s)%nat.
Proof.
  eexists. split; [reflexivity|].
  pose proof (@summary_counters asciiHost filingFacts aroundOneMillion _ eq_refl)
    as (Hg & _ & _ & _ & _ & _ & Hu & _).
  split; [exact Hg | exact Hu].
Defined.

Lemma breakdown_entries_witness :
  map fst (@getGeographicBreakdown asciiHost regionalRows) = [js "Japan"; js "Asia"]
  /\ entryCounts (@getGeographicBreakdown asciiHost regionalRows) = 3%nat
  /\ forall k e, In (k, e) (@getGeographicBreakdown asciiHost regionalRows) ->
       (1 <= count e)%nat /\ (count e = 1%nat -> avgValue e == totalValue e).
Proof.
  pose proof (@breakdown_entries asciiHost geography regionalRows) as (_ & He & Hc).
  split; [reflexivity|]. split; [exact Hc | exact He].
Defined.

Lemma rowNumber_is_match_index_witness :
  map rowNumber (table (@buildFactTable asciiHost filingFacts aroundOneMillion)) = [1; 2]%nat
  /\ forall row, In row (table (@buildFactTable asciiHost filingFacts aroundOneMillion)) ->
       exists fact,
         nth_error (@matchingFacts asciiHost filingFacts aroundOneMillion) (rowNumber row - 1)
         = Some fact
         /\ row = @enrich asciiHost (js "KR") 1000000 (rowNumber row - 1) fact.
Proof.
  split; [reflexivity|].
  exact (proj1 (@rowNumber_is_match_index asciiHost filingFacts aroundOneMillion)).
Defined.

Lemma buildFactTable_row_counts_witness :
  totalFactsFound (@buildFactTable asciiHost smallFacts overridingParams) = Some 3%nat
  /\ Z.of_nat (List.length (table (@buildFactTable asciiHost smallFacts overridingParams)))
     = 2%Z.
Proof.
  pose proof (@buildFactTable_row_counts asciiHost smallFacts overridingParams) as (_ & Hfull).
  destruct (Hfull ltac:(discriminate)) as (Hfound & _ & Hlen).
  split; [exact Hfound | exact Hlen].
Defined.

End TableFacts.


(** ** Time series: mix by period, period totals and the growth summary *)

Module SeriesFacts.
Import FactTableBuilder TimeSeriesAnalyzer MixAnalyzer ListFacts MixSpec TimeSeriesSpec.


Lemma sumQ_map_scale {A} (F : A -> Q) (c : Q) (L : list A) :
  sumQ (map (fun g => F g * c) L) == sumQ (map F L) * c.
Proof.
  induction L as [|g L IH]; cbn [map]; [reflexivity|].
  rewrite !BuilderFacts.sumQ_cons, IH. ring.
Qed.

Lemma distinctBy_NoDup (l : list jsstring) : NoDup (distinctBy str_eqb l).
Proof.
  induction l as [|x l IH]; cbn [distinctBy]; constructor.
  - intros Hin. apply filter_In in Hin. destruct Hin as [_ Hne].
    now rewrite str_eqb_refl in Hne.
  - now apply NoDup_filter.
Qed.





Lemma str_compare_eq (a b : jsstring) : str_compare a b = Eq -> a = b.
Proof.
  revert b. induction a as [|c a IH]; intros [|d b]; cbn; try discriminate; [reflexivity|].
  destruct (N.compare_spec c d) as [->|_|_]; try discriminate.
  intros Heq. now rewrite (IH _ Heq).
Qed.

Lemma str_compare_refl (a : jsstring) : str_compare a a = Eq.
Proof. induction a as [|c a IH]; cbn; [reflexivity|]. now rewrite N.compare_refl. Qed.

Lemma str_compare_trans (a b c : jsstring) :
  str_compare a b <> Gt -> str_compare b c <> Gt -> str_compare a c <> Gt.
Proof.
  revert b c. induction a as [|x a IH]; intros [|y b] [|z c]; cbn; try congruence.
  destruct (N.compare_spec x y) as [->|Hxy|Hxy]; try congruence.
  - destruct (N.compare_spec y z) as [->|Hyz|Hyz]; try congruence. apply IH.
  - destruct (N.compare_spec y z) as [->|Hyz|Hyz]; try congruence; intros _ _.
    + destruct (N.compare_spec x z); try congruence; lia.
    + destruct (N.compare_spec x z); try congruence; lia.
Qed.

Lemma str_le_iff (a b : jsstring) : str_le a b <-> str_compare a b <> Gt.
Proof.
  unfold str_le, defaultCompare. destruct (str_compare a b); split; intros Hle;
    try discriminate; try congruence. exfalso. revert Hle. apply Qlt_not_le. reflexivity.
Qed.


Lemma str_le_trans (a b c : jsstring) : str_le a b -> str_le b c -> str_le a c.
Proof. rewrite !str_le_iff. apply str_compare_trans. Qed.

Lemma str_le_refl (a : jsstring) : str_le a a.
Proof. apply str_le_iff. rewrite str_compare_refl. discriminate. Qed.

Lemma sort_strings_sorted (l : list jsstring) :
  StronglySorted str_le (JS.sort defaultCompare l).
Proof.
  apply Sorted_StronglySorted; [exact str_le_trans|].
  apply sort_sorted, defaultCompare_total.
Qed.


















End SeriesFacts.


(** ** Currency text *)

Module CurrencyFacts.
Import XbrlParser Currency CurrencySpec ParserSpec ListFacts.

Lemma Qfloor_between (x : Q) (n : Z) :
  inject_Z n <= x -> x < inject_Z (n + 1) -> Qfloor x = n.
Proof.
  intros Hlo Hhi.
  pose proof (Qfloor_le x) as Hfl. pose proof (Qlt_floor x) as Hfu.
  assert (H1 : (n < Qfloor x + 1)%Z).
  { rewrite Zlt_Qlt. eapply Qle_lt_trans; [exact Hlo | exact Hfu]. }
  assert (H2 : (Qfloor x < n + 1)%Z).
  { rewrite Zlt_Qlt. eapply Qle_lt_trans; [exact Hfl | exact Hhi]. }
  lia.
Qed.

Lemma Qabs_idem (q : Q) : Qabs (Qabs q) = Qabs q.
Proof. destruct q as [a b]. cbn. now rewrite Z.abs_idemp. Qed.

Lemma Qabs_not_negative (q : Q) : Qlt_bool (Qabs q) 0 = false.
Proof. apply Qlt_bool_false, Qabs_nonneg. Qed.

Lemma Qle_bool_false (a b : Q) : Qle_bool a b = false <-> b < a.
Proof.
  split.
  - intros Hf. apply Qnot_le_lt. intros Hle. apply Qle_bool_iff in Hle. congruence.
  - intros Hlt. destruct (Qle_bool a b) eqn:Hle; [|reflexivity].
    apply Qle_bool_iff in Hle. exfalso. exact (Qlt_not_le _ _ Hlt Hle).
Qed.

Lemma Qabs_of_nonneg (a : Q) : 0 <= a -> Qabs a = a.
Proof.
  destruct a as [p d]. unfold Qle, Qabs. cbn [Qnum Qden]. intros Hpos.
  f_equal. lia.
Qed.

Section Text.
Context `{Host}.

(** The text of a magnitude below 10^21 is read off the rounded integer. *)
Lemma toFixedText_rounded (f : nat) (a : Q) (n : Z) :
  0 <= a -> a < inject_Z (10 ^ 21) ->
  inject_Z n <= a * inject_Z (10 ^ Z.of_nat f) + (1 # 2) ->
  a * inject_Z (10 ^ Z.of_nat f) + (1 # 2) < inject_Z (n + 1) ->
  toFixedText f (Finite a)
  = if (f =? 0)%nat then digitsOf (Z.to_N n)
    else firstn (List.length (padZeros (S f) (digitsOf (Z.to_N n))) - f)
           (padZeros (S f) (digitsOf (Z.to_N n)))
         ++ 46%N :: skipn (List.length (padZeros (S f) (digitsOf (Z.to_N n))) - f)
                      (padZeros (S f) (digitsOf (Z.to_N n))).
Proof.
  intros Hpos Hbig Hlo Hhi. unfold toFixedText.
  rewrite (proj2 (Qlt_bool_false a 0) Hpos).
  pose proof (Qabs_of_nonneg a Hpos) as Habs.
  rewrite Habs, (proj2 (Qle_bool_false _ _) Hbig).
  rewrite (Qfloor_between _ n Hlo Hhi). reflexivity.
Qed.

Lemma formatCurrency_finite (q : Q) (symbol : jsstring) :
  formatCurrency (Some (Finite q)) symbol
  = signOf q ++ symbol
    ++ (if Qle_bool 1000000000000 (Qabs q)
        then toFixedText 2 (Finite (Qabs q / 1000000000000)) ++ js "T"
        else if Qle_bool 1000000000 (Qabs q)
        then toFixedText 2 (Finite (Qabs q / 1000000000)) ++ js "B"
        else if Qle_bool 1000000 (Qabs q)
        then toFixedText 1 (Finite (Qabs q / 1000000)) ++ js "M"
        else if Qle_bool 1000 (Qabs q)
        then toFixedText 1 (Finite (Qabs q / 1000)) ++ js "K"
        else toFixedText 0 (Finite (Qabs q))).
Proof.
  unfold formatCurrency, signOf. cbn [isNaN abs isNegative atLeast dividedBy].
  repeat match goal with |- context [if Qle_bool ?c ?a then _ else _] =>
           destruct (Qle_bool c a) end;
    reflexivity.
Qed.

(** X13. [formatCurrency] prints "N/A" for null, undefined and NaN. For any
    other amount the text is the sign ("-" for a negative amount, nothing
    otherwise), then the symbol, then a text that depends on the magnitude
    alone: the text of the magnitude printed without a symbol. *)
Theorem formatCurrency_sign_and_symbol (value : option number) (symbol : jsstring) :
  (value = None \/ value = Some NaN -> formatCurrency value symbol = js "N/A")
  /\ forall v, value = Some v -> isNaN v = false ->
       formatCurrency value symbol
       = (if isNegative v then js "-" else []) ++ symbol
         ++ formatCurrency (Some (abs v)) []
       /\ isNegative (abs v) = false.
Proof.
  split; [intros [-> | ->]; reflexivity|].
  intros v -> Hnan. destruct v as [q| | |]; try discriminate.
  - cbn [abs isNegative]. rewrite !formatCurrency_finite.
    unfold signOf. rewrite Qabs_idem, Qabs_not_negative. split; reflexivity.
  - split; reflexivity.
  - split; reflexivity.
Qed.

Ltac norm_consts :=
  unfold Qdiv;
  repeat match goal with
         | |- context [inject_Z ?z] =>
           let c := eval vm_compute in (inject_Z z) in
           progress change (inject_Z z) with c
         | |- context [Qinv ?z] =>
           let c := eval vm_compute in (Qinv z) in
           progress change (Qinv z) with c
         end.

Ltac band q Hlo Hhi :=
  rewrite formatCurrency_finite;
  repeat match goal with
         | |- context [Qle_bool ?c (Qabs q)] =>
           first [ rewrite (proj2 (Qle_bool_false c (Qabs q))) by lra
                 | rewrite (proj2 (Qle_bool_iff c (Qabs q))) by lra ]
         end.

(** X14. Just below a unit the rounding carries into a fourth digit and the
    unit stays: an amount of magnitude from 999.5 up to 1000 is printed as
    "1000", from 999950 up to a million as "1000.0K", from 999950000 up to
    10^9 as "1000.0M", and from 999995000000 up to 10^12 as "1000.00B". *)
Theorem formatCurrency_below_unit (q : Q) (symbol : jsstring) :
  ((9995 # 10) <= Qabs q -> Qabs q < 1000 ->
   formatCurrency (Some (Finite q)) symbol = signOf q ++ symbol ++ js "1000")
  /\ (999950 <= Qabs q -> Qabs q < 1000000 ->
      formatCurrency (Some (Finite q)) symbol = signOf q ++ symbol ++ js "1000.0K")
  /\ (999950000 <= Qabs q -> Qabs q < 1000000000 ->
      formatCurrency (Some (Finite q)) symbol = signOf q ++ symbol ++ js "1000.0M")
  /\ (999995000000 <= Qabs q -> Qabs q < 1000000000000 ->
      formatCurrency (Some (Finite q)) symbol = signOf q ++ symbol ++ js "1000.00B").
Proof.
  split; [|split; [|split]]; intros Hlo Hhi; band q Hlo Hhi.
  - rewrite (toFixedText_rounded 0 (Qabs q) 1000); [reflexivity | | | |];
      norm_consts; lra.
  - rewrite (toFixedText_rounded 1 (Qabs q / 1000) 10000); [reflexivity | | | |];
      norm_consts; lra.
  - rewrite (toFixedText_rounded 1 (Qabs q / 1000000) 10000); [reflexivity | | | |];
      norm_consts; lra.
  - rewrite (toFixedText_rounded 2 (Qabs q / 1000000000) 100000); [reflexivity | | | |];
      norm_consts; lra.
Qed.

Lemma formatCurrency_cases (value : option number) (symbol : jsstring) :
  formatCurrency value symbol = js "N/A"
  \/ exists rest,
       formatCurrency value symbol = symbol ++ rest
       \/ formatCurrency value symbol = 45%N :: symbol ++ rest.
Proof.
  destruct value as [v|]; [|now left].
  destruct v as [q| | |]; [| | |now left]; right.
  - rewrite formatCurrency_finite. eexists. unfold signOf.
    destruct (Qlt_bool q 0); [right | left]; reflexivity.
  - eexists. left. reflexivity.
  - eexists. right. reflexivity.
Qed.

End Text.

Lemma trimEnd_head (p : jsstring) (c : codeunit) (r : jsstring) :
  isWhiteSpace c = false ->
  exists r', trimEnd (p ++ c :: r) = p ++ c :: r'.
Proof.
  intros Hc. unfold trimEnd. rewrite rev_app_distr. cbn [rev].
  rewrite <- app_assoc. cbn [app].
  assert (Hdrop : forall l, exists l', dropWhile isWhiteSpace (l ++ c :: rev p)
                                      = l' ++ c :: rev p).
  { induction l as [|x l IH]; cbn [app dropWhile].
    - exists []. now rewrite Hc.
    - destruct (isWhiteSpace x); [exact IH|]. now exists (x :: l). }
  destruct (Hdrop (rev r)) as (l' & ->). exists (rev l').
  rewrite rev_app_distr. cbn [rev]. rewrite rev_involutive, <- app_assoc. reflexivity.
Qed.

Lemma removeAll_mid (p : codeunit -> bool) (pre : jsstring) (c : codeunit) (r : jsstring) :
  p c = false -> removeAll p (pre ++ c :: r) = removeAll p pre ++ c :: removeAll p r.
Proof.
  intros Hc. unfold removeAll. rewrite filter_app. cbn [filter]. now rewrite Hc.
Qed.

Lemma parseFactValue_inert (c : codeunit) (r : jsstring) :
  inert c = true ->
  parseFactValue (VString (c :: r)) = Return None
  /\ parseFactValue (VString (45%N :: c :: r)) = Return None.
Proof.
  unfold inert. rewrite !andb_true_iff, !negb_true_iff.
  intros (((((((Hws & Hcomma) & Hwide) & Hneg) & Hplus) & Hdigit) & Hdot) & HI).
  assert (Hminus : (c =? 45)%N = false) by now apply orb_false_iff in Hneg.
  assert (Hnan : forall r', isNaN (parseFloat (c :: r')) = true).
  { intros r'. unfold parseFloat, trimStart. cbn [dropWhile]. rewrite Hws, Hplus, Hminus.
    rewrite ParserFacts.unsignedLiteral_NaN.
    change (startsWith (c :: r') (js "Infinity"))
      with ((73 =? c)%N && startsWith r' (js "nfinity")).
    rewrite HI, Hdigit, Hdot. reflexivity. }
  assert (Hclean : forall p,
            (p = [] \/ p = [45%N]) ->
            exists r', cleanedText (p ++ c :: r) = c :: r').
  { intros p Hp. unfold cleanedText, separatorsRemoved, trim, trimStart.
    assert (Hstart : dropWhile isWhiteSpace (p ++ c :: r) = p ++ c :: r).
    { destruct Hp as [-> | ->]; cbn [app dropWhile]; [now rewrite Hws | reflexivity]. }
    rewrite Hstart. destruct (trimEnd_head p c r Hws) as (r1 & ->).
    rewrite (removeAll_mid (fun x => (x =? 44)%N) p c r1 Hcomma).
    rewrite (removeAll_mid isWhiteSpace _ c _ Hws).
    rewrite (removeAll_mid (fun x => (x =? 12288)%N) _ c _ Hwide).
    rewrite (removeAll_mid (fun x => isNegativeGlyph x || (x =? 45)%N) _ c _ Hneg).
    eexists. destruct Hp as [-> | ->]; reflexivity. }
  split.
  - rewrite ParserFacts.parseFactValue_text.
    destruct (Hclean [] (or_introl eq_refl)) as (r' & Hr). cbn [app] in Hr.
    now rewrite Hr, Hnan.
  - rewrite ParserFacts.parseFactValue_text.
    destruct (Hclean [45%N] (or_intror eq_refl)) as (r' & Hr). cbn [app] in Hr.
    now rewrite Hr, Hnan.
Qed.

(** X15. What [formatCurrency] prints with the yen or the won symbol is
    never read back as a number: [parseFactValue] answers null on it,
    whatever the amount. *)
Theorem formatCurrency_not_read_back `{Host} (value : option number) (symbol : jsstring) :
  symbol = yen \/ symbol = won ->
  parseFactValue (VString (formatCurrency value symbol)) = Return None.
Proof.
  intros Hsym.
  assert (Hhead : exists c r, symbol = c :: r /\ inert c = true).
  { destruct Hsym as [-> | ->]; eexists _, _; split; reflexivity. }
  destruct Hhead as (c & r & -> & Hc).
  destruct (formatCurrency_cases value (c :: r)) as [-> | (rest & [-> | ->])].
  - reflexivity.
  - exact (proj1 (parseFactValue_inert c (r ++ rest) Hc)).
  - exact (proj2 (parseFactValue_inert c (r ++ rest) Hc)).
Qed.

Lemma formatCurrency_sign_and_symbol_witness :
  @formatCurrency asciiHost (Some (Finite (-1234567))) yen
  = js "-" ++ yen ++ @formatCurrency asciiHost (Some (Finite 1234567)) []
  /\ @formatCurrency asciiHost (Some (Finite 1234567)) [] = js "1.2M".
Proof.
  split; [|reflexivity].
  exact (proj1 (proj2 (@formatCurrency_sign_and_symbol asciiHost
                         (Some (Finite (-1234567))) yen) _ eq_refl eq_refl)).
Defined.

Lemma formatCurrency_below_unit_witness :
  @formatCurrency asciiHost (Some (Finite (-999960))) won = js "-" ++ won ++ js "1000.0K".
Proof.
  refine (proj1 (proj2 (@formatCurrency_below_unit asciiHost (-999960) won)) _ _);
    [vm_compute; discriminate | reflexivity].
Defined.

Lemma formatCurrency_not_read_back_witness :
  @formatCurrency asciiHost (Some (Finite 2500)) yen = yen ++ js "2.5K"
  /\ parseFactValue (VString (@formatCurrency asciiHost (Some (Finite 2500)) yen))
     = Return None.
Proof.
  split; [reflexivity|].
  exact (@formatCurrency_not_read_back asciiHost (Some (Finite 2500)) yen (or_introl eq_refl)).
Defined.

End CurrencyFacts.


(** ** Dimension groups and summary statistics *)

Module StatisticsFacts.
Import XbrlParser FactTableBuilder XbrlStatistics StatisticsSpec ListFacts.

Section Upsert.
Context {K V X : Type} (eqb : K -> K -> bool).
Hypothesis eqb_eq : forall a b, eqb a b = true <-> a = b.
Variable init : V.
Variable key : X -> K.
Variable step : X -> V -> V.

Lemma eqb_refl (a : K) : eqb a a = true.
Proof. now apply eqb_eq. Qed.

Lemma eqb_sym (a b : K) : eqb a b = eqb b a.
Proof.
  destruct (eqb a b) eqn:Hab, (eqb b a) eqn:Hba; try reflexivity.
  - apply eqb_eq in Hab. subst. now rewrite eqb_refl in Hba.
  - apply eqb_eq in Hba. subst. now rewrite eqb_refl in Hab.
Qed.

Lemma lookup_upsert (f : V -> V) (k k' : K) (m : list (K * V)) :
  lookup eqb k' (upsert eqb init f k m)
  = if eqb k k' then Some (f (valueAt eqb init k m)) else lookup eqb k' m.
Proof.
  unfold valueAt, lookup. induction m as [|[k0 v] r IH]; cbn [upsert find fst snd option_map].
  - destruct (eqb k k'); reflexivity.
  - destruct (eqb k0 k) eqn:E0; cbn [find fst snd option_map].
    + apply eqb_eq in E0. subst k0.
      destruct (eqb k k'); reflexivity.
    + destruct (eqb k0 k') eqn:E1; cbn [option_map snd].
      * apply eqb_eq in E1. subst k0. rewrite eqb_sym, E0. reflexivity.
      * exact IH.
Qed.

Lemma upsert_keys (f : V -> V) (k : K) (m : list (K * V)) :
  NoDup (map fst m) ->
  NoDup (map fst (upsert eqb init f k m))
  /\ (forall k', In k' (map fst (upsert eqb init f k m)) <-> k' = k \/ In k' (map fst m)).
Proof.
  induction m as [|[k0 v] r IH]; cbn [upsert map fst]; intros Hnd.
  - split; [repeat constructor; intros []|]. intros k'. cbn. intuition congruence.
  - inversion Hnd as [|? ? Hnotin Hnd']; subst.
    destruct (eqb k0 k) eqn:E0; cbn [map fst].
    + apply eqb_eq in E0. subst k0. split; [exact Hnd|]. intros k'. cbn. intuition.
    + destruct (IH Hnd') as [IHnd IHin]. split.
      * constructor; [|exact IHnd]. intros Hin. apply IHin in Hin.
        destruct Hin as [->|Hin']; [|contradiction]. now rewrite eqb_refl in E0.
      * intros k'. cbn. rewrite IHin. intuition.
Qed.

Lemma lookup_In (k : K) (v : V) (m : list (K * V)) :
  NoDup (map fst m) -> In (k, v) m -> lookup eqb k m = Some v.
Proof.
  unfold lookup. induction m as [|[k0 v0] r IH]; cbn [map fst find]; intros Hnd Hin;
    [destruct Hin|].
  inversion Hnd as [|? ? Hnotin Hnd']; subst. destruct Hin as [[= -> ->]|Hin].
  - now rewrite eqb_refl.
  - destruct (eqb k0 k) eqn:E0; [|now apply IH].
    apply eqb_eq in E0. subst k0. exfalso. apply Hnotin.
    change k with (fst (k, v)). now apply in_map.
Qed.

(** A fold of the idiom: the keys are those of the start and of the visited
    elements, each once, and the value at a key is the start value stepped
    through the elements of that key in order. *)
Lemma fold_upsert (xs : list X) (m : list (K * V)) :
  NoDup (map fst m) ->
  NoDup (map fst (fold_left (fun m x => upsert eqb init (step x) (key x) m) xs m))
  /\ (forall k,
        In k (map fst (fold_left (fun m x => upsert eqb init (step x) (key x) m) xs m))
        <-> In k (map fst m) \/ In k (map key xs))
  /\ (forall k,
        valueAt eqb init k
          (fold_left (fun m x => upsert eqb init (step x) (key x) m) xs m)
        = fold_left (fun v x => step x v)
            (filter (fun x => eqb (key x) k) xs) (valueAt eqb init k m)).
Proof.
  revert m. induction xs as [|x xs IH]; intros m Hnd; cbn [fold_left map filter].
  - split; [exact Hnd|]. split; [intros k; cbn; tauto | reflexivity].
  - destruct (upsert_keys (step x) (key x) m Hnd) as [Hnd' Hkeys].
    destruct (IH (upsert eqb init (step x) (key x) m) Hnd') as (H1 & H2 & H3).
    split; [exact H1|]. split.
    + intros k. rewrite H2, Hkeys. cbn. intuition.
    + intros k. rewrite H3. unfold valueAt. rewrite lookup_upsert. unfold valueAt.
      destruct (eqb (key x) k) eqn:Ek; [|reflexivity].
      apply eqb_eq in Ek. subst k. reflexivity.
Qed.

End Upsert.

Lemma fold_push {X} (f : X -> Fact) (xs : list X) (start : list Fact) :
  fold_left (fun fs x => fs ++ [f x]) xs start = start ++ map f xs.
Proof.
  revert start. induction xs as [|x xs IH]; intros start; cbn [fold_left map].
  - now rewrite app_nil_r.
  - rewrite IH, <- app_assoc. reflexivity.
Qed.

Lemma fold_amounts (g : Fact -> Q) (fs : list Fact) (a : Q) :
  fold_left (fun sum f => sum + g f) fs a = fold_left Qplus (map g fs) a.
Proof. revert a. induction fs as [|f fs IH]; intros a; cbn; [reflexivity | apply IH]. Qed.

Section Statistics.
Context `{Host}.

(** The three objects of the loop are filled independently, each from the
    dimensions that mention its words. *)
Lemma groups_of_mentions (facts : list Fact) (st : GroupState) :
  let pushPair := fun g (p : jsstring * Fact) => pushTo (fst p) (snd p) g in
  g_geography (fold_left visitFact facts st)
  = fold_left pushPair (mentionsOf geographyWords facts) (g_geography st)
  /\ g_segments (fold_left visitFact facts st)
     = fold_left pushPair (mentionsOf segmentWords facts) (g_segments st)
  /\ g_products (fold_left visitFact facts st)
     = fold_left pushPair (mentionsOf productWords facts) (g_products st).
Proof.
  cbv zeta. revert st. induction facts as [|fact facts IH]; intros st;
    cbn [fold_left mentionsOf flat_map]; [auto|].
  rewrite !fold_left_app.
  destruct (IH (visitFact st fact)) as (-> & -> & ->).
  unfold visitFact. destruct (dimensions fact) as [d|]; [|auto].
  revert st. induction d as [|kv d IHd]; intros st; cbn [fold_left flat_map]; [auto|].
  rewrite !fold_left_app.
  destruct (IHd (visitKey fact st kv)) as (-> & -> & ->).
  unfold visitKey. cbn [g_geography g_segments g_products].
  destruct (mentions geographyWords (fst kv)), (mentions segmentWords (fst kv)),
    (mentions productWords (fst kv)); auto.
Qed.

Lemma statsOf_summarises (words : list jsstring) (facts : list Fact) :
  summarises words facts
    (statsOf (fold_left (fun g (p : jsstring * Fact) => pushTo (fst p) (snd p) g)
                (mentionsOf words facts) [])).
Proof.
  unfold summarises.
  match goal with |- context [statsOf ?t] => set (g := t) end.
  pose proof (fold_upsert str_eqb str_eqb_eq [] fst
                (fun (p : jsstring * Fact) fs => fs ++ [snd p])
                (mentionsOf words facts) [] (NoDup_nil _)) as Hfold.
  cbv beta in Hfold.
  change (fold_left _ (mentionsOf words facts) []) with g in Hfold.
  destruct Hfold as (Hnd & Hkeys & Hval). clearbody g. unfold valueAt in Hval.
  assert (Hdims : map dimension (statsOf g) = map fst g).
  { unfold statsOf. rewrite map_map. reflexivity. }
  rewrite Hdims. split; [exact Hnd|]. split.
  - intros label. rewrite Hkeys. cbn. tauto.
  - intros e He. unfold statsOf in He. apply in_map_iff in He.
    destruct He as ([k fs] & <- & Hin). cbn [dimension ds_facts ds_totalValue fst snd].
    assert (Hfs : fs = labelledWith k (mentionsOf words facts)).
    { specialize (Hval k). rewrite (lookup_In str_eqb str_eqb_eq k fs g Hnd Hin) in Hval.
      rewrite Hval, fold_push. reflexivity. }
    assert (Hk : In k (map fst (mentionsOf words facts))).
    { assert (Hk0 : In k (map fst g)) by exact (in_map fst g (k, fs) Hin).
      apply Hkeys in Hk0. destruct Hk0 as [[]|Hk0]. exact Hk0. }
    split; [|split].
    + rewrite Hfs. unfold labelledWith. rewrite length_map.
      apply in_map_iff in Hk. destruct Hk as (p & Hp & Hpin).
      assert (Hin' : In p (filter (fun p0 => str_eqb (fst p0) k) (mentionsOf words facts))).
      { apply filter_In. split; [exact Hpin|]. now apply str_eqb_eq. }
      destruct (filter _ _); [destruct Hin' | cbn; lia].
    + now rewrite Hfs.
    + rewrite fold_amounts, <- Hfs. reflexivity.
Qed.

(** X16. [extractDimensions] fills its three lists independently. Each list
    has one entry per dimension value that occurs under a key mentioning one
    of the list's words (in any letter case); the entry counts the
    occurrences, a fact once for every such key it carries, and adds up the
    amounts of their facts, null counted as 0. *)
Theorem extractDimensions_summarises (facts : list Fact) :
  summarises geographyWords facts (da_geography (extractDimensions facts))
  /\ summarises segmentWords facts (da_segments (extractDimensions facts))
  /\ summarises productWords facts (da_products (extractDimensions facts)).
Proof.
  unfold extractDimensions. cbn [da_geography da_segments da_products].
  destruct (groups_of_mentions facts
              {| g_geography := []; g_segments := []; g_products := [] |})
    as (-> & -> & ->).
  cbn [g_geography g_segments g_products].
  split; [|split]; apply statsOf_summarises.
Qed.

Lemma fold_countType (fs : list Fact) (e : TypeStats) :
  let r := fold_left
             (fun v x =>
                {| ts_count := S (ts_count v);
                   ts_totalValue := match value x with
                                    | Some q => ts_totalValue v + q
                                    | None => ts_totalValue v
                                    end |}) fs e in
  ts_count r = (ts_count e + List.length fs)%nat
  /\ ts_totalValue r
     == ts_totalValue e + sumQ (map (fun fact => orDefault (value fact) 0) fs).
Proof.
  cbv zeta. revert e. induction fs as [|f fs IH]; intros e; cbn [fold_left map List.length].
  - split; [lia|]. change (sumQ []) with 0. ring.
  - destruct (IH {| ts_count := S (ts_count e);
                    ts_totalValue := match value f with
                                     | Some q => ts_totalValue e + q
                                     | None => ts_totalValue e
                                     end |}) as [Hc Ht].
    split; [rewrite Hc; cbn [ts_count]; lia|].
    rewrite Ht, BuilderFacts.sumQ_cons. cbn [ts_totalValue].
    destruct (value f); cbn [orDefault]; ring.
Qed.

Lemma fold_countNamespace (fs : list Fact) (n : nat) :
  fold_left (fun v (_ : Fact) => S v) fs n = (n + List.length fs)%nat.
Proof.
  revert n. induction fs as [|f fs IH]; intros n; cbn [fold_left List.length]; [lia|].
  rewrite IH. lia.
Qed.

(** X17. In the result of [buildSummary], the numeric and the text facts
    together are all facts. [byType] has one entry per category that some
    fact is classified as; the entry counts those facts and adds up their
    amounts, null left out. [byNamespace] has one entry per namespace (a
    missing one under "undefined"), with the number of its facts. *)
Theorem buildSummary_counts (facts : list Fact) :
  let s := buildSummary facts in
  s_totalFacts s = List.length facts
  /\ (numericFacts s + textFacts s = s_totalFacts s)%nat
  /\ NoDup (map fst (byType s))
  /\ (forall c, In c (map fst (byType s)) <-> ofType c facts <> [])
  /\ (forall c e, In (c, e) (byType s) ->
        ts_count e = List.length (ofType c facts)
        /\ ts_totalValue e
           == sumQ (map (fun fact => orDefault (value fact) 0) (ofType c facts)))
  /\ NoDup (map fst (byNamespace s))
  /\ (forall k, In k (map fst (byNamespace s)) <-> In k (map namespaceKey facts))
  /\ (forall k n, In (k, n) (byNamespace s) ->
        n = countIf (fun fact => str_eqb (namespaceKey fact) k) facts).
Proof.
  cbv zeta. unfold buildSummary.
  cbn [s_totalFacts numericFacts textFacts byType byNamespace].
  split; [reflexivity|]. split.
  { pose proof (filter_length_le hasNumber facts). lia. }
  destruct (fold_upsert Category_eqb TableFacts.Category_eqb_eq
              {| ts_count := 0; ts_totalValue := 0 |}
              (fun fact => classifyFact (concept fact) VUndefined)
              (fun fact e =>
                 {| ts_count := S (ts_count e);
                    ts_totalValue := match value fact with
                                     | Some v => ts_totalValue e + v
                                     | None => ts_totalValue e
                                     end |})
              facts [] (NoDup_nil _)) as (Hnd & Hkeys & Hval).
  destruct (fold_upsert str_eqb str_eqb_eq 0%nat namespaceKey (fun _ => S)
              facts [] (NoDup_nil _)) as (Hnd' & Hkeys' & Hval').
  change (fold_left (fun m x => upsert Category_eqb _ _ _ m) facts [])
    with (fold_left countType facts []) in *.
  change (fold_left (fun m x => upsert str_eqb _ _ _ m) facts [])
    with (fold_left countNamespace facts []) in *.
  unfold valueAt in Hval, Hval'.
  split; [exact Hnd|]. split; [|split; [|split; [exact Hnd'|split]]].
  - intros c. rewrite Hkeys. cbn [map In]. split.
    + intros [[]|Hin]. apply in_map_iff in Hin. destruct Hin as (fact & <- & Hfact).
      intros Hempty.
      assert (Hin : In fact (ofType (classifyFact (concept fact) VUndefined) facts)).
      { apply filter_In. split; [exact Hfact|]. now apply TableFacts.Category_eqb_eq. }
      rewrite Hempty in Hin. destruct Hin.
    + intros Hne. right. destruct (ofType c facts) as [|fact rest] eqn:Ef; [congruence|].
      assert (Hin : In fact (ofType c facts)) by (rewrite Ef; now left).
      apply filter_In in Hin. destruct Hin as [Hfact Hc].
      apply TableFacts.Category_eqb_eq in Hc. subst c.
      exact (in_map (fun x => classifyFact (concept x) VUndefined) facts fact Hfact).
  - intros c e Hin. specialize (Hval c).
    rewrite (lookup_In Category_eqb TableFacts.Category_eqb_eq c e _ Hnd Hin) in Hval.
    cbn [lookup find option_map] in Hval. subst e.
    destruct (fold_countType (ofType c facts) {| ts_count := 0; ts_totalValue := 0 |})
      as [Hc Ht].
    cbv zeta in Hc, Ht. cbn [ts_count ts_totalValue] in Hc, Ht.
    split; [exact Hc|]. rewrite Ht. ring.
  - intros k. rewrite Hkeys'. cbn [map In]. tauto.
  - intros k n Hin. specialize (Hval' k).
    rewrite (lookup_In str_eqb str_eqb_eq k n _ Hnd' Hin) in Hval'.
    cbn [lookup find option_map] in Hval'. subst n.
    rewrite fold_countNamespace. reflexivity.
Qed.

End Statistics.

Lemma extractDimensions_summarises_witness :
  map (fun e => (dimension e, ds_facts e))
      (da_geography (@extractDimensions asciiHost sampleFacts))
  = [(js "Japan", 1%nat); (js "Asia", 2%nat)]
  /\ forall e, In e (da_geography (@extractDimensions asciiHost sampleFacts)) ->
       ds_facts e
       = List.length (labelledWith (dimension e)
                        (@mentionsOf asciiHost (@geographyWords) sampleFacts)).
Proof.
  split; [reflexivity|].
  intros e He.
  destruct (@extractDimensions_summarises asciiHost sampleFacts) as ((_ & _ & Hall) & _).
  exact (proj1 (proj2 (Hall e He))).
Defined.

Lemma buildSummary_counts_witness :
  map (fun ce => ts_count (snd ce)) (byType (@buildSummary asciiHost sampleFacts))
  = [2%nat; 1%nat; 1%nat]
  /\ forall c e, In (c, e) (byType (@buildSummary asciiHost sampleFacts)) ->
       ts_count e = List.length (@ofType asciiHost c sampleFacts).
Proof.
  split; [reflexivity|]. intros c e Hin.
  destruct (@buildSummary_counts asciiHost sampleFacts) as (_ & _ & _ & _ & Hall & _).
  exact (proj1 (Hall c e Hin)).
Defined.

End StatisticsFacts.


(** ** DART statements *)

Module DartFacts.
Import XbrlParser DartJson DartSpec.

Lemma parseFactValue_returns (v : jsvalue) : exists r, parseFactValue v = Return r.
Proof.
  destruct v as [| |b|n|s|];
    try (exists None; now apply ParserFacts.parseFactValue_not_text).
  destruct s as [|c r]; [eexists; reflexivity|].
  rewrite ParserFacts.parseFactValue_text.
  destruct (isNaN _); eexists; reflexivity.
Qed.

Lemma parseFactValue_falsy (v : jsvalue) : truthy v = false -> parseFactValue v = Return None.
Proof. intros Hv. unfold parseFactValue. now rewrite Hv. Qed.

Lemma itemFact_returns (item : LineItem) : exists fact, itemFact item = Return fact.
Proof.
  unfold itemFact.
  destruct (parseFactValue_returns
              (orValue (thstrm_amount item)
                 (orValue (frmtrm_amount item) (VString (js "0"))))) as (v & ->).
  destruct (parseFactValue_returns (thstrm_amount item)) as (c & ->).
  destruct (parseFactValue_returns (frmtrm_amount item)) as (p & ->).
  destruct (parseFactValue_returns (bfefrmtrm_amount item)) as (b & ->).
  cbn [bind]. eexists. reflexivity.
Qed.

Lemma itemsOf_None (elements : list ListElement) :
  itemsOf elements = None <-> In Nullish elements.
Proof.
  induction elements as [|[|item] rest IH]; cbn [itemsOf In].
  - split; [discriminate | intros []].
  - split; auto.
  - destruct (itemsOf rest); cbn [option_map]; split.
    + discriminate.
    + intros [Hc|Hin]; [discriminate | now apply IH in Hin].
    + intros _. right. now apply IH.
    + reflexivity.
Qed.

Lemma collect_items (elements : list ListElement) :
  forall facts,
    match itemsOf elements with
    | None => collect elements facts = Throw (js "TypeError")
    | Some items =>
      exists more,
        collect elements facts = Return (facts ++ more)
        /\ map Return more = map itemFact items
    end.
Proof.
  induction elements as [|[|item] rest IH]; intros facts; cbn [itemsOf collect].
  - exists []. now rewrite app_nil_r.
  - reflexivity.
  - destruct (itemFact_returns item) as (fact & Hfact). rewrite Hfact. cbn [bind].
    specialize (IH (facts ++ [fact])).
    destruct (itemsOf rest) as [items|]; cbn [option_map]; [|exact IH].
    destruct IH as (more & Hcollect & Hmore). exists (fact :: more).
    rewrite Hcollect, <- app_assoc. split; [reflexivity|].
    cbn [map]. now rewrite Hmore, Hfact.
Qed.

(** X18. [parseXBRLJSON] throws exactly when [jsonData] is null or undefined
    or its [list] is an array that holds a null or undefined element, and
    then with the message of its own prefix. Otherwise it returns: no facts
    when [list] is not an array, and for an array one fact per element, in
    order, each the fact made from that element; [total_facts] is their
    number and [numeric_facts], the number of facts with a value, is at most
    that. *)
Theorem parseXBRLJSON_outcome (jsonData : JsonData) :
  (forall message,
      parseXBRLJSON jsonData = Throw message ->
      message = js "Failed to parse XBRL JSON: " ++ js "TypeError")
  /\ ((exists message, parseXBRLJSON jsonData = Throw message)
      <-> jsonData = NoData
          \/ exists elements, jsonData = Data (ArrayOf elements) /\ In Nullish elements)
  /\ forall r,
       parseXBRLJSON jsonData = Return r ->
       total_facts r = List.length (p_facts r)
       /\ numeric_facts r = List.length (filter isNumeric (p_facts r))
       /\ (numeric_facts r <= total_facts r)%nat
       /\ match jsonData with
          | Data (ArrayOf elements) =>
            exists items,
              itemsOf elements = Some items
              /\ map Return (p_facts r) = map itemFact items
          | _ => p_facts r = []
          end.
Proof.
  unfold parseXBRLJSON. destruct jsonData as [|[|elements]].
  - split; [now intros message [= <-]|]. split; [|discriminate].
    split; [now left | intros _; eexists; reflexivity].
  - cbn [bind]. split; [discriminate|]. split.
    + split; [intros (message & Hm); discriminate|].
      intros [Hc|(es & Hc & _)]; discriminate.
    + intros r [= <-]. cbn. auto.
  - pose proof (collect_items elements []) as Hcollect.
    pose proof (itemsOf_None elements) as Hnone.
    destruct (itemsOf elements) as [items|].
    + destruct Hcollect as (more & -> & Hmore). cbn [bind app].
      split; [discriminate|]. split.
      * split; [intros (message & Hm); discriminate|].
        intros [Hc|(es & [= <-] & Hin)]; [discriminate|].
        apply Hnone in Hin. discriminate.
      * intros r [= <-]. cbn [total_facts numeric_facts p_facts].
        split; [reflexivity|]. split; [reflexivity|].
        split; [apply filter_length_le|]. now exists items.
    + rewrite Hcollect. cbn [bind].
      split; [now intros message [= <-]|]. split; [|discriminate].
      split; [|intros _; eexists; reflexivity].
      intros _. right. exists elements. split; [reflexivity | now apply Hnone].
Qed.

(** X19. The value of a fact made from a line item is the parsed amount of
    the current term when that amount is truthy, else the parsed amount of
    the previous term when that one is truthy; an item with neither amount
    yields the value 0, and so counts as numeric, while its [currentTerm] and
    [previousTerm] are null. *)
Theorem itemFact_value_fallback (item : LineItem) (fact : DartFact) :
  itemFact item = Return fact ->
  (truthy (thstrm_amount item) = true ->
   d_value fact = currentTerm fact /\ d_rawValue fact = thstrm_amount item)
  /\ (truthy (thstrm_amount item) = false ->
      currentTerm fact = None
      /\ d_rawValue fact = frmtrm_amount item
      /\ (truthy (frmtrm_amount item) = true -> d_value fact = previousTerm fact)
      /\ (truthy (frmtrm_amount item) = false ->
          previousTerm fact = None
          /\ d_value fact = Some (Finite 0)
          /\ isNumeric fact = true)).
Proof.
  unfold itemFact, orValue.
  destruct (truthy (thstrm_amount item)) eqn:Hcur.
  - destruct (parseFactValue_returns (thstrm_amount item)) as (c & ->).
    destruct (parseFactValue_returns (frmtrm_amount item)) as (p & ->).
    destruct (parseFactValue_returns (bfefrmtrm_amount item)) as (b & ->).
    cbn [bind]. intros [= <-]. cbn. split; [auto | discriminate].
  - rewrite (parseFactValue_falsy _ Hcur).
    destruct (truthy (frmtrm_amount item)) eqn:Hprev.
    + destruct (parseFactValue_returns (frmtrm_amount item)) as (p & ->).
      destruct (parseFactValue_returns (bfefrmtrm_amount item)) as (b & ->).
      cbn [bind]. intros [= <-]. cbn. split; [discriminate|]. intros _.
      split; [reflexivity|]. split; [reflexivity|]. split; [reflexivity | discriminate].
    + rewrite (parseFactValue_falsy _ Hprev).
      destruct (parseFactValue_returns (bfefrmtrm_amount item)) as (b & ->).
      change (parseFactValue (VString (js "0"))) with (Return (Some (Finite 0))).
      cbn [bind]. intros [= <-]. cbn. split; [discriminate|]. intros _.
      split; [reflexivity|]. split; [reflexivity|]. split; [discriminate|].
      intros _. split; [reflexivity|]. split; reflexivity.
Qed.

Lemma parseXBRLJSON_outcome_witness :
  exists r,
    parseXBRLJSON (Data (ArrayOf statement)) = Return r
    /\ total_facts r = 3%nat /\ numeric_facts r = 2%nat
    /\ (numeric_facts r <= total_facts r)%nat.
Proof.
  eexists. split; [reflexivity|]. split; [reflexivity|]. split; [reflexivity|].
  exact (proj1 (proj2 (proj2 (proj2 (proj2 (parseXBRLJSON_outcome
                  (Data (ArrayOf statement)))) _ eq_refl)))).
Defined.

Lemma itemFact_value_fallback_witness :
  exists fact,
    itemFact (lineItem "Notes" VUndefined VUndefined) = Return fact
    /\ d_value fact = Some (Finite 0) /\ currentTerm fact = None.
Proof.
  eexists. split; [reflexivity|].
  destruct (itemFact_value_fallback (lineItem "Notes" VUndefined VUndefined) _ eq_refl)
    as (_ & Hnone).
  destruct (Hnone eq_refl) as (Hcur & _ & _ & Hboth).
  split; [exact (proj1 (proj2 (Hboth eq_refl))) | exact Hcur].
Defined.

End DartFacts.


(** ** Growth rates when a period is listed twice *)

Module GrowthFacts.
Import FactTableBuilder TimeSeriesAnalyzer ListFacts MixSpec TimeSeriesSpec GrowthSpec.

Lemma toFixed_zero (f : nat) (q : Q) : q == 0 -> toFixed f q == 0.
Proof.
  intros Hq. unfold toFixed.
  assert (Ha : Qabs q == 0) by (rewrite Hq; reflexivity).
  assert (Hbig : Qle_bool (inject_Z (10 ^ 21)) (Qabs q) = false).
  { apply CurrencyFacts.Qle_bool_false. rewrite Ha. reflexivity. }
  assert (Hn : Qfloor (Qabs q * inject_Z (10 ^ Z.of_nat f) + (1 # 2)) = 0%Z).
  { apply CurrencyFacts.Qfloor_between; rewrite Ha;
      setoid_replace (0 * inject_Z (10 ^ Z.of_nat f) + (1 # 2)) with (1 # 2) by ring;
      [discriminate | reflexivity]. }
  assert (Hneg : Qlt_bool q 0 = false).
  { apply Qlt_bool_false. rewrite Hq. apply Qle_refl. }
  rewrite Hbig, Hn, Hneg. reflexivity.
Qed.

Lemma str_le_antisym (a b : jsstring) : str_le a b -> str_le b a -> a = b.
Proof.
  rewrite !SeriesFacts.str_le_iff. rewrite (str_compare_antisym a b).
  destruct (str_compare a b) eqn:Hab; cbn; intros H1 H2; try congruence.
  now apply SeriesFacts.str_compare_eq.
Qed.

(** In a sorted list, a string that occurs twice occurs at two neighbouring
    places. *)
Lemma repeated_adjacent (p : jsstring) (l : list jsstring) :
  StronglySorted str_le l -> (2 <= occurrences p l)%nat -> In (p, p) (adjacent l).
Proof.
  unfold occurrences. induction 1 as [|x l Hs IH Hall]; cbn [count_occ]; [lia|].
  rewrite Forall_forall in Hall.
  destruct (list_eq_dec N.eq_dec x p) as [->|Hne].
  - intros Hcount.
    assert (Hin : In p l).
    { apply (count_occ_In (list_eq_dec N.eq_dec)). lia. }
    destruct l as [|y r]; [destruct Hin|]. cbn [adjacent]. left.
    assert (Hy : y = p); [|now rewrite Hy].
    apply str_le_antisym.
    + inversion Hs as [|? ? _ Hally]; subst. rewrite Forall_forall in Hally.
      destruct Hin as [->|Hin]; [apply SeriesFacts.str_le_refl | now apply Hally].
    + apply Hall. now left.
  - intros Hcount. specialize (IH Hcount).
    destruct l as [|y r]; [destruct IH|]. cbn [adjacent]. now right.
Qed.

(** X20. When [periodData] lists a period twice, as two filings with the
    same period end give it, the growth loop compares that period with
    itself: every geography with a positive sum in it gets an entry whose
    [from] and [to] are that period. Any entry with [from] equal to [to] has
    equal values, change 0 and rate 0. *)
Theorem growth_of_repeated_period (timeSeries : list TimeSeriesRow)
    (periodData : list jsstring) (p : jsstring) (a : GrowthAnalysis) :
  (2 <= occurrences p periodData)%nat ->
  calculateGrowthRates timeSeries periodData = Some a ->
  (forall geo, 0 < geographyTotal (inPeriod timeSeries p) geo ->
     exists e, In e (rates a) /\ from e = p /\ to e = p /\ gr_geography e = geo)
  /\ (forall e, In e (rates a) -> from e = to e ->
        currentValue e = priorValue e
        /\ absoluteChange e == 0 /\ growthRate e == 0).
Proof.
  intros Hcount Hsome.
  assert (Hpair : In (p, p) (adjacent (JS.sort defaultCompare periodData))).
  { apply repeated_adjacent; [apply SeriesFacts.sort_strings_sorted|].
    unfold occurrences in *.
    now rewrite (proj1 (Permutation_count_occ (list_eq_dec N.eq_dec) _ _)
                   (sort_perm defaultCompare periodData) p). }
  split.
  - intros geo Hpos.
    assert (Hpresent : present timeSeries p p geo).
    { unfold geographyTotal in Hpos.
      destruct (filter (fun d => str_eqb (geography d) geo) (inPeriod timeSeries p))
        as [|row rest] eqn:Hrows; [discriminate Hpos|].
      assert (Hrow : In row (filter (fun d => str_eqb (geography d) geo)
                               (inPeriod timeSeries p))) by (rewrite Hrows; now left).
      apply filter_In in Hrow. destruct Hrow as [Hrow Hgeo].
      apply TimeSeriesFacts.inPeriod_In in Hrow. apply str_eqb_eq in Hgeo.
      exists row. tauto. }
    destruct (TimeSeriesFacts.pairGrowthRates_complete _ _ _ _ Hpresent Hpos)
      as (e & Hin & Hto & Hfrom & Hgeo).
    exists e. split; [|auto].
    revert Hsome. unfold calculateGrowthRates.
    destruct (_ <? 2)%nat; [discriminate|]. intros [= <-]. cbn [rates].
    apply sort_In, in_flat_map. exists (p, p). split; [exact Hpair | exact Hin].
  - intros e Hin Hsame.
    destruct (TimeSeriesFacts.rates_from_pairs _ _ _ _ Hsome Hin)
      as (c & q & _ & Hentry).
    unfold pairGrowthRates in Hentry. apply in_flat_map in Hentry.
    destruct Hentry as (geo & _ & Hentry).
    destruct (Qlt_bool 0 _) eqn:Hpos; [|destruct Hentry].
    destruct Hentry as [<-|[]]. cbn [from to] in Hsame. subst q.
    cbn [currentValue priorValue absoluteChange growthRate].
    apply Qlt_bool_iff in Hpos.
    split; [reflexivity|]. split; [ring|].
    apply toFixed_zero. field. intros Hz. rewrite Hz in Hpos. discriminate Hpos.
Qed.

Lemma growth_of_repeated_period_witness :
  exists a e,
    calculateGrowthRates refiled refiledPeriods = Some a
    /\ In e (rates a) /\ from e = js "2023-12-31" /\ to e = js "2023-12-31"
    /\ gr_geography e = js "Total".
Proof.
  destruct (growth_of_repeated_period refiled refiledPeriods (js "2023-12-31") _
              ltac:(vm_compute; lia) eq_refl) as (Hex & _).
  destruct (Hex (js "Total") eq_refl) as (e & Hin & Hfrom & Hto & Hgeo).
  eexists _, e. split; [reflexivity|].
  split; [exact Hin|]. split; [exact Hfrom|]. split; [exact Hto | exact Hgeo].
Defined.

End GrowthFacts.


(** ** A minus sign inside a number *)

Module SignFacts.
Import XbrlParser ParserSpec NumberFacts ParserFacts.

Lemma takeWhile_stop {A} (p : A -> bool) (a : list A) (c : A) (r : list A) :
  Forall (fun x => p x = true) a -> p c = false ->
  takeWhile p (a ++ c :: r) = a /\ dropWhile p (a ++ c :: r) = c :: r.
Proof.
  intros Ha Hc. induction Ha as [|x a Hx _ [IH1 IH2]]; cbn [app takeWhile dropWhile].
  - now rewrite Hc.
  - rewrite Hx. split; [now f_equal | assumption].
Qed.

Lemma digitsValue_from (ds : jsstring) (acc : Z) :
  Forall (fun c => isDigit c = true) ds -> (0 <= acc)%Z ->
  (0 <= fold_left (fun acc c => acc * 10 + (Z.of_N c - 48)) ds acc)%Z.
Proof.
  intros Hds. revert acc. induction Hds as [|c ds Hc _ IH]; intros acc Hacc; cbn [fold_left];
    [exact Hacc|].
  apply IH. apply isDigit_bounds in Hc. lia.
Qed.

Lemma digitsValue_nonneg (ds : jsstring) :
  Forall (fun c => isDigit c = true) ds -> (0 <= digitsValue ds)%Z.
Proof. intros Hds. apply digitsValue_from; [exact Hds | lia]. Qed.

(** A text of digits with marks that are neither white space nor
    separators: the first cleaning leaves it as it is. *)
Lemma separatorsRemoved_marked (a mark b : jsstring) :
  Forall (fun c => isDigit c = true) a -> Forall (fun c => isDigit c = true) b ->
  Forall (fun c => isWhiteSpace c = false) mark ->
  Forall (fun c => (c =? 44)%N = false) mark ->
  Forall (fun c => (c =? 12288)%N = false) mark ->
  separatorsRemoved (a ++ mark ++ b) = a ++ mark ++ b.
Proof.
  intros Ha Hb H1 H2 H3.
  assert (Hd : forall (p : codeunit -> bool) ds,
            (forall c, isDigit c = true -> p c = false) ->
            Forall (fun c => isDigit c = true) ds -> Forall (fun c => p c = false) ds).
  { intros p ds Hp Hds. exact (digits_plain p ds Hp Hds). }
  apply separatorsRemoved_plain; rewrite !Forall_app; repeat split; try assumption;
    apply Hd; try assumption; intros c Hc; now destruct (digit_plain c Hc) as (? & ? & ? & _).
Qed.

Lemma unmarked (a mark b : jsstring) :
  a <> [] ->
  Forall (fun c => isDigit c = true) a -> Forall (fun c => isDigit c = true) b ->
  Forall (fun c => isNegativeGlyph c = false) mark ->
  includes (a ++ mark ++ b) (js "△") || includes (a ++ mark ++ b) (js "▲")
  || includes (a ++ mark ++ b) (js "－") || startsWith (a ++ mark ++ b) (js "-") = false.
Proof.
  intros Hne Ha Hb Hmark.
  assert (Hdigit : forall ds, Forall (fun c => isDigit c = true) ds ->
                     Forall (fun c => isNegativeGlyph c = false) ds).
  { intros ds Hds. eapply Forall_impl; [|exact Hds]. intros d Hd.
    pose proof (digit_plain d Hd) as (_ & _ & _ & Hn & _).
    now apply orb_false_iff in Hn. }
  assert (Hplain : Forall (fun c => isNegativeGlyph c = false) (a ++ mark ++ b)).
  { rewrite !Forall_app. repeat split; auto. }
  assert (Hg : forall g, isNegativeGlyph g = true -> includes (a ++ mark ++ b) [g] = false).
  { intros g Hg. apply includes_one. eapply Forall_impl; [|exact Hplain].
    intros d Hd. destruct (N.eqb_spec g d) as [->|]; [congruence | reflexivity]. }
  change (js "△") with [9651%N]. change (js "▲") with [9650%N].
  change (js "－") with [65293%N]. change (js "-") with [45%N].
  rewrite !Hg by reflexivity. cbn [orb].
  destruct a as [|d a']; [contradiction|]. cbn [app startsWith].
  pose proof (digit_plain d (Forall_inv Ha)) as (_ & _ & _ & _ & _ & Hminus & _).
  now rewrite N.eqb_sym, Hminus.
Qed.

Lemma strip_minus (a mark b : jsstring) :
  Forall (fun c => isDigit c = true) a -> Forall (fun c => isDigit c = true) b ->
  removeAll (fun c => isNegativeGlyph c || (c =? 45)%N) (a ++ mark ++ b)
  = a ++ removeAll (fun c => isNegativeGlyph c || (c =? 45)%N) mark ++ b.
Proof.
  intros Ha Hb. unfold removeAll. rewrite !filter_app. fold (removeAll (fun c => isNegativeGlyph c || (c =? 45)%N) a).
  fold (removeAll (fun c => isNegativeGlyph c || (c =? 45)%N) b).
  rewrite !removeAll_id by (apply digits_plain; [apply digit_plain | assumption]).
  reflexivity.
Qed.

Lemma parseFloat_exponent (a b : jsstring) :
  a <> [] -> b <> [] ->
  Forall (fun c => isDigit c = true) a -> Forall (fun c => isDigit c = true) b ->
  parseFloat (a ++ 101%N :: b)
  = nearestDouble (inject_Z (digitsValue a * 10 ^ digitsValue b)).
Proof.
  intros Hna Hnb Ha Hb. unfold parseFloat, trimStart.
  destruct a as [|d a']; [contradiction|].
  pose proof (digit_plain d (Forall_inv Ha)) as (Hws & _ & _ & _ & Hplus & Hminus & HI).
  cbn [app dropWhile]. rewrite Hws, Hplus, Hminus.
  change (d :: a' ++ 101%N :: b) with ((d :: a') ++ 101%N :: b).
  unfold unsignedLiteral.
  replace (startsWith ((d :: a') ++ 101%N :: b) (js "Infinity")) with false
    by (cbn [app startsWith js]; change (js "Infinity") with (73%N :: js "nfinity");
        cbn [startsWith]; now rewrite HI).
  destruct (takeWhile_stop isDigit (d :: a') 101%N b Ha eq_refl) as [-> ->].
  change (101 =? 46)%N with false. cbv iota.
  rewrite app_nil_r. cbn [List.length Z.of_nat].
  destruct b as [|e b']; [contradiction|].
  pose proof (digit_plain e (Forall_inv Hb)) as (_ & _ & _ & _ & Hplus' & Hminus' & _).
  unfold exponentPart. change ((101 =? 101) || (101 =? 69))%N with true. cbv iota.
  rewrite Hplus', Hminus'.
  rewrite (proj1 (takeWhile_all isDigit (e :: b') Hb)).
  unfold scale10.
  replace (1 * digitsValue (e :: b') - 0)%Z with (digitsValue (e :: b')) by lia.
  pose proof (digitsValue_nonneg (e :: b') Hb) as Hpos.
  destruct (Z.leb_spec 0 (digitsValue (e :: b'))) as [_|Hneg]; [reflexivity | lia].
Qed.

(** X21. ASCII minus signs count for the sign only at the start of the
    cleaned text, yet all of them are dropped before parsing. Digits, a
    minus and more digits are read as the double nearest to the number that
    the digits spell together, and it is not negated; in digits, "e-" and
    more digits the exponent loses its sign, so the number is multiplied by
    the power of ten instead of divided, and the result is the double
    nearest to that product, Infinity when it is too large. Up to 2^53 the
    result is the integer itself. *)
Theorem parseFactValue_interior_minus (a b : jsstring) :
  a <> [] ->
  Forall (fun c => isDigit c = true) a -> Forall (fun c => isDigit c = true) b ->
  parseFactValue (VString (a ++ js "-" ++ b))
  = Return (Some (nearestDouble (inject_Z (digitsValue (a ++ b)))))
  /\ ((digitsValue (a ++ b) <= 2 ^ 53)%Z ->
      parseFactValue (VString (a ++ js "-" ++ b))
      = Return (Some (Finite (inject_Z (digitsValue (a ++ b))))))
  /\ (b <> [] ->
      parseFactValue (VString (a ++ js "e-" ++ b))
      = Return (Some (nearestDouble (inject_Z (digitsValue a * 10 ^ digitsValue b))))
      /\ ((digitsValue a * 10 ^ digitsValue b <= 2 ^ 53)%Z ->
          parseFactValue (VString (a ++ js "e-" ++ b))
          = Return (Some (Finite (inject_Z (digitsValue a * 10 ^ digitsValue b)))))).
Proof.
  intros Hne Ha Hb.
  assert (Hminus : parseFactValue (VString (a ++ js "-" ++ b))
                   = Return (Some (nearestDouble (inject_Z (digitsValue (a ++ b)))))).
  { rewrite parseFactValue_nonempty by (destruct a; [contradiction | discriminate]).
    unfold cleanedText, markedNegative.
    rewrite (separatorsRemoved_marked a (js "-") b Ha Hb)
      by (repeat constructor).
    rewrite (unmarked a (js "-") b Hne Ha Hb) by (repeat constructor).
    rewrite (strip_minus a (js "-") b Ha Hb).
    change (removeAll _ (js "-")) with (@nil N). cbn [app].
    rewrite parseFloat_digits.
    - now rewrite nearestDouble_not_NaN.
    - destruct a; [contradiction | discriminate].
    - now apply Forall_app. }
  split; [exact Hminus|]. split.
  - intros Hsafe. rewrite Hminus, nearestDouble_integer; [reflexivity|].
    pose proof (digitsValue_nonneg (a ++ b) ltac:(now apply Forall_app)). lia.
  - intros Hnb.
    assert (Hexp : parseFactValue (VString (a ++ js "e-" ++ b))
                   = Return (Some (nearestDouble
                                     (inject_Z (digitsValue a * 10 ^ digitsValue b))))).
    { rewrite parseFactValue_nonempty by (destruct a; [contradiction | discriminate]).
      unfold cleanedText, markedNegative.
      rewrite (separatorsRemoved_marked a (js "e-") b Ha Hb)
        by (repeat constructor).
      rewrite (unmarked a (js "e-") b Hne Ha Hb) by (repeat constructor).
      rewrite (strip_minus a (js "e-") b Ha Hb).
      change (removeAll _ (js "e-")) with [101%N]. cbn [app].
      rewrite (parseFloat_exponent a b Hne Hnb Ha Hb).
      now rewrite nearestDouble_not_NaN. }
    split; [exact Hexp|].
    intros Hsafe. rewrite Hexp, nearestDouble_integer; [reflexivity|].
    pose proof (digitsValue_nonneg a Ha) as Hpa.
    pose proof (digitsValue_nonneg b Hb) as Hpb.
    assert (0 <= 10 ^ digitsValue b)%Z by (apply Z.pow_nonneg; lia).
    rewrite Z.abs_eq by (apply Z.mul_nonneg_nonneg; assumption). exact Hsafe.
Qed.

Lemma parseFactValue_interior_minus_witness :
  parseFactValue (VString (js "12-5")) = Return (Some (Finite (inject_Z 125)))
  /\ parseFactValue (VString (js "1e-3")) = Return (Some (Finite (inject_Z 1000)))
  /\ parseFactValue (VString (js "1e-400")) = Return (Some PosInfinity).
Proof.
  pose proof (parseFactValue_interior_minus (js "12") (js "5")
                ltac:(discriminate) ltac:(repeat constructor) ltac:(repeat constructor))
    as (_ & Hjoined & _).
  pose proof (parseFactValue_interior_minus (js "1") (js "3")
                ltac:(discriminate) ltac:(repeat constructor) ltac:(repeat constructor))
    as (_ & _ & Hthousand).
  pose proof (parseFactValue_interior_minus (js "1") (js "400")
                ltac:(discriminate) ltac:(repeat constructor) ltac:(repeat constructor))
    as (_ & _ & Hlarge).
  split; [apply Hjoined; vm_compute; discriminate|].
  split; [apply Hthousand; [discriminate | vm_compute; discriminate]|].
  destruct (Hlarge ltac:(discriminate)) as [Hnear _].
  etransitivity; [exact Hnear | vm_compute; reflexivity].
Defined.

End SignFacts.


(** ** Inline facts *)

Module InlineFacts.
Import XbrlParser InlineXbrl InlineSpec ParserSpec NumberFacts ParserFacts.

Lemma split_first (sep : codeunit) (s : jsstring) :
  split sep s
  = takeWhile (fun c => negb (c =? sep)%N) s
    :: match dropWhile (fun c => negb (c =? sep)%N) s with
       | [] => []
       | _ :: r => split sep r
       end.
Proof.
  induction s as [|c r IH]; [reflexivity|].
  cbn [split takeWhile dropWhile]. destruct (c =? sep)%N; cbn [negb]; [reflexivity|].
  rewrite IH. reflexivity.
Qed.

Lemma includes_colon (s : jsstring) : includes s (js ":") = true <-> In 58%N s.
Proof.
  change (js ":") with [58%N]. split; [|apply In_includes].
  induction s as [|c r IH]; cbn [includes startsWith]; [discriminate|].
  destruct (N.eqb_spec 58 c) as [<-|Hne]; [now left|].
  cbn [andb orb]. intros Hin. right. now apply IH.
Qed.

Lemma until_colon (a : jsstring) (r : jsstring) :
  hasNoColon a ->
  takeWhile (fun c => negb (c =? 58)%N) (a ++ 58%N :: r) = a
  /\ dropWhile (fun c => negb (c =? 58)%N) (a ++ 58%N :: r) = 58%N :: r.
Proof.
  intros Ha. apply SignFacts.takeWhile_stop; [|reflexivity].
  apply Forall_forall. intros c Hc. apply negb_true_iff.
  destruct (N.eqb_spec c 58) as [->|]; [contradiction | reflexivity].
Qed.

Lemma whole_without_colon (a : jsstring) :
  hasNoColon a -> takeWhile (fun c => negb (c =? 58)%N) a = a.
Proof.
  intros Ha. apply takeWhile_all. apply Forall_forall. intros c Hc. apply negb_true_iff.
  destruct (N.eqb_spec c 58) as [->|]; [contradiction | reflexivity].
Qed.

(** The two names of a qualified name: what stands before the first colon
    and what stands between the first and the second one. *)
Lemma qualifiedName_parts (ns c : jsstring) :
  hasNoColon ns -> hasNoColon c ->
  qualifiedName (ns ++ js ":" ++ c) = (ns, c)
  /\ forall rest, qualifiedName (ns ++ js ":" ++ c ++ js ":" ++ rest) = (ns, c).
Proof.
  intros Hns Hc. change (js ":") with [58%N]. cbn [app]. unfold qualifiedName.
  assert (Hyes : forall r, includes (ns ++ 58%N :: r) (js ":") = true).
  { intros r. apply includes_colon, in_or_app. right. now left. }
  split; [|intros rest]; rewrite Hyes, split_first.
  - destruct (until_colon ns c Hns) as [-> ->].
    rewrite split_first. cbn [firstn nth fst snd].
    now rewrite (whole_without_colon c Hc).
  - destruct (until_colon ns (c ++ 58%N :: rest) Hns) as [-> ->].
    rewrite split_first. cbn [firstn nth fst snd].
    now rewrite (proj1 (until_colon c rest Hc)).
Qed.

Lemma parseInt10_digits (ds : jsstring) :
  ds <> [] -> Forall (fun c => isDigit c = true) ds ->
  parseInt10 ds = Some (digitsValue ds)
  /\ parseInt10 (45%N :: ds) = Some (- digitsValue ds)%Z.
Proof.
  intros Hne Hds. unfold parseInt10, trimStart.
  rewrite dropWhile_id by (apply digits_plain; [apply digit_plain | exact Hds]).
  cbn [dropWhile]. change (isWhiteSpace 45) with false. cbv iota.
  cbn [intBody intSign]. change ((45 =? 45) || (45 =? 43))%N with true.
  change (45 =? 45)%N with true. cbv iota.
  destruct ds as [|d r]; [contradiction|].
  pose proof (digit_plain d (Forall_inv Hds)) as (_ & _ & _ & _ & Hplus & Hminus & _).
  cbn [intBody intSign]. rewrite Hminus, Hplus. cbn [orb].
  rewrite (proj1 (takeWhile_all isDigit (d :: r) Hds)).
  split; f_equal; lia.
Qed.

Lemma nonFractionFact_cases (includeNonNumeric : bool) (elem : NonFraction) :
  exists parsed,
    parseFactValue (VString (nf_text elem)) = Return parsed
    /\ textParses elem = negb (isNull parsed)
    /\ nonFractionFact includeNonNumeric elem
       = let scale := match orElse (nf_scale elem) None with
                      | Some s => s
                      | None => js "0"
                      end in
         let value := match parsed with
                      | Some v =>
                        if nonEmpty scale
                        then Some (times v (pow10 (parseInt10 scale))) else Some v
                      | None => None
                      end in
         if negb (isNull parsed) || includeNonNumeric then
           match nf_name elem with
           | Some name =>
             Return (Some {| i_namespace := fst (qualifiedName name);
                             i_concept := snd (qualifiedName name);
                             i_value := value;
                             i_rawValue := nf_text elem;
                             i_contextRef := nf_contextRef elem;
                             i_unitRef := nf_unitRef elem;
                             i_decimals := nf_decimals elem;
                             i_scale := scale;
                             i_format := nf_format elem |})
           | None => Throw (js "TypeError")
           end
         else Return None.
Proof.
  unfold nonFractionFact, textParses.
  destruct (DartFacts.parseFactValue_returns (VString (nf_text elem))) as (parsed & ->).
  exists parsed. split; [reflexivity|]. split; [now destruct parsed|].
  cbn [bind]. cbv zeta.
  destruct parsed as [v|]; cbn [isNull negb orb].
  - destruct (nonEmpty _); cbn [isNull negb orb]; destruct (nf_name elem); reflexivity.
  - destruct includeNonNumeric; [|reflexivity]. destruct (nf_name elem); reflexivity.
Qed.

(** X22. The callback for a numeric element pushes no fact exactly when the
    text is not read as a number and text facts are not asked for; it throws
    exactly when it would push and the element has no name. A pushed fact
    keeps the element's text as [rawValue]; a name without a colon goes to
    the namespace "unknown", and a name with colons gives the part before
    the first colon as namespace and the part up to the second colon as
    concept, dropping what follows a second colon. *)
Theorem nonFractionFact_outcome (includeNonNumeric : bool) (elem : NonFraction) :
  (nonFractionFact includeNonNumeric elem = Return None
   <-> textParses elem = false /\ includeNonNumeric = false)
  /\ ((exists message, nonFractionFact includeNonNumeric elem = Throw message)
      <-> (textParses elem = true \/ includeNonNumeric = true) /\ nf_name elem = None)
  /\ forall fact,
       nonFractionFact includeNonNumeric elem = Return (Some fact) ->
       i_rawValue fact = nf_text elem
       /\ (textParses elem = false -> i_value fact = None)
       /\ exists name,
            nf_name elem = Some name
            /\ (hasNoColon name -> i_namespace fact = js "unknown" /\ i_concept fact = name)
            /\ (forall ns c, hasNoColon ns -> hasNoColon c ->
                  name = ns ++ js ":" ++ c ->
                  i_namespace fact = ns /\ i_concept fact = c)
            /\ (forall ns c rest, hasNoColon ns -> hasNoColon c ->
                  name = ns ++ js ":" ++ c ++ js ":" ++ rest ->
                  i_namespace fact = ns /\ i_concept fact = c).
Proof.
  destruct (nonFractionFact_cases includeNonNumeric elem) as (parsed & _ & -> & ->).
  cbv zeta. split; [|split].
  - destruct (negb (isNull parsed)), includeNonNumeric, (nf_name elem); cbn [orb];
      (split; [intros Heq; try discriminate Heq; auto
              | intros [H1 H2]; try discriminate H1; try discriminate H2; reflexivity]).
  - destruct (negb (isNull parsed)), includeNonNumeric, (nf_name elem); cbn [orb];
      (split; [intros (message & Heq); try discriminate Heq; auto
              | intros [[H1|H1] H2]; try discriminate H1; try discriminate H2;
                eexists; reflexivity]).
  - intros fact Hfact.
    destruct (nf_name elem) as [name|];
      [|destruct (negb (isNull parsed) || includeNonNumeric); discriminate Hfact].
    destruct (negb (isNull parsed) || includeNonNumeric); [|discriminate Hfact].
    injection Hfact as <-. cbn [i_rawValue i_value i_namespace i_concept].
    split; [reflexivity|]. split; [now destruct parsed|].
    exists name. split; [reflexivity|]. split; [|split].
    + intros Hno. unfold qualifiedName.
      destruct (includes name (js ":")) eqn:Hinc; [|split; reflexivity].
      apply includes_colon in Hinc. contradiction.
    + intros ns c Hns Hc ->.
      rewrite (proj1 (qualifiedName_parts ns c Hns Hc)). split; reflexivity.
    + intros ns c rest Hns Hc ->.
      rewrite (proj2 (qualifiedName_parts ns c Hns Hc) rest). split; reflexivity.
Qed.

Lemma scale10_power (z : Z) :
  (0 <= z)%Z ->
  scale10 1 z == inject_Z (10 ^ z) /\ scale10 1 (- z) == / inject_Z (10 ^ z).
Proof.
  intros Hz. unfold scale10.
  assert (Hpow : (0 < 10 ^ z)%Z) by (apply Z.pow_pos_nonneg; lia).
  split.
  - destruct (Z.leb_spec 0 z); [|lia]. now rewrite Z.mul_1_l.
  - destruct (Z.leb_spec 0 (- z)) as [Hle|Hlt].
    + assert (z = 0%Z) by lia. subst z. reflexivity.
    + rewrite Z.opp_involutive. destruct (10 ^ z)%Z as [|p|p] eqn:Hp; try lia.
      reflexivity.
Qed.

(** X23. A numeric fact carries the parsed text times ten to the [scale]
    attribute. For a text that reads as an integer n of magnitude up to 2^53:
    the value is n when the attribute is missing or empty (the scale is then
    "0"), and n * 10^k for a scale of digits that spell k, when 10^k and the
    product are at most 2^53 in magnitude. A [scale] that does not start with
    an integer makes the value NaN, and the fact is pushed all the same. *)
Theorem nonFractionFact_scale (includeNonNumeric : bool) (elem : NonFraction)
    (n : Z) (fact : InlineFact) :
  parseFactValue (VString (nf_text elem)) = Return (Some (Finite (inject_Z n))) ->
  (Z.abs n <= 2 ^ 53)%Z ->
  nonFractionFact includeNonNumeric elem = Return (Some fact) ->
  (nf_scale elem = None \/ nf_scale elem = Some [] ->
   i_scale fact = js "0" /\ i_value fact = Some (Finite (inject_Z n)))
  /\ (forall ds, ds <> [] -> Forall (fun c => isDigit c = true) ds ->
        nf_scale elem = Some ds ->
        (10 ^ digitsValue ds <= 2 ^ 53)%Z ->
        (Z.abs n * 10 ^ digitsValue ds <= 2 ^ 53)%Z ->
        i_value fact = Some (Finite (inject_Z (n * 10 ^ digitsValue ds))))
  /\ (forall s, s <> [] -> parseInt10 s = None -> nf_scale elem = Some s ->
        i_value fact = Some NaN).
Proof.
  intros Hparsed Hsafe.
  destruct (nonFractionFact_cases includeNonNumeric elem) as (parsed & Hp & _ & ->).
  rewrite Hparsed in Hp. injection Hp as <-. cbv zeta. cbn [isNull negb orb].
  destruct (nf_name elem) as [name|]; [|discriminate]. intros [= <-].
  cbn [i_scale i_value]. split; [|split].
  - intros [-> | ->]; cbn [orElse nonEmpty]; (split; [reflexivity|]);
      change (parseInt10 (js "0")) with (Some 0%Z);
      change (pow10 (Some 0%Z)) with (Finite 1); cbn [times];
      rewrite (nearestDouble_comp _ (inject_Z n)) by ring;
      now rewrite nearestDouble_integer.
  - intros ds Hne Hds -> Hpow Hprod.
    destruct (parseInt10_digits ds Hne Hds) as [Hplus _].
    pose proof (SignFacts.digitsValue_nonneg ds Hds) as Hpos.
    destruct (scale10_power (digitsValue ds) Hpos) as [Hup _].
    assert (Hten : (0 < 10 ^ digitsValue ds)%Z) by (apply Z.pow_pos_nonneg; lia).
    destruct ds as [|d r]; [contradiction|]. cbn [orElse nonEmpty].
    rewrite Hplus. cbn [pow10].
    rewrite (nearestDouble_comp _ _ Hup), nearestDouble_integer by lia.
    cbn [times].
    rewrite (nearestDouble_comp _ (inject_Z (n * 10 ^ digitsValue (d :: r))))
      by (now rewrite inject_Z_mult).
    rewrite nearestDouble_integer; [reflexivity|].
    rewrite Z.abs_mul, (Z.abs_eq (10 ^ _)) by lia. exact Hprod.
  - intros s Hne Hnan ->. destruct s as [|c r]; [contradiction|].
    cbn [orElse nonEmpty]. rewrite Hnan. reflexivity.
Qed.

(** A negative scale multiplies by the double nearest to the negative power
    of ten, and the product is rounded again: 3 with scale -1 is
    0.30000000000000004, not the double nearest to 3/10. *)
Example nonFractionFact_tenths :
  option_map i_value
    (match nonFractionFact false
             {| nf_name := Some (js "jppfs_cor:Ratio"); nf_contextRef := None;
                nf_unitRef := None; nf_decimals := None;
                nf_scale := Some (js "-1"); nf_format := None; nf_text := js "3" |}
     with Return fact => fact | Throw _ => None end)
  = Some (Some (Finite (1351079888211149 # 4503599627370496)))
  /\ nearestDouble (3 # 10) = Finite (5404319552844595 # 18014398509481984).
Proof. split; vm_compute; reflexivity. Qed.

Lemma nonFractionFact_outcome_witness :
  exists fact,
    nonFractionFact false (salesElement None) = Return (Some fact)
    /\ i_namespace fact = js "jppfs_cor" /\ i_concept fact = js "NetSales".
Proof.
  eexists. split; [vm_compute; reflexivity|].
  destruct (nonFractionFact_outcome false (salesElement None)) as (_ & _ & Hfact).
  destruct (Hfact _ ltac:(vm_compute; reflexivity)) as (_ & _ & name & Hname & _ & _ & Hthree).
  vm_compute in Hname. injection Hname as <-.
  apply (Hthree (js "jppfs_cor") (js "NetSales") (js "extra")).
  - vm_compute. intuition discriminate.
  - vm_compute. intuition discriminate.
  - vm_compute. reflexivity.
Defined.

Lemma nonFractionFact_scale_witness :
  exists fact,
    nonFractionFact false (salesElement (Some "6"%string)) = Return (Some fact)
    /\ i_value fact = Some (Finite 1234000000).
Proof.
  eexists. split; [vm_compute; reflexivity|].
  destruct (nonFractionFact_scale false (salesElement (Some "6"%string)) 1234 _
              ltac:(vm_compute; reflexivity) ltac:(vm_compute; discriminate)
              ltac:(vm_compute; reflexivity)) as (_ & Hdigits & _).
  exact (Hdigits (js "6") ltac:(discriminate) ltac:(repeat constructor) eq_refl
           ltac:(vm_compute; discriminate) ltac:(vm_compute; discriminate)).
Defined.

End InlineFacts.


(** ** A dimension flag without a label *)

Module LabelFacts.
Import XbrlParser FactTableBuilder LabelSpec DimensionSpec DimensionFacts.

Lemma last_colon_unique (sep : codeunit) (p p0 t t0 : jsstring) :
  p ++ sep :: t = p0 ++ sep :: t0 -> ~ In sep t -> ~ In sep t0 -> t = t0.
Proof.
  revert p0. induction p as [|c p IH]; intros [|c0 p0]; cbn [app]; intros Heq Ht Ht0.
  - now injection Heq.
  - injection Heq as _ Heq. exfalso. apply Ht. rewrite Heq.
    apply in_or_app. right. now left.
  - injection Heq as _ Heq. exfalso. apply Ht0. rewrite <- Heq.
    apply in_or_app. right. now left.
  - injection Heq as _ Heq. exact (IH _ Heq Ht Ht0).
Qed.

Lemma pop_split_after (p t : jsstring) :
  ~ In 58%N t -> pop (split 58%N (p ++ 58%N :: t)) = t.
Proof.
  intros Ht. destruct (pop_split_strips (p ++ 58%N :: t)) as [[Hno _]|(p0 & Heq & Ht0)].
  - exfalso. apply Hno, in_or_app. right. now left.
  - symmetry. exact (last_colon_unique 58%N p p0 t _ Heq Ht Ht0).
Qed.

Lemma cleanDimensionValue_bare (prefix : jsstring) :
  cleanDimensionValue (VString (prefix ++ js ":Member")) = VString [].
Proof.
  unfold cleanDimensionValue.
  assert (Htruthy : truthy (VString (prefix ++ js ":Member")) = true)
    by now destruct prefix.
  rewrite Htruthy. cbn [negb isString orb].
  change (js ":Member") with (58%N :: js "Member").
  rewrite pop_split_after; [reflexivity|].
  cbn. intuition discriminate.
Qed.

(** X24. A dimension whose member is named just "Member" after its namespace
    cleans to the empty text. When it stands under the first key that
    matches an extractor's keywords, the extractor returns the empty text,
    so its flag is set although the label is falsy; in the summary of a table
    the row then counts in [factsWithGeography] and in no entry of
    [geographicBreakdown]. *)
Theorem dimension_flag_without_label `{Host} (key prefix : jsstring) (rest : Dimensions) :
  (forall extract has keywords,
      In (extract, has, keywords) extractors ->
      existsb (fun k => includes key k) keywords = true ->
      extract (bareMember key prefix rest) = VString []
      /\ has (bareMember key prefix rest) = true
      /\ truthy (extract (bareMember key prefix rest)) = false)
  /\ (existsb (fun k => includes key k) geoKeys = true ->
      forall country target index fact s,
        dimensions fact = bareMember key prefix rest ->
        generateFactTableSummary [enrich country target index fact] = FullSummary s ->
        factsWithGeography s = 1%nat /\ geographicBreakdown s = []).
Proof.
  assert (Hfirst : forall keywords,
            existsb (fun k => includes key k) keywords = true ->
            firstMatching keywords (bareMember key prefix rest) = VString []).
  { intros keywords Hkey. unfold firstMatching, bareMember. cbn [find fst snd].
    rewrite Hkey. apply cleanDimensionValue_bare. }
  split.
  - intros extract has keywords Hin Hkey.
    assert (Hshape : extract = firstMatching keywords
                     /\ has = fun d => notNull (firstMatching keywords d)).
    { cbn in Hin. destruct Hin as [Heq|[Heq|[Heq|[]]]];
        injection Heq as <- <- <-; split; reflexivity. }
    destruct Hshape as [-> ->]. rewrite (Hfirst keywords Hkey). auto.
  - intros Hkey country target index fact s Hdims.
    cbn [generateFactTableSummary]. intros [= <-].
    cbn [factsWithGeography geographicBreakdown].
    unfold getGeographicBreakdown, breakdownBy, countIf. cbn [fold_left filter].
    cbn [hasGeographicDimension geography enrich].
    unfold hasGeographyDimension, extractGeographyFromDimensions.
    rewrite Hdims, (Hfirst geoKeys Hkey). split; reflexivity.
Qed.

Lemma dimension_flag_without_label_witness :
  @hasGeographyDimension (dimensions bareFact) = true
  /\ extractGeographyFromDimensions (dimensions bareFact) = VString []
  /\ exists s,
       @generateFactTableSummary asciiHost [@enrich asciiHost (js "JP") 100 0 bareFact]
       = FullSummary s
       /\ factsWithGeography s = 1%nat /\ geographicBreakdown s = [].
Proof.
  destruct (@dimension_flag_without_label asciiHost (js "GeographicalAreasMember")
              (js "jppfs_cor") []) as (Hthree & Htable).
  destruct (Hthree extractGeographyFromDimensions hasGeographyDimension geoKeys
              (or_introl eq_refl) eq_refl) as (Hlabel & Hflag & _).
  split; [exact Hflag|]. split; [exact Hlabel|].
  eexists. split; [reflexivity|].
  exact (Htable eq_refl (js "JP") 100 0%nat bareFact _ eq_refl eq_refl).
Defined.

End LabelFacts.


(** ** Collected periods and the assembled analysis *)

Module PipelineFacts.
Import FactTableBuilder TimeSeriesAnalyzer MixAnalyzer SeriesPipeline ListFacts MixSpec
  PipelineSpec.

Lemma collect_from (filings : list Filing) (periods : Q) (n : nat) :
  periods <= inject_Z (Z.of_nat n) ->
  (n = 0%nat \/ inject_Z (Z.of_nat n) - 1 < periods) ->
  forall processedCount periodData,
    (processedCount <= n)%nat ->
    collect filings periods processedCount periodData
    = periodData ++ firstn (n - processedCount) (yields filings).
Proof.
  intros Hup Hlow.
  assert (Hgo : forall count, (count < n)%nat ->
                  Qlt_bool (inject_Z (Z.of_nat count)) periods = true).
  { intros count Hcount. apply Qlt_bool_iff.
    destruct Hlow as [->|Hlow]; [lia|].
    eapply Qle_lt_trans; [|exact Hlow].
    unfold Qle, Qminus, Qplus, Qopp, inject_Z. cbn [Qnum Qden]. lia. }
  assert (Hstop : Qlt_bool (inject_Z (Z.of_nat n)) periods = false).
  { now apply Qlt_bool_false. }
  induction filings as [|filing rest IH]; intros count acc Hcount; cbn [collect yields flat_map].
  - now rewrite firstn_nil, app_nil_r.
  - destruct (Nat.eq_dec count n) as [->|Hne].
    + rewrite Hstop, Nat.sub_diag. cbn [firstn]. now rewrite app_nil_r.
    + rewrite Hgo by lia. fold (yields rest). unfold recordOf.
      destruct (f_matches filing) as [[|fact facts]|]; cbn [app].
      * now apply IH.
      * rewrite IH by lia. rewrite <- app_assoc. cbn [app].
        replace (n - count)%nat with (S (n - S count)) by lia. reflexivity.
      * now apply IH.
Qed.

(** X25. The loop over a Japanese company's filings keeps, in their order,
    the first [periods] filings (rounded up) whose facts can be fetched and
    hold a match; filings that throw or hold no match are passed over
    without counting, and every period kept has at least one fact. *)
Theorem collect_first_yields (filings : list Filing) (periods : Q) (n : nat) :
  periods <= inject_Z (Z.of_nat n) ->
  (n = 0%nat \/ inject_Z (Z.of_nat n) - 1 < periods) ->
  collect filings periods 0 [] = firstn n (yields filings)
  /\ (List.length (collect filings periods 0 []) <= n)%nat
  /\ Forall (fun r => pr_facts r <> []) (collect filings periods 0 []).
Proof.
  intros Hup Hlow.
  rewrite (collect_from filings periods n Hup Hlow 0 [] (Nat.le_0_l n)).
  rewrite Nat.sub_0_r. cbn [app]. split; [reflexivity|]. split.
  - rewrite length_firstn. lia.
  - apply Forall_forall. intros r Hr. apply BuilderFacts.In_firstn in Hr.
    unfold yields in Hr. apply in_flat_map in Hr. destruct Hr as (filing & _ & Hr).
    unfold recordOf in Hr. destruct (f_matches filing) as [[|fact facts]|];
      try destruct Hr as [<-|[]]; try destruct Hr. discriminate.
Qed.

Lemma distinctBy_same_elements (l l' : list jsstring) :
  (forall x, In x l <-> In x l') ->
  List.length (distinctBy str_eqb l) = List.length (distinctBy str_eqb l').
Proof.
  intros Hsame. apply Permutation_length.
  apply NoDup_Permutation; try apply SeriesFacts.distinctBy_NoDup.
  intros x. split; intros Hin; apply In_distinctBy, Hsame; now apply distinctBy_In in Hin.
Qed.

Lemma calculateTrends_insufficient (timeSeries : list TimeSeriesRow) :
  direction (calculateTrends timeSeries) = insufficient_data
  <-> (List.length (distinctBy str_eqb (map period timeSeries)) < 2)%nat.
Proof.
  unfold calculateTrends.
  rewrite (Permutation_length
             (sort_perm defaultCompare (distinctBy str_eqb (map period timeSeries)))).
  destruct (Nat.ltb_spec (List.length (distinctBy str_eqb (map period timeSeries))) 2)
    as [Hlt|Hge]; cbn [direction].
  - tauto.
  - split; [|lia].
    repeat match goal with |- context [if ?b then _ else _] => destruct b end;
      discriminate.
Qed.

Lemma calculateGrowthRates_None (timeSeries : list TimeSeriesRow) (periodData : list jsstring) :
  calculateGrowthRates timeSeries periodData = None <-> (List.length periodData < 2)%nat.
Proof.
  unfold calculateGrowthRates.
  rewrite (Permutation_length (sort_perm defaultCompare periodData)).
  destruct (Nat.ltb_spec (List.length periodData) 2); split; try discriminate; try lia;
    reflexivity.
Qed.

Section Assembled.
Context `{Host}.

Lemma table_periods (periodData : list PeriodRecord) :
  Forall (fun r => pr_facts r <> []) periodData ->
  forall p, In p (map period (buildTimeSeriesTable periodData))
            <-> In p (map pr_period periodData).
Proof.
  intros Hfacts p. rewrite Forall_forall in Hfacts. unfold buildTimeSeriesTable.
  rewrite !in_map_iff. split.
  - intros (row & <- & Hrow). apply sort_In, in_flat_map in Hrow.
    destruct Hrow as (r & Hr & Hrow). unfold rowsOf in Hrow.
    apply in_map_iff in Hrow. destruct Hrow as (fact & <- & _). now exists r.
  - intros (r & <- & Hr). destruct (pr_facts r) as [|fact facts] eqn:Hf;
      [now apply Hfacts in Hr|].
    exists {| period := pr_period r; concept := pf_concept fact; value := pf_value fact;
              geography := pf_geography fact; segment := pf_segment fact |}.
    split; [reflexivity|]. apply sort_In, in_flat_map. exists r. split; [exact Hr|].
    unfold rowsOf. rewrite Hf. now left.
Qed.

(** X26. From the collected periods on, [timeSeriesAnalysis] throws exactly
    when there is none. Otherwise the table holds the rows of all periods;
    the growth analysis is null exactly when it is not asked for or fewer
    than two periods were collected, and the mix analysis exactly when
    neither mix is asked for; the periods are listed in ascending order. The
    trend is "insufficient_data" exactly when fewer than two different
    periods were collected, so two filings for one period give growth rates
    and no trend. *)
Theorem analyse_assembles (collected : list PeriodRecord) (options : AnalysisOptions) :
  ((exists message, analyse collected options = Throw message) <-> collected = [])
  /\ forall a, analyse collected options = Return a ->
       totalPeriods a = List.length collected
       /\ periodsAnalyzed a = List.length collected
       /\ Permutation (a_timeSeries a) (flat_map rowsOf collected)
       /\ totalDataPoints a = List.length (flat_map pr_facts collected)
       /\ (growthAnalysis a = None
           <-> showGrowthRates options = false \/ (List.length collected < 2)%nat)
       /\ (mixAnalysis a = None
           <-> o_includeGeography options = false /\ o_includeSegments options = false)
       /\ StronglySorted str_le (a_periods a)
       /\ Permutation (a_periods a) (map pr_period collected)
       /\ (Forall (fun r => pr_facts r <> []) collected ->
           (direction (a_trends a) = insufficient_data
            <-> (List.length (distinctBy str_eqb (map pr_period collected)) < 2)%nat)).
Proof.
  unfold analyse. destruct collected as [|first rest] eqn:Hc.
  { split; [split; [reflexivity | intros _; eexists; reflexivity]|]. discriminate. }
  rewrite <- Hc. split.
  { split; [intros (message & Hm); discriminate | rewrite Hc; discriminate]. }
  intros a [= <-]. cbv zeta.
  cbn [totalPeriods periodsAnalyzed a_timeSeries totalDataPoints growthAnalysis
       mixAnalysis a_periods a_trends].
  set (periodData := JS.sort (fun a b => inject_Z (localeCompare (pr_period b) (pr_period a)))
                       collected).
  assert (Hperm : Permutation periodData collected) by apply sort_perm.
  assert (Hrows : Permutation (buildTimeSeriesTable periodData) (flat_map rowsOf collected)).
  { unfold buildTimeSeriesTable. rewrite sort_perm.
    apply Permutation_flat_map. exact Hperm. }
  split; [exact (Permutation_length Hperm)|]. split; [exact (Permutation_length Hperm)|].
  split; [exact Hrows|]. split; [|split; [|split; [|split; [|split]]]].
  - rewrite (Permutation_length Hrows). clear.
    induction collected as [|r l IH]; cbn [flat_map]; [reflexivity|].
    rewrite !length_app, IH. unfold rowsOf. now rewrite length_map.
  - rewrite <- (Permutation_length Hperm).
    pose proof (calculateGrowthRates_None (buildTimeSeriesTable periodData)
                  (map pr_period periodData)) as Hnone.
    rewrite length_map in Hnone.
    destruct (showGrowthRates options); cbn [andb];
      [|split; [auto | reflexivity]].
    destruct (List.length periodData) as [|[|k]]; cbv iota.
    + split; [intros _; right; lia | reflexivity].
    + split; [intros _; right; lia | reflexivity].
    + rewrite Hnone. split; [auto|]. intros [Hc'|Hc']; [discriminate | exact Hc'].
  - destruct (o_includeGeography options), (o_includeSegments options); cbn [orb];
      split; try discriminate; try (intros [? ?]; discriminate); auto.
  - apply SeriesFacts.sort_strings_sorted.
  - rewrite sort_perm. now apply Permutation_map.
  - intros Hfacts. rewrite calculateTrends_insufficient.
    rewrite (distinctBy_same_elements (map period (buildTimeSeriesTable periodData))
               (map pr_period collected)); [reflexivity|].
    intros p. rewrite table_periods.
    + split; apply Permutation_in; [|symmetry]; now apply Permutation_map.
    + apply Forall_forall. intros r Hr. rewrite Forall_forall in Hfacts.
      apply Hfacts. exact (Permutation_in _ Hperm Hr).
Qed.

End Assembled.

Lemma collect_first_yields_witness :
  map pr_period (collect someFilings 4 0 []) = [js "2023-03-31"; js "2023-03-31"]
  /\ collect someFilings 4 0 [] = firstn 4 (yields someFilings).
Proof.
  split; [reflexivity|].
  exact (proj1 (collect_first_yields someFilings 4 4
                  ltac:(vm_compute; discriminate) (or_intror eq_refl))).
Defined.

Lemma analyse_assembles_witness :
  exists a,
    @timeSeriesAnalysisJP asciiHost someFilings defaults = Return a
    /\ totalPeriods a = 2%nat
    /\ growthAnalysis a <> None
    /\ direction (a_trends a) = insufficient_data.
Proof.
  eexists. split; [vm_compute; reflexivity|].
  split; [reflexivity|]. split; [discriminate|].
  destruct (@analyse_assembles asciiHost (collect someFilings 4 0 []) defaults) as (_ & Ha).
  destruct (Ha _ ltac:(vm_compute; reflexivity))
    as (_ & _ & _ & _ & _ & _ & _ & _ & Htrend).
  apply Htrend; [repeat constructor; discriminate | vm_compute; lia].
Defined.

End PipelineFacts.


(** ** Filtering the facts as pushed *)

Module RawFilterFacts.
Import XbrlParser FactTableBuilder RawFacts RawSpec.


Section Conjunction.
Context `{Host}.





End Conjunction.



End RawFilterFacts.


(** ** The fact table on the facts as pushed *)

Module RawTableFacts.
Import XbrlParser FactTableBuilder RawFacts RawSpec ListFacts.











Section Refinement.
Context `{Host}.

Lemma keepFact_widen (criteria : Criteria) (fact : Fact) :
  RawFacts.keepFact criteria (widen fact) = Return (XbrlParser.keepFact criteria fact).
Proof.
  unfold RawFacts.keepFact, XbrlParser.keepFact, widen.
  cbn [r_concept r_value r_period r_dimensions asString].
  destruct (truthyString (c_concept criteria)); cbn [bind andb]; f_equal;
    destruct (value fact) as [v|]; cbn [option_map]; reflexivity.
Qed.

Lemma filterFacts_widen (facts : list Fact) (criteria : Criteria) :
  RawFacts.filterFacts (map widen facts) criteria
  = Return (map widen (XbrlParser.filterFacts facts criteria)).
Proof.
  unfold RawFacts.filterFacts, XbrlParser.filterFacts.
  induction facts as [|fact facts IH]; [reflexivity|].
  cbn [map filterM filter]. rewrite keepFact_widen, IH. cbn [bind].
  now destruct (XbrlParser.keepFact criteria fact).
Qed.


















End Refinement.



End RawTableFacts.
